(** * ContentsZen: playlist and guide generators

    A shallow embedding of the two scripts of the repository that carry
    logic, [lg.py] (channel list, M3U playlist, XMLTV guide) and
    [udptv.py] (playlist relay cleaner), and the properties their
    specification states about them.

    Conventions of the embedding.
    - A Python [str] is a [string]; one [ascii] stands for one character,
      so the model covers text over the code points 0..255.
    - Values decoded from JSON are the type [json]; JSON numbers are
      integers (floating-point values are outside the model).
    - A Python exception is a value of [exn]; a computation that may raise
      returns [res A].
    - The network is an oracle: the n-th HTTP request of a run receives
      the n-th outcome. *)

From Stdlib Require Import ZArith Lia Ascii String DecimalString.
From stdpp Require Import base option list strings.

Local Open Scope Z_scope.

#[local] Set Warnings "-register-all".

#[local] Arguments String.append !_ _ / : simpl nomatch.
#[local] Arguments Ascii.eqb : simpl never.

(** ** Python string primitives *)

Module PyStr.

(** The double quote and the line feed, as characters. *)
Definition dq : ascii := ascii_of_nat 34.
Definition lf : ascii := ascii_of_nat 10.

Definition ch (c : ascii) : string := String c EmptyString.

(** ["..."] with the quotes written out. *)
Definition quoted (s : string) : string := String dq (s +:+ ch dq).

(** [s.startswith(p)] *)
Fixpoint startswith (p s : string) : bool :=
  match p, s with
  | EmptyString, _ => true
  | String a p', String b s' => if Ascii.eqb a b then startswith p' s' else false
  | String _ _, EmptyString => false
  end.

(** [s[n:]] *)
Fixpoint sdrop (n : nat) (s : string) : string :=
  match n, s with
  | O, _ => s
  | S n', String _ s' => sdrop n' s'
  | S _, EmptyString => EmptyString
  end.

(** [sub in s], for a non-empty [sub] *)
Fixpoint contains (sub s : string) : bool :=
  startswith sub s ||
  match s with
  | EmptyString => false
  | String _ s' => contains sub s'
  end.

(** [s.partition(sep)] when [sep] occurs: the text before the first
    occurrence and the text after it. [s.find(sep)] is the length of the
    first component. *)
Fixpoint cut (sep s : string) : option (string * string) :=
  if startswith sep s then Some (EmptyString, sdrop (String.length sep) s)
  else match s with
       | EmptyString => None
       | String c s' =>
           match cut sep s' with
           | Some (a, b) => Some (String c a, b)
           | None => None
           end
       end.

(** [s.replace(old, new)] for a non-empty [old]: every occurrence, left to
    right, without overlap. [skip] counts the characters of an occurrence
    that are still to be passed over. *)
Fixpoint replace_go (old new : string) (skip : nat) (s : string) : string :=
  match s with
  | EmptyString => EmptyString
  | String c s' =>
      match skip with
      | S k => replace_go old new k s'
      | O =>
          if startswith old s
          then new +:+ replace_go old new (String.length old - 1) s'
          else String c (replace_go old new 0 s')
      end
  end.

Definition replace (old new s : string) : string := replace_go old new 0 s.

(** Characters for which [str.isspace] holds, below code point 256. *)
Definition isspace (c : ascii) : bool :=
  let n := nat_of_ascii c in
  ((9 <=? n)%nat && (n <=? 13)%nat) || ((28 <=? n)%nat && (n <=? 32)%nat)
  || (n =? 133)%nat || (n =? 160)%nat.

Fixpoint lstrip (s : string) : string :=
  match s with
  | EmptyString => EmptyString
  | String c s' => if isspace c then lstrip s' else s
  end.

Fixpoint rstrip (s : string) : string :=
  match s with
  | EmptyString => EmptyString
  | String c s' =>
      match rstrip s' with
      | EmptyString => if isspace c then EmptyString else ch c
      | r => String c r
      end
  end.

(** [s.strip()] *)
Definition strip (s : string) : string := rstrip (lstrip s).

(** [sep.join(l)] *)
Fixpoint join (sep : string) (l : list string) : string :=
  match l with
  | [] => EmptyString
  | [x] => x
  | x :: l' => x +:+ sep +:+ join sep l'
  end.

(** No white space at the start, at the end: the fixed points of
    [lstrip] and [rstrip]. *)
Definition head_ok (s : string) : bool :=
  match s with
  | EmptyString => true
  | String c _ => negb (isspace c)
  end.

Fixpoint tail_ok (s : string) : bool :=
  match s with
  | EmptyString => true
  | String c s' =>
      match s' with
      | EmptyString => negb (isspace c)
      | String _ _ => tail_ok s'
      end
  end.

(** Classes of characters. *)
Definition is_upper (c : ascii) : bool :=
  let n := nat_of_ascii c in (65 <=? n)%nat && (n <=? 90)%nat.
Definition is_lower (c : ascii) : bool :=
  let n := nat_of_ascii c in (97 <=? n)%nat && (n <=? 122)%nat.
Definition is_digit (c : ascii) : bool :=
  let n := nat_of_ascii c in (48 <=? n)%nat && (n <=? 57)%nat.
Definition is_alpha (c : ascii) : bool := is_upper c || is_lower c.

(** [c in scheme_chars] *)
Definition scheme_char (c : ascii) : bool :=
  is_alpha c || is_digit c || Ascii.eqb c "+" || Ascii.eqb c "-" || Ascii.eqb c ".".

Fixpoint all_chars (p : ascii → bool) (s : string) : bool :=
  match s with
  | EmptyString => true
  | String c s' => p c && all_chars p s'
  end.

(** [c not in w] *)
Fixpoint lacks (c : ascii) (w : string) : bool :=
  match w with
  | EmptyString => true
  | String a w' => negb (Ascii.eqb a c) && lacks c w'
  end.

End PyStr.

Import PyStr.

(** ** Python values and exceptions *)

Module Py.

(** What [response.json()] returns. [JNull] is Python's [None]. *)
Inductive json :=
| JNull
| JBool (b : bool)
| JInt (n : Z)
| JStr (s : string)
| JList (items : list json)
| JObj (fields : list (string * json)).

(** The exceptions the scripts meet. *)
Inductive exn := TypeError | AttributeError | ValueError.

Inductive res (A : Type) :=
| Ok (a : A)
| Raise (e : exn).
Arguments Ok {A} a.
Arguments Raise {A} e.

Definition bind {A B : Type} (m : res A) (k : A → res B) : res B :=
  match m with
  | Ok a => k a
  | Raise e => Raise e
  end.

(** [bool(v)] *)
Definition truthy (v : json) : bool :=
  match v with
  | JNull => false
  | JBool b => b
  | JInt n => negb (n =? 0)
  | JStr s => negb (String.eqb s EmptyString)
  | JList l => match l with [] => false | _ => true end
  | JObj kv => match kv with [] => false | _ => true end
  end.

(** A [dict] keeps its items in insertion order, each key once. *)
Fixpoint lookup (k : string) (kv : list (string * json)) : option json :=
  match kv with
  | [] => None
  | (k', v) :: kv' => if String.eqb k k' then Some v else lookup k kv'
  end.

(** [d.get(k)] and [d.get(k, dflt)] *)
Definition get (k : string) (kv : list (string * json)) : json :=
  default JNull (lookup k kv).

Definition get_or (k : string) (dflt : json) (kv : list (string * json)) : json :=
  default dflt (lookup k kv).

(** [str(n)] for an integer *)
Definition int_str (n : Z) : string :=
  DecimalString.NilZero.string_of_int (Z.to_int n).

Definition hex_digit (n : nat) : ascii :=
  ascii_of_nat (if (n <? 10)%nat then 48 + n else 87 + n).

(** One character inside [repr] of a string written between the quote
    character [q]. *)
Definition repr_char (q c : ascii) : string :=
  let n := nat_of_ascii c in
  if Ascii.eqb c q || Ascii.eqb c "\"
  then String "\" (ch c)
  else if (n =? 9)%nat then "\t"
  else if (n =? 10)%nat then "\n"
  else if (n =? 13)%nat then "\r"
  else if (n <? 32)%nat || ((127 <=? n)%nat && (n <=? 160)%nat) || (n =? 173)%nat
  then "\x" +:+ ch (hex_digit (n / 16)) +:+ ch (hex_digit (n mod 16))
  else ch c.

Fixpoint repr_chars (q : ascii) (s : string) : string :=
  match s with
  | EmptyString => EmptyString
  | String c s' => repr_char q c +:+ repr_chars q s'
  end.

(** [repr(s)] for a string: single quotes, unless the text has a single
    quote and no double quote. *)
Definition str_repr (s : string) : string :=
  let q := if negb (lacks "'" s) && lacks dq s then dq else "'"%char in
  String q (repr_chars q s +:+ ch q).

(** [repr(v)] *)
Fixpoint repr (v : json) : string :=
  match v with
  | JNull => "None"
  | JBool true => "True"
  | JBool false => "False"
  | JInt n => int_str n
  | JStr s => str_repr s
  | JList l => "[" +:+ join ", " (map repr l) +:+ "]"
  | JObj kv =>
      "{" +:+ join ", " (map (λ p, str_repr p.1 +:+ ": " +:+ repr p.2) kv) +:+ "}"
  end.

(** [str(v)], which is also what an f-string writes for [{v}] *)
Definition str (v : json) : string :=
  match v with
  | JStr s => s
  | _ => repr v
  end.

(** [s.startswith(p)] on any value: only a string has the method. *)
Definition startswith_any (p : string) (v : json) : res bool :=
  match v with
  | JStr s => Ok (startswith p s)
  | _ => Raise AttributeError
  end.

(** The one-character strings of a string. *)
Fixpoint chars (s : string) : list json :=
  match s with
  | EmptyString => []
  | String c s' => JStr (ch c) :: chars s'
  end.

(** [for x in v]: the items of a list, the characters of a string, the
    keys of a dict. *)
Definition iter (v : json) : res (list json) :=
  match v with
  | JList l => Ok l
  | JStr s => Ok (chars s)
  | JObj kv => Ok (map (λ p, JStr p.1) kv)
  | _ => Raise TypeError
  end.

(** [len(v)] *)
Definition len (v : json) : res nat :=
  match v with
  | JList l => Ok (length l)
  | JStr s => Ok (String.length s)
  | JObj kv => Ok (length kv)
  | _ => Raise TypeError
  end.

Definition is_str (v : json) : bool := match v with JStr _ => true | _ => false end.

(** [sep.join(l)] on a list of values: every item must be a string. *)
Fixpoint strings (l : list json) : res (list string) :=
  match l with
  | [] => Ok []
  | JStr s :: l' => match strings l' with Ok r => Ok (s :: r) | Raise e => Raise e end
  | _ :: _ => Raise TypeError
  end.

End Py.

Import Py.

#[global] Instance res_ret : MRet res := @Ok.
#[global] Instance res_bind : MBind res := λ A B k m, Py.bind m k.

(** ** The library functions the scripts call *)

Module Datetime.

(** An instant as [datetime] holds it; [utcoffset] is the offset of its
    time zone in microseconds, absent for a naive value. *)
Record datetime := {
  year : Z; month : Z; day : Z;
  hour : Z; minute : Z; second : Z; microsecond : Z;
  utcoffset : option Z
}.

Definition is_leap (y : Z) : bool :=
  (y mod 4 =? 0) && (negb (y mod 100 =? 0) || (y mod 400 =? 0)).

Definition days_in_month (y m : Z) : Z :=
  if m =? 2 then (if is_leap y then 29 else 28)
  else if (m =? 4) || (m =? 6) || (m =? 9) || (m =? 11) then 30
  else 31.

Definition day_us : Z := 86400 * 1000000.

(** The ranges the constructors of [datetime] and [timezone] enforce. *)
Definition valid (dt : datetime) : bool :=
  (1 <=? year dt) && (year dt <=? 9999)
  && (1 <=? month dt) && (month dt <=? 12)
  && (1 <=? day dt) && (day dt <=? days_in_month (year dt) (month dt))
  && (0 <=? hour dt) && (hour dt <=? 23)
  && (0 <=? minute dt) && (minute dt <=? 59)
  && (0 <=? second dt) && (second dt <=? 59)
  && (0 <=? microsecond dt) && (microsecond dt <=? 999999)
  && match utcoffset dt with
     | None => true
     | Some off => (- day_us <? off) && (off <? day_us)
     end.

(** Decimal digits with leading zeros. *)
Definition digit (n : Z) : ascii := ascii_of_nat (48 + Z.to_nat (n mod 10)).
Definition pad2 (n : Z) : string := String (digit (n / 10)) (ch (digit n)).
Definition pad4 (n : Z) : string := pad2 (n / 100) +:+ pad2 n.
Definition pad6 (n : Z) : string := pad2 (n / 10000) +:+ pad4 n.

(** [%z]: empty for a naive value, else the sign, hours and minutes,
    then the seconds when there are any, then the microseconds when there
    are any. *)
Definition strftime_z (off : option Z) : string :=
  match off with
  | None => EmptyString
  | Some o =>
      let a := Z.abs o in
      let us := a mod 1000000 in
      let secs := a / 1000000 in
      let s := secs mod 60 in
      let m := (secs / 60) mod 60 in
      let h := secs / 3600 in
      (if o <? 0 then "-" else "+") +:+ pad2 h +:+ pad2 m
      +:+ (if negb (us =? 0) then pad2 s +:+ "." +:+ pad6 us
           else if negb (s =? 0) then pad2 s
           else EmptyString)
  end.

(** [%m%d%H%M%S] *)
Definition strftime_mdHMS (dt : datetime) : string :=
  pad2 (month dt) +:+ pad2 (day dt) +:+ pad2 (hour dt)
  +:+ pad2 (minute dt) +:+ pad2 (second dt).

(** The shapes of a formatted timestamp. [digits_then n k s]: [s] starts
    with [n] decimal digits and [k] holds of the rest. *)
Fixpoint digits_then (n : nat) (k : string → bool) (s : string) : bool :=
  match n with
  | O => k s
  | S n' =>
      match s with
      | String c s' => is_digit c && digits_then n' k s'
      | EmptyString => false
      end
  end.

Definition is_empty (s : string) : bool :=
  match s with EmptyString => true | String _ _ => false end.

Definition is_sign (c : ascii) : bool := Ascii.eqb c "+" || Ascii.eqb c "-".

(** A sign and four digits: the offset of the form [±HHMM]. *)
Definition hhmm_offset (off : string) : bool :=
  match off with
  | String c r => is_sign c && digits_then 4 is_empty r
  | EmptyString => false
  end.

(** What [%z] can write: nothing, [±HHMM], [±HHMMSS] or
    [±HHMMSS.ffffff]. *)
Definition after_ss (r : string) : bool :=
  match r with
  | EmptyString => true
  | String d r' => Ascii.eqb d "." && digits_then 6 is_empty r'
  end.

Definition after_hhmm (r : string) : bool :=
  is_empty r || digits_then 2 after_ss r.

Definition z_offset (off : string) : bool :=
  match off with
  | EmptyString => true
  | String c r => is_sign c && digits_then 4 after_hhmm r
  end.

(** [n] digits, one space, and an offset for which [k] holds. *)
Definition stamp (n : nat) (k : string → bool) (s : string) : bool :=
  digits_then n (λ r, match r with
                      | String c off => Ascii.eqb c " " && k off
                      | EmptyString => false
                      end) s.

(** [YYYYMMDDHHMMSS ±HHMM] *)
Definition xmltv_shape (s : string) : bool := stamp 14 hhmm_offset s.

End Datetime.

Import Datetime.

(** The functions of the Python library behind the scripts. Their code is
    not part of the repository, and their behaviour at the edges changes
    between versions of Python; the scripts are verified against this
    interface, and [reference_lib] below implements it.
    - [url_resolve base url] is [urllib.parse.urljoin(base, url)] for two
      non-empty strings; it may raise [ValueError]. What it returns is
      either [url] as it was given, or a URL put together again under the
      scheme of [base].
    - [fromisoformat s] is [datetime.fromisoformat(s)], [None] when it
      raises [ValueError]; what it returns went through the constructor of
      [datetime].
    - [strftime_Y y] is what [%Y] writes; the C library decides whether a
      year below 1000 is padded with zeros. *)
Class PyLib := {
  url_resolve : string → string → res string;
  url_resolve_https (base url r : string) :
    startswith "https:" base = true → url_resolve base url = Ok r →
    r = url ∨ startswith "https:" r = true;
  fromisoformat : string → option datetime;
  fromisoformat_valid (s : string) (dt : datetime) :
    fromisoformat s = Some dt → valid dt = true;
  strftime_Y : Z → string;
  strftime_Y_four (y : Z) : 1000 ≤ y ≤ 9999 → strftime_Y y = pad4 y
}.

(** [urllib.parse.urljoin(base, url)], lines 558-561 of the library first:
    [if not base: return url] and [if not url: return base]. *)
Definition urljoin `{PyLib} (base : string) (url : json) : res json :=
  if negb (truthy (JStr base)) then Ok url
  else if negb (truthy url) then Ok (JStr base)
  else match url with
       | JStr u => match url_resolve base u with
                   | Ok r => Ok (JStr r)
                   | Raise e => Raise e
                   end
       | _ => Raise TypeError
       end.

(** [dt.strftime('%Y%m%d%H%M%S %z')] *)
Definition strftime `{PyLib} (dt : datetime) : string :=
  strftime_Y (year dt) +:+ strftime_mdHMS dt +:+ " " +:+ strftime_z (utcoffset dt).

(** ** lg.py: channel list, playlist and guide *)

Module Lg.

Definition BASE_URL : string := "https://channel-lineup.lgchannels.com".
Definition CHANNELS_ENDPOINT : string := BASE_URL +:+ "/api/channels".
Definition EPG_ENDPOINT : string := BASE_URL +:+ "/api/epg".
Definition EPG_FILENAME : string := "lgchannels_epg.xml.gz".
Definition MAX_RETRIES : Z := 3.
Definition RETRY_DELAY : Z := 2.

(** *** The network *)

(** What one [requests.get] followed by [raise_for_status] and [json]
    comes to: a decoded body, or a [RequestException]: connection error,
    timeout, status outside 2xx, and, with the [requests] of today, whose
    [JSONDecodeError] is a [RequestException], a body that is not JSON. *)
Inductive outcome :=
| Response (body : json)
| RequestException.

(** The n-th request of a run receives the n-th outcome. *)
Definition network := nat → outcome.

Inductive event :=
| HttpGet (url : string)
| Sleep (seconds : Z).

(** What a run has done so far. *)
Record run := {
  requests : nat;
  events : list event
}.

Definition start : run := {| requests := 0; events := [] |}.

Definition request (url : string) (w : run) : run :=
  {| requests := S (requests w); events := events w ++ [HttpGet url] |}.

Definition sleep (seconds : Z) (w : run) : run :=
  {| requests := requests w; events := events w ++ [Sleep seconds] |}.

(** [for attempt in range(retries + 1)], from [attempt] on, with [fuel]
    turns left. *)
Fixpoint fetch_loop (net : network) (url : string) (retries : Z)
    (fuel : nat) (attempt : Z) (w : run) : json * run :=
  match fuel with
  | O => (JNull, w)
  | S fuel' =>
      match net (requests w) with
      | Response body => (body, request url w)
      | RequestException =>
          if attempt =? retries then (JNull, request url w)
          else fetch_loop net url retries fuel' (attempt + 1)
                 (sleep (RETRY_DELAY * (attempt + 1)) (request url w))
      end
  end.

(** [fetch_data(url, params, headers, retries)]; [None] is [JNull]. *)
Definition fetch_data (net : network) (url : string) (retries : Z) (w : run)
    : json * run :=
  fetch_loop net url retries (Z.to_nat (retries + 1)) 0 w.

(** What [n] attempts from [attempt] on leave in the log when none but
    the last may succeed: a request each, and between two requests a sleep
    of [RETRY_DELAY] times the number of the attempt that failed. *)
Fixpoint attempts_from (url : string) (attempt : Z) (n : nat) : list event :=
  match n with
  | O => []
  | S n' =>
      HttpGet url ::
      match n' with
      | O => []
      | S _ => Sleep (RETRY_DELAY * (attempt + 1)) :: attempts_from url (attempt + 1) n'
      end
  end.

(** The seconds a log has spent in [time.sleep]. *)
Fixpoint slept (log : list event) : Z :=
  match log with
  | [] => 0
  | Sleep seconds :: log' => seconds + slept log'
  | HttpGet _ :: log' => slept log'
  end.

(** A URL is absolute when it starts with a scheme and a colon: a letter,
    then letters, digits, [+], [-] and [.] (RFC 3986, and the test of
    [urlsplit]). *)
Definition is_absolute (url : string) : bool :=
  match cut ":" url with
  | Some ((String c0 _) as scheme, _) => is_alpha c0 && all_chars scheme_char scheme
  | _ => false
  end.

Section WithLib.
Context `{PyLib}.

(** *** Timestamps *)

(** Lines 306-310: [Z] becomes [+00:00], and the colons after the
    first dot are taken out. *)
Definition iso_text (time_str : string) : string :=
  let time_str :=
    if contains "Z" time_str then replace "Z" "+00:00" time_str else time_str in
  match cut "." time_str with
  | Some (before, after) => before +:+ replace ":" EmptyString ("." +:+ after)
  | None => time_str
  end.

(** [format_time] on a string: lines 301-316. *)
Definition format_time_str (time_str : string) : string :=
  if String.eqb time_str EmptyString then EmptyString
  else match fromisoformat (iso_text time_str) with
       | Some dt => strftime dt
       | None => EmptyString
       end.

Definition is_text (t : string) (v : json) : bool :=
  match v with JStr s => String.eqb s t | _ => false end.

(** [t in v] for a list or the keys of a dict *)
Definition holds (t : string) (v : json) : bool :=
  match v with
  | JList l => existsb (is_text t) l
  | JObj kv => existsb (λ p, String.eqb p.1 t) kv
  | _ => false
  end.

(** [format_time(time_str)] on any value. A list or a dict passes the
    tests with [in]; when one holds, [replace] or [split] raises
    [AttributeError], which is caught; otherwise [fromisoformat] raises
    [TypeError], which is not. A number fails the first [in]. *)
Definition format_time (time_str : json) : res string :=
  if negb (truthy time_str) then Ok EmptyString
  else match time_str with
       | JStr s => Ok (format_time_str s)
       | JList _ | JObj _ =>
           if holds "Z" time_str || holds "." time_str
           then Ok EmptyString
           else Raise TypeError
       | _ => Raise TypeError
       end.

(** *** Channels *)

(** The dict [channel_info] of lines 121-129. *)
Record channel_info := {
  id : json;
  name : json;
  number : json;
  logo : json;
  stream_url : json;
  description : json;
  categories : json
}.

(** Lines 113-115. *)
Definition resolve_stream (stream_url : json) : res json :=
  if negb (truthy stream_url) then urljoin BASE_URL stream_url
  else
    b ← startswith_any "http" stream_url;
    if negb b then urljoin BASE_URL stream_url else Ok stream_url.

(** Lines 117-119. *)
Definition resolve_logo (logo_url : json) : res json :=
  if truthy logo_url then
    b ← startswith_any "http" logo_url;
    if negb b then urljoin BASE_URL logo_url else Ok logo_url
  else Ok logo_url.

(** What the two have in common for a true value: a string that does not
    start with [http] goes through [urljoin]. *)
Definition join_unless_http (v : json) : res json :=
  b ← startswith_any "http" v;
  if negb b then urljoin BASE_URL v else Ok v.

(** The body of the loop of [get_channels], lines 104-131: [Ok None]
    when the record is passed over with [continue]. *)
Definition channel_record (channel : json) : res (option channel_info) :=
  match channel with
  | JObj kv =>
      let channel_id := get "id" kv in
      if negb (truthy channel_id) then Ok None
      else
        stream_url ← resolve_stream (get_or "streamUrl" (JStr EmptyString) kv);
        logo_url ← resolve_logo (get_or "logoUrl" (JStr EmptyString) kv);
        Ok (Some {|
          id := channel_id;
          name := get_or "name" (JStr ("Channel " +:+ str channel_id)) kv;
          number := get_or "channelNumber" (JStr "0") kv;
          logo := logo_url;
          stream_url := stream_url;
          description := get_or "description" (JStr EmptyString) kv;
          categories := get_or "categories" (JList []) kv
        |})
  | _ => Ok None
  end.

(** The record a raw channel leaves in the list, if any. *)
Definition kept_channel (channel : json) : option channel_info :=
  match channel_record channel with
  | Ok (Some info) => Some info
  | _ => None
  end.

(** One turn of the loop, with its [try] and [except Exception]. *)
Definition add_channel (channels : list channel_info) (channel : json)
    : list channel_info :=
  match channel_record channel with
  | Ok (Some info) => channels ++ [info]
  | Ok None | Raise _ => channels
  end.

(** Lines 101-138: the normalization of the fetched list. *)
Definition normalize_channels (data : list json) : list channel_info :=
  fold_left add_channel data [].

(** [get_channels()] *)
Definition get_channels (net : network) (w : run) : list channel_info * run :=
  let '(data, w) := fetch_data net CHANNELS_ENDPOINT MAX_RETRIES w in
  match data with
  | JList ((_ :: _) as l) => (normalize_channels l, w)
  | _ => ([], w)
  end.

(** *** The playlist *)

(** Lines 185-188: the group label, for categories that are true. *)
Definition group_title (cats : json) : res string :=
  if truthy cats then
    items ← iter cats;
    match filter (λ c, truthy c = true) items with
    | [] => Ok EmptyString
    | kept => ss ← strings kept; Ok ("group-title=" +:+ quoted (join "," ss) +:+ " ")
    end
  else Ok EmptyString.

(** Lines 179-190. *)
Definition extinf_line (c : channel_info) : res string :=
  let extinf := "#EXTINF:-1 tvg-id=" +:+ quoted (str (id c)) +:+ " " in
  let extinf := extinf +:+ "tvg-name=" +:+ quoted (str (name c)) +:+ " " in
  let extinf :=
    if truthy (logo c) then extinf +:+ "tvg-logo=" +:+ quoted (str (logo c)) +:+ " "
    else extinf in
  g ← group_title (categories c);
  Ok (extinf +:+ g +:+ "," +:+ str (name c)).

(** The loop of lines 174-192 over [m3u_content]. *)
Fixpoint m3u_entries (m3u_content : list json) (channels : list channel_info)
    : res (list json) :=
  match channels with
  | [] => Ok m3u_content
  | c :: rest =>
      if negb (truthy (stream_url c)) then m3u_entries m3u_content rest
      else
        extinf ← extinf_line c;
        m3u_entries (m3u_content ++ [JStr extinf; stream_url c]) rest
  end.

Definition m3u_header : string := "#EXTM3U x-tvg-url=" +:+ EPG_FILENAME.

(** The lines of the playlist, before they are joined. *)
Definition m3u_lines (channels : list channel_info) : res (list json) :=
  m3u_entries [JStr m3u_header] channels.

(** [generate_m3u_playlist(channels)] *)
Definition generate_m3u_playlist (channels : list channel_info) : res string :=
  match channels with
  | [] => Ok "#EXTM3U"
  | _ =>
      m3u_content ← m3u_lines channels;
      ss ← strings m3u_content;
      Ok (join (ch lf) ss +:+ ch lf)
  end.

(** *** The guide *)

(** An [Element]: tag, attributes, text and children. *)
Inductive xml :=
| Element (tag : string) (attrib : list (string * json)) (text : json)
    (children : list xml).

Definition tag_of (e : xml) : string := match e with Element t _ _ _ => t end.
Definition attrib_of (e : xml) : list (string * json) :=
  match e with Element _ a _ _ => a end.
Definition text_of (e : xml) : json := match e with Element _ _ x _ => x end.
Definition children_of (e : xml) : list xml :=
  match e with Element _ _ _ c => c end.


Definition text_node (tag : string) (text : json) : xml :=
  Element tag [] text [].

Definition tv_attrs : list (string * json) :=
  [("generator-info-name", JStr "LG Channels EPG Generator");
   ("generator-info-url", JStr "https://github.com/yourusername/lgchannels-epg");
   ("source-info-name", JStr "LG Channels");
   ("source-info-url", JStr "https://lgchannels.com/")].

(** Lines 214-226: the [channel] element of one channel. *)
Definition channel_elem (c : channel_info) : option xml :=
  if negb (truthy (id c)) then None
  else Some (Element "channel" [("id", JStr (str (id c)))] JNull
         ([text_node "display-name" (name c)]
          ++ (if truthy (logo c) then [Element "icon" [("src", logo c)] JNull []] else [])
          ++ (if truthy (description c) then [text_node "desc" (description c)] else []))).

(** [get_epg_data(channel_id)], lines 149-164. The f-string of line 163
    takes [len(programs)], which raises for a value without length. *)
Definition get_epg_data (net : network) (channel_id : json) (w : run)
    : res json * run :=
  if negb (truthy channel_id) then (Ok (JList []), w)
  else
    let epg_url := EPG_ENDPOINT +:+ "/" +:+ str channel_id in
    let '(data, w) := fetch_data net epg_url MAX_RETRIES w in
    match data with
    | JObj kv =>
        if truthy data then
          match lookup "programs" kv with
          | Some programs => (_ ← len programs; Ok programs, w)
          | None => (Ok (JList []), w)
          end
        else (Ok (JList []), w)
    | _ => (Ok (JList []), w)
    end.

(** Lines 274-281. *)
Definition category_elems (genre : json) : list xml :=
  if truthy genre then
    match genre with
    | JList l => text_node "category" <$> filter (λ g, truthy g = true) l
    | _ => [text_node "category" genre]
    end
  else [].

(** Lines 284-289; an exception here leaves the element as it is. *)
Definition icon_elems (image_url : json) : list xml :=
  let resolved :=
    if truthy image_url then
      b ← startswith_any "http" image_url;
      if negb b then urljoin BASE_URL image_url else Ok image_url
    else Ok image_url in
  match resolved with
  | Ok u => if truthy u then [Element "icon" [("src", u)] JNull []] else []
  | Raise _ => []
  end.

(** Lines 255-259: the attributes of a [programme] element. *)
Definition timed_attrib (channel_id : json) (start stop : string)
    : list (string * json) :=
  [("channel", JStr (str channel_id)); ("start", JStr start); ("stop", JStr stop)].

(** Lines 246-292: the [programme] element of one program, if any. *)
Definition programme_elem (channel_id : json) (program : json) : option xml :=
  match program with
  | JObj kv =>
      let start_time := get "startTime" kv in
      let end_time := get "endTime" kv in
      if negb (truthy start_time) || negb (truthy end_time) then None
      else
        match format_time start_time, format_time end_time with
        | Ok start, Ok stop =>
            Some (Element "programme" (timed_attrib channel_id start stop) JNull
              ((if truthy (get "title" kv) then [text_node "title" (get "title" kv)] else [])
               ++ (if truthy (get "description" kv)
                   then [text_node "desc" (get "description" kv)] else [])
               ++ category_elems (get "genre" kv)
               ++ icon_elems (get "imageUrl" kv)))
        | _, _ => None
        end
  | _ => None
  end.

(** Lines 240-295 for one channel: the elements its programs add. *)
Definition channel_programmes (net : network) (c : channel_info) (w : run)
    : list xml * run :=
  if negb (truthy (id c)) then ([], w)
  else
    match get_epg_data net (id c) w with
    | (Ok programs, w) =>
        if negb (truthy programs) then ([], w)
        else match iter programs with
             | Ok items => (omap (programme_elem (id c)) items, w)
             | Raise _ => ([], w)
             end
    | (Raise _, w) => ([], w)
    end.

(** The second loop of [generate_epg_xml], lines 234-295. *)
Fixpoint programmes (net : network) (channels : list channel_info) (w : run)
    : list xml * run :=
  match channels with
  | [] => ([], w)
  | c :: rest =>
      let '(here, w) := channel_programmes net c w in
      let '(later, w) := programmes net rest w in
      (here ++ later, w)
  end.

(** [generate_epg_xml(channels)]: the root element of the tree it
    returns. *)
Definition generate_epg_xml (net : network) (channels : list channel_info)
    (w : run) : option xml * run :=
  match channels with
  | [] => (None, w)
  | _ =>
      let '(progs, w) := programmes net channels w in
      (Some (Element "tv" tv_attrs JNull (omap channel_elem channels ++ progs)), w)
  end.

(** *** Saving, and the script *)

(** [save_playlist(content, filepath)], lines 350-365: the text written
    to the file, if any. [writable] tells whether [os.makedirs], [open]
    and [write] go through; when one raises, the function logs the error
    and returns [False]. *)
Definition save_playlist (writable : bool) (content : string) : option string :=
  if negb (truthy (JStr content)) then None
  else if writable then Some content
  else None.

(** What a run of the script comes to: the status the process ends with,
    the text written to the playlist file, the tree handed to
    [save_gzipped_xml], and the log of the network. *)
Record report := {
  status : Z;
  playlist : option string;
  guide : option xml;
  log : run
}.

(** The process ends with status 1 and nothing was handed to be saved. *)
Definition failed (w : run) : report :=
  {| status := 1; playlist := None; guide := None; log := w |}.

(** The script, lines 367-404: [main()] under its [try]. [dir_ok] is what
    [ensure_output_dir()] returns. [sys.exit(1)] ends the process with
    status 1; an exception that leaves [main] is caught on line 402 and
    ends it with status 1 as well. What the two savers return is logged
    and changes nothing else. *)
Definition main (dir_ok writable : bool) (net : network) : report :=
  if negb dir_ok then failed start
  else
    let '(channels, w) := get_channels net start in
    match channels with
    | [] => failed w
    | _ =>
        match generate_m3u_playlist channels with
        | Raise _ => failed w
        | Ok m3u_content =>
            let '(epg_tree, w) := generate_epg_xml net channels w in
            {| status := 0; playlist := save_playlist writable m3u_content;
               guide := epg_tree; log := w |}
        end
    end.

End WithLib.

End Lg.

(** ** A reference implementation of the library interface *)

(** [urllib.parse.urljoin], after the library's source (CPython 3.11). Two
    checks of the library are not rebuilt: a host written in square
    brackets is validated there as an IP literal and is refused here
    always, and the check of the host under NFKC normalization, which
    refuses no host over the code points 0..255, is left out. *)
Module UrlRef.

Definition uses_relative : list string :=
  [""; "ftp"; "http"; "gopher"; "nntp"; "imap"; "wais"; "file"; "https";
   "shttp"; "mms"; "prospero"; "rtsp"; "rtspu"; "sftp"; "svn"; "svn+ssh";
   "ws"; "wss"].

Definition uses_netloc : list string :=
  [""; "ftp"; "http"; "gopher"; "nntp"; "telnet"; "imap"; "wais"; "file";
   "mms"; "https"; "shttp"; "snews"; "prospero"; "rtsp"; "rtspu"; "rsync";
   "svn"; "svn+ssh"; "sftp"; "nfs"; "git"; "git+ssh"; "ws"; "wss"].

Definition uses_params : list string :=
  [""; "ftp"; "hdl"; "prospero"; "http"; "imap"; "https"; "shttp"; "rtsp";
   "rtspu"; "sip"; "sips"; "mms"; "sftp"; "tel"].

Definition mem (s : string) (l : list string) : bool := existsb (String.eqb s) l.

Fixpoint map_chars (f : ascii → ascii) (s : string) : string :=
  match s with
  | EmptyString => EmptyString
  | String c s' => String (f c) (map_chars f s')
  end.

Definition lower_char (c : ascii) : ascii :=
  if is_upper c then ascii_of_nat (nat_of_ascii c + 32) else c.

(** [url.lstrip(_WHATWG_C0_CONTROL_OR_SPACE)] *)
Fixpoint lstrip_c0 (s : string) : string :=
  match s with
  | EmptyString => EmptyString
  | String c s' => if (nat_of_ascii c <=? 32)%nat then lstrip_c0 s' else s
  end.

(** Tab, line feed and carriage return taken out. *)
Fixpoint remove_unsafe (s : string) : string :=
  match s with
  | EmptyString => EmptyString
  | String c s' =>
      let n := nat_of_ascii c in
      if (n =? 9)%nat || (n =? 10)%nat || (n =? 13)%nat
      then remove_unsafe s' else String c (remove_unsafe s')
  end.

(** The text before the first of [/], [?] and [#], and the text from it. *)
Fixpoint splitnetloc (s : string) : string * string :=
  match s with
  | EmptyString => (EmptyString, EmptyString)
  | String c s' =>
      if Ascii.eqb c "/" || Ascii.eqb c "?" || Ascii.eqb c "#"
      then (EmptyString, s)
      else let '(a, b) := splitnetloc s' in (String c a, b)
  end.

(** [s.split(sep)] for a one-character separator *)
Fixpoint split_on (sep : ascii) (s : string) : list string :=
  match s with
  | EmptyString => [EmptyString]
  | String c s' =>
      if Ascii.eqb c sep then EmptyString :: split_on sep s'
      else match split_on sep s' with
           | x :: l => String c x :: l
           | [] => [ch c]
           end
  end.

Record parts := {
  scheme : string; netloc : string; path : string;
  params : string; query : string; fragment : string
}.

(** [urlsplit(url, scheme)], with the parameters still in the path *)
Definition urlsplit (url dflt : string) : res parts :=
  let url := remove_unsafe (lstrip_c0 url) in
  let '(scheme, url) :=
    match cut ":" url with
    | Some ((String c0 rest) as before, after) =>
        if is_alpha c0 && all_chars scheme_char before
        then (map_chars lower_char before, after) else (dflt, url)
    | _ => (dflt, url)
    end in
  let '(netloc, url) :=
    if startswith "//" url then splitnetloc (sdrop 2 url) else (EmptyString, url) in
  if contains "[" netloc || contains "]" netloc then Raise ValueError
  else
    let '(url, fragment) :=
      match cut "#" url with Some (a, b) => (a, b) | None => (url, EmptyString) end in
    let '(url, query) :=
      match cut "?" url with Some (a, b) => (a, b) | None => (url, EmptyString) end in
    Ok {| scheme := scheme; netloc := netloc; path := url;
          params := EmptyString; query := query; fragment := fragment |}.

(** [_splitparams]: the parameters follow the first [;] of the last
    segment of the path. *)
Definition splitparams (url : string) : string * string :=
  match reverse (split_on "/" url) with
  | last :: before =>
      match cut ";" last with
      | Some (a, b) => (join "/" (reverse (a :: before)), b)
      | None => (url, EmptyString)
      end
  | [] => (url, EmptyString)
  end.

Definition urlparse (url dflt : string) : res parts :=
  p ← urlsplit url dflt;
  if mem (scheme p) uses_params && contains ";" (path p)
  then let '(u, ps) := splitparams (path p) in
       Ok {| scheme := scheme p; netloc := netloc p; path := u;
             params := ps; query := query p; fragment := fragment p |}
  else Ok p.

Definition nonempty (s : string) : bool := negb (String.eqb s EmptyString).

(** [urlunsplit], without the scheme *)
Definition unsplit_rest (p : parts) : string :=
  let url := if nonempty (params p) then path p +:+ ";" +:+ params p else path p in
  let url :=
    if nonempty (netloc p)
       || (nonempty (scheme p) && mem (scheme p) uses_netloc && negb (startswith "//" url))
    then "//" +:+ netloc p
         +:+ (if nonempty url && negb (startswith "/" url) then "/" +:+ url else url)
    else url in
  let url := if nonempty (query p) then url +:+ "?" +:+ query p else url in
  if nonempty (fragment p) then url +:+ "#" +:+ fragment p else url.

(** [urlunparse] *)
Definition urlunparse (p : parts) : string :=
  if nonempty (scheme p) then scheme p +:+ ":" +:+ unsplit_rest p else unsplit_rest p.

(** The loop over the segments, with [resolved_path] in reverse. *)
Fixpoint resolve_segments (acc : list string) (segments : list string) : list string :=
  match segments with
  | [] => reverse acc
  | seg :: rest =>
      if String.eqb seg ".." then resolve_segments (tail acc) rest
      else if String.eqb seg "." then resolve_segments acc rest
      else resolve_segments (seg :: acc) rest
  end.

(** [segments[1:-1] = filter(None, segments[1:-1])] *)
Definition drop_inner_empty (segments : list string) : list string :=
  match segments with
  | first :: rest =>
      match reverse rest with
      | final :: inner =>
          first :: filter (λ x, nonempty x = true) (reverse inner) ++ [final]
      | [] => segments
      end
  | [] => []
  end.

Definition resolved_path (bpath path : string) : string :=
  let base_parts := split_on "/" bpath in
  let base_parts :=
    if nonempty (List.last base_parts EmptyString)
    then removelast base_parts else base_parts in
  let segments :=
    if startswith "/" path then split_on "/" path
    else drop_inner_empty (base_parts ++ split_on "/" path) in
  let resolved := resolve_segments [] segments in
  let final := List.last segments EmptyString in
  let resolved :=
    if String.eqb final "." || String.eqb final ".." then resolved ++ [EmptyString]
    else resolved in
  let joined := join "/" resolved in
  if nonempty joined then joined else "/".

(** [urljoin(base, url)] after its first two tests *)
Definition url_resolve (base url : string) : res string :=
  b ← urlparse base EmptyString;
  u ← urlparse url (scheme b);
  if negb (String.eqb (scheme u) (scheme b)) || negb (mem (scheme u) uses_relative)
  then Ok url
  else if mem (scheme u) uses_netloc && nonempty (netloc u)
  then Ok (urlunparse u)
  else
    let netloc' := if mem (scheme u) uses_netloc then netloc b else netloc u in
    if negb (nonempty (path u)) && negb (nonempty (params u))
    then Ok (urlunparse {| scheme := scheme u; netloc := netloc';
                           path := path b; params := params b;
                           query := if nonempty (query u) then query u else query b;
                           fragment := fragment u |})
    else Ok (urlunparse {| scheme := scheme u; netloc := netloc';
                           path := resolved_path (path b) (path u);
                           params := params u; query := query u;
                           fragment := fragment u |}).

End UrlRef.

(** [datetime.fromisoformat] for the grammar
    [YYYY-MM-DD[*HH[:MM[:SS[.fff[fff]]]][+HH:MM[:SS[.ffffff]]]]] of Python
    3.7 to 3.10, which later versions widen. *)
Module IsoRef.

Definition digit_val (c : ascii) : option Z :=
  if is_digit c then Some (Z.of_nat (nat_of_ascii c) - 48) else None.

(** [n] decimal digits at the start of [s], and the rest. *)
Fixpoint digits (n : nat) (acc : Z) (s : string) : option (Z * string) :=
  match n with
  | O => Some (acc, s)
  | S n' =>
      match s with
      | String c s' =>
          match digit_val c with
          | Some d => digits n' (10 * acc + d) s'
          | None => None
          end
      | EmptyString => None
      end
  end.

Definition expect (c : ascii) (s : string) : option string :=
  match s with
  | String c' s' => if Ascii.eqb c c' then Some s' else None
  | EmptyString => None
  end.

(** [YYYY-MM-DD] *)
Definition parse_date (s : string) : option (Z * Z * Z * string) :=
  '(y, s) ← digits 4 0 s;
  s ← expect "-" s;
  '(m, s) ← digits 2 0 s;
  s ← expect "-" s;
  '(d, s) ← digits 2 0 s;
  Some (y, m, d, s).

(** [.fff] or [.ffffff], up to the end of [s] *)
Definition parse_fraction (s : string) : option Z :=
  match s with
  | EmptyString => Some 0
  | String c s' =>
      if Ascii.eqb c "." then
        if (String.length s' =? 3)%nat
        then '(f, _) ← digits 3 0 s'; Some (f * 1000)
        else if (String.length s' =? 6)%nat
        then '(f, _) ← digits 6 0 s'; Some f
        else None
      else None
  end.

(** [HH[:MM[:SS[.fff[fff]]]]], the whole of [s] *)
Definition parse_hh_mm_ss_ff (s : string) : option (Z * Z * Z * Z) :=
  '(h, s) ← digits 2 0 s;
  match s with
  | EmptyString => Some (h, 0, 0, 0)
  | _ =>
      s ← expect ":" s;
      '(m, s) ← digits 2 0 s;
      match s with
      | EmptyString => Some (h, m, 0, 0)
      | _ =>
          s ← expect ":" s;
          '(sec, s) ← digits 2 0 s;
          us ← parse_fraction s;
          Some (h, m, sec, us)
      end
  end.

(** The first [-] if there is one, else the first [+]. *)
Definition split_offset (s : string) : string * option (bool * string) :=
  match cut "-" s with
  | Some (a, b) => (a, Some (true, b))
  | None =>
      match cut "+" s with
      | Some (a, b) => (a, Some (false, b))
      | None => (s, None)
      end
  end.

Definition parse_offset (tz : option (bool * string)) : option (option Z) :=
  match tz with
  | None => Some None
  | Some (neg, tzstr) =>
      let n := String.length tzstr in
      if (n =? 5)%nat || (n =? 8)%nat || (n =? 15)%nat then
        '(h, m, s, us) ← parse_hh_mm_ss_ff tzstr;
        let total := ((h * 60 + m) * 60 + s) * 1000000 + us in
        Some (Some (if neg then - total else total))
      else None
  end.

Definition fromisoformat (s : string) : option datetime :=
  '(y, mo, d, rest) ← parse_date s;
  '(h, mi, sec, us, off) ←
    match rest with
    | EmptyString => Some (0, 0, 0, 0, None)
    | String _ tstr =>
        let '(timestr, tz) := split_offset tstr in
        '(h, mi, sec, us) ← parse_hh_mm_ss_ff timestr;
        off ← parse_offset tz;
        Some (h, mi, sec, us, off)
    end;
  let dt := {| year := y; month := mo; day := d; hour := h; minute := mi;
               second := sec; microsecond := us; utcoffset := off |} in
  if valid dt then Some dt else None.

End IsoRef.

(** ** udptv.py: the playlist relay cleaner *)

Module Udptv.

Definition GROUP_TITLE : string := "UDPTV Live Streams".

(** The literal text that opens the pattern [group-title=".*?"]: the
    attribute name, the equals sign and the opening double quote. *)
Definition group_open : string := "group-title=" +:+ ch dq.

(** The replacement text [group-title="UDPTV Live Streams"]. *)
Definition group_repl : string := "group-title=" +:+ quoted GROUP_TITLE.

(** The lazy body and the closing quote of the pattern, at the start of
    [s]: the number of characters before the first double quote, provided
    no line feed comes first (the dot of a Python regular expression
    matches every character but the line feed). *)
Fixpoint close_quote (s : string) : option nat :=
  match s with
  | EmptyString => None
  | String c s' =>
      if Ascii.eqb c dq then Some O
      else if Ascii.eqb c lf then None
      else S <$> close_quote s'
  end.

(** The length of the match of [group-title=".*?"] at the start of [s]. *)
Definition group_match (s : string) : option nat :=
  if startswith group_open s
  then (fun d => String.length group_open + d + 1)%nat
         <$> close_quote (sdrop (String.length group_open) s)
  else None.

(** [re.sub(r'group-title=".*?"', group_repl, s)]: the leftmost matches,
    without overlap, each replaced. [skip] counts the characters of the
    current match that are still to be passed over. *)
Fixpoint re_sub_go (skip : nat) (s : string) : string :=
  match s with
  | EmptyString => EmptyString
  | String c s' =>
      match skip with
      | S k => re_sub_go k s'
      | O =>
          match group_match s with
          | Some n => group_repl +:+ re_sub_go (n - 1) s'
          | None => String c (re_sub_go 0 s')
          end
      end
  end.

Definition re_sub (s : string) : string := re_sub_go 0 s.

(** [re.findall(r'group-title="(.*?)"', s)]: the quoted group labels of a
    line, with the same scan as [re_sub]. *)
Fixpoint group_labels_go (skip : nat) (s : string) : list string :=
  match s with
  | EmptyString => []
  | String c s' =>
      match skip with
      | S k => group_labels_go k s'
      | O =>
          match group_match s with
          | Some n =>
              String.substring (String.length group_open)
                (n - String.length group_open - 1) s
              :: group_labels_go (n - 1) s'
          | None => group_labels_go 0 s'
          end
      end
  end.

Definition group_labels (s : string) : list string := group_labels_go 0 s.

(** The text put in place of [#EXTINF:] when a line has no group label. *)
Definition extinf_ins : string :=
  "#EXTINF:-1 group-title=" +:+ quoted GROUP_TITLE +:+ ",".

(** [line.replace("#EXTINF:", extinf_ins)] *)
Definition insert_label (line : string) : string :=
  replace "#EXTINF:" extinf_ins line.

(** Lines 33-36: the rewriting of one [#EXTINF] line. *)
Definition standardize (line : string) : string :=
  if contains "group-title=" line then re_sub line else insert_label line.

(** [line.startswith(("#EXTM3U", "#EXTGRP", "#EXTVLCOPT", "#", "Last Updated"))] *)
Definition is_dropped (line : string) : bool :=
  existsb (fun p => startswith p line)
    ["#EXTM3U"; "#EXTGRP"; "#EXTVLCOPT"; "#"; "Last Updated"].

(** The state of the loop of [clean_playlist]. *)
Record cleaner := {
  idx : nat;
  cleaned : list string;
  total_channels : nat
}.

(** One turn of the [while] loop, entered with [i < len(lines)]. *)
Definition clean_step (lines : list string) (st : cleaner) : cleaner :=
  let i := idx st in
  let line := strip (default EmptyString (lines !! i)) in
  if startswith "#EXTINF" line then
    let out := cleaned st ++ [standardize line] in
    match lines !! S i with
    | Some next =>
        if negb (startswith "#" next)
        then {| idx := S (S i);
                cleaned := out ++ [strip next];
                total_channels := S (total_channels st) |}
        else {| idx := S i; cleaned := out; total_channels := total_channels st |}
    | None => {| idx := S i; cleaned := out; total_channels := total_channels st |}
    end
  else if negb (is_dropped line) then
    {| idx := S i; cleaned := cleaned st ++ [line];
       total_channels := total_channels st |}
  else
    {| idx := S i; cleaned := cleaned st; total_channels := total_channels st |}.

(** [while i < len(lines)]; every turn advances [i], so [length lines]
    turns are enough. *)
Fixpoint clean_loop (fuel : nat) (lines : list string) (st : cleaner) : cleaner :=
  match fuel with
  | O => st
  | S fuel' =>
      if (idx st <? length lines)%nat
      then clean_loop fuel' lines (clean_step lines st)
      else st
  end.

(** [clean_playlist(lines)]: the cleaned lines it returns, and the channel
    total it prints. *)
Definition clean_playlist (lines : list string) : list string * nat :=
  let st := clean_loop (length lines) lines
              {| idx := 0; cleaned := []; total_channels := 0 |} in
  (cleaned st, total_channels st).

(** A line whose first visible character is [#] has no white space before
    it. The pairing test of line 41 reads the raw line, the other tests
    the stripped one; on such lines they agree. *)
Definition no_hidden_hash (line : string) : bool :=
  implb (startswith "#" (strip line)) (startswith "#" line).

(** The same walk by recursion on the lines still to be read; see
    [clean_playlist_lines]. *)
Fixpoint clean_lines (lines : list string) : list string * nat :=
  match lines with
  | [] => ([], O)
  | raw :: rest =>
      let line := strip raw in
      if startswith "#EXTINF" line then
        match rest with
        | next :: rest' =>
            if negb (startswith "#" next)
            then let r := clean_lines rest' in
                 (standardize line :: strip next :: r.1, S r.2)
            else let r := clean_lines rest in (standardize line :: r.1, r.2)
        | [] => ([standardize line], O)
        end
      else if negb (is_dropped line)
      then let r := clean_lines rest in (line :: r.1, r.2)
      else clean_lines rest
  end.

(** *** Download and save *)

Definition EPG_URL : string := "https://zipline.nocn.ddnsfree.com/u/merged2_epg.xml.gz".

Definition cr : ascii := ascii_of_nat 13.

(** Characters at which [str.splitlines] ends a line, below code point
    256: line feed, vertical tab, form feed, carriage return, the file,
    group and record separators, and the next-line control. *)
Definition is_linebreak (c : ascii) : bool :=
  let n := nat_of_ascii c in
  ((10 <=? n)%nat && (n <=? 13)%nat) || ((28 <=? n)%nat && (n <=? 30)%nat)
  || (n =? 133)%nat.

(** [s.splitlines()]: the lines without their ends; a line feed right
    after a carriage return belongs to the same line end ([skip_lf]), and
    the end of the text ends a line only when the line is not empty. *)
Fixpoint splitlines_go (skip_lf : bool) (s : string) : list string :=
  match s with
  | EmptyString => []
  | String c s' =>
      if skip_lf && Ascii.eqb c lf then splitlines_go false s'
      else if is_linebreak c then EmptyString :: splitlines_go (Ascii.eqb c cr) s'
      else match splitlines_go false s' with
           | [] => [ch c]
           | l :: ls => String c l :: ls
           end
  end.

Definition splitlines (s : string) : list string := splitlines_go false s.

(** A text without a line end in it. *)
Definition no_break (s : string) : bool := all_chars (λ c, negb (is_linebreak c)) s.

(** [download_playlist()]. [response] is the text of the answer to the
    request, absent when [requests.get] or [raise_for_status] raises a
    [RequestException]; the script then exits with status 1, which is
    [None] here. *)
Definition download_playlist (response : option string) : option (list string) :=
  splitlines <$> response.

Section WithLib.
Context `{PyLib}.

(** [now.strftime("%Y-%m-%d %H:%M:%S UTC")] *)
Definition strftime_now (now : datetime) : string :=
  strftime_Y (year now) +:+ "-" +:+ pad2 (month now) +:+ "-" +:+ pad2 (day now)
  +:+ " " +:+ pad2 (hour now) +:+ ":" +:+ pad2 (minute now) +:+ ":"
  +:+ pad2 (second now) +:+ " UTC".

(** The two lines of the header of line 57-59. *)
Definition header_tvg : string := "#EXTM3U url-tvg=" +:+ quoted EPG_URL.

Definition header_updated (now : datetime) : string :=
  "# Last Updated: " +:+ strftime_now now.

(** [save_playlist(content)]: the text written to the output file, [now]
    being what [datetime.now()] returns. *)
Definition save_playlist (now : datetime) (content : list string) : string :=
  (header_tvg +:+ ch lf +:+ header_updated now +:+ ch lf) +:+ join (ch lf) content.

(** The script, lines 64-74: the text it writes, if it gets that far. *)
Definition main (response : option string) (now : datetime) : option string :=
  playlist_lines ← download_playlist response;
  Some (save_playlist now (clean_playlist playlist_lines).1).

End WithLib.

End Udptv.


(** ** Sample data *)

Module Sample.
Import Lg.

Definition channel : channel_info :=
  {| id := JStr "ch1"; name := JStr "One"; number := JStr "0";
     logo := JStr EmptyString; stream_url := JStr "https://cdn.example.com/one.m3u8";
     description := JStr EmptyString; categories := JList [] |}.

(** A program whose start does not parse. *)
Definition program : json :=
  JObj [("startTime", JStr "not-a-date");
        ("endTime", JStr "2024-01-01T01:00:00Z");
        ("title", JStr "News")].

(** A network that answers every request with the guide of one program. *)
Definition net : network :=
  λ _, Response (JObj [("programs", JList [program])]).

Definition programme : xml :=
  Element "programme"
    (timed_attrib (JStr "ch1") EmptyString "20240101010000 +0000") JNull
    [text_node "title" (JStr "News")].

Definition guide : xml :=
  Element "tv" tv_attrs JNull
    [Element "channel" [("id", JStr "ch1")] JNull [text_node "display-name" (JStr "One")];
     programme].

End Sample.

(** * Properties *)

(** ** Facts about the string primitives *)

Section PyStrFacts.

Lemma app_assoc_s (a b c : string) : (a +:+ b) +:+ c = a +:+ (b +:+ c).
Proof. induction a as [|x a IH]; simpl; [done | by rewrite IH]. Qed.

Lemma app_empty_r (a : string) : a +:+ EmptyString = a.
Proof. induction a as [|x a IH]; simpl; [done | by rewrite IH]. Qed.

Lemma length_app_s (a b : string) :
  String.length (a +:+ b) = (String.length a + String.length b)%nat.
Proof. induction a as [|x a IH]; simpl; [done | by rewrite IH]. Qed.

Lemma startswith_app (p s : string) : startswith p (p +:+ s) = true.
Proof.
induction p as [|a p IH]; simpl; [done |].
by rewrite Ascii.eqb_refl.
Qed.

Lemma startswith_inv (p s : string) :
  startswith p s = true → s = p +:+ sdrop (String.length p) s.
Proof.
revert s; induction p as [|a p IH]; intros [|b s]; simpl; try done.
destruct (Ascii.eqb a b) eqn:E; [|done].
apply Ascii.eqb_eq in E as ->. intros H. by rewrite <- (IH s H).
Qed.

Lemma sdrop_app (p s : string) : sdrop (String.length p) (p +:+ s) = s.
Proof. induction p as [|a p IH]; simpl; done. Qed.

Lemma sdrop_empty (n : nat) : sdrop n EmptyString = EmptyString.
Proof. by destruct n. Qed.

Lemma sdrop_sdrop (n m : nat) (s : string) : sdrop n (sdrop m s) = sdrop (m + n) s.
Proof.
revert s; induction m as [|m IH]; intros s; simpl; [done |].
destruct s; [by rewrite sdrop_empty | apply IH].
Qed.

Lemma length_sdrop (n : nat) (s : string) :
  String.length (sdrop n s) = (String.length s - n)%nat.
Proof.
revert s; induction n as [|n IH]; intros [|c s]; simpl; try done.
Qed.

Lemma contains_tail (sub : string) (c : ascii) (s : string) :
  contains sub (String c s) = false → contains sub s = false.
Proof. simpl. by intros [_ ?]%orb_false_iff. Qed.

Lemma contains_head (sub s : string) :
  contains sub s = false → startswith sub s = false.
Proof. destruct s; simpl; by intros [? _]%orb_false_iff. Qed.

Lemma contains_sdrop (sub : string) (n : nat) (s : string) :
  contains sub s = false → contains sub (sdrop n s) = false.
Proof.
revert s; induction n as [|n IH]; intros [|c s] H; simpl; try done.
apply IH. by apply contains_tail in H.
Qed.

Lemma startswith_trans (p q s : string) :
  startswith p q = true → startswith q s = true → startswith p s = true.
Proof.
revert q s; induction p as [|a p IH]; intros [|b q] [|c s]; simpl; try done.
destruct (Ascii.eqb a b) eqn:E1; [|done].
destruct (Ascii.eqb b c) eqn:E2; [|done].
apply Ascii.eqb_eq in E1 as ->. rewrite E2. apply IH.
Qed.

(** Passing over [k] characters and replacing from there. *)
Lemma replace_go_skip (old new : string) (k : nat) (s : string) :
  replace_go old new k s = replace old new (sdrop k s).
Proof.
revert k; induction s as [|c s IH]; intros [|k]; simpl; done.
Qed.

Lemma replace_hit (old new s : string) :
  old ≠ EmptyString → startswith old s = true →
  replace old new s = new +:+ replace old new (sdrop (String.length old) s).
Proof.
intros Hne H. destruct s as [|c s].
{ destruct old; done. }
unfold replace at 1. simpl replace_go. rewrite H.
rewrite replace_go_skip. destruct old as [|a old]; [done |].
simpl. by rewrite Nat.sub_0_r.
Qed.

Lemma replace_miss (old new : string) (c : ascii) (s : string) :
  startswith old (String c s) = false →
  replace old new (String c s) = String c (replace old new s).
Proof. intros H. unfold replace. simpl replace_go. by rewrite H. Qed.

Lemma lstrip_fixed (s : string) : head_ok s = true → lstrip s = s.
Proof. destruct s as [|c s]; simpl; [done |]. by destruct (isspace c). Qed.

Lemma head_ok_lstrip (s : string) : head_ok (lstrip s) = true.
Proof.
induction s as [|c s IH]; simpl; [done |].
destruct (isspace c) eqn:E; [done |]. simpl. by rewrite E.
Qed.

Lemma rstrip_fixed (s : string) : tail_ok s = true → rstrip s = s.
Proof.
induction s as [|c s IH]; [done |]. simpl.
destruct s as [|d s].
- simpl. by destruct (isspace c).
- intros H. by rewrite (IH H).
Qed.

Lemma tail_ok_rstrip (s : string) : tail_ok (rstrip s) = true.
Proof.
induction s as [|c s IH]; [done |]. simpl.
destruct (rstrip s) as [|d r].
- destruct (isspace c) eqn:E; simpl; [done | by rewrite E].
- exact IH.
Qed.

Lemma head_ok_rstrip (s : string) : head_ok s = true → head_ok (rstrip s) = true.
Proof.
destruct s as [|c s]; [done |]. cbn [head_ok rstrip]. intros H.
destruct (rstrip s); [|exact H].
apply negb_true_iff in H. rewrite H. cbn. by rewrite H.
Qed.

Lemma head_ok_strip (s : string) : head_ok (strip s) = true.
Proof. apply head_ok_rstrip, head_ok_lstrip. Qed.

Lemma tail_ok_strip (s : string) : tail_ok (strip s) = true.
Proof. apply tail_ok_rstrip. Qed.

Lemma strip_fixed (s : string) :
  head_ok s = true → tail_ok s = true → strip s = s.
Proof. intros H1 H2. unfold strip. by rewrite lstrip_fixed, rstrip_fixed. Qed.

Lemma strip_idempotent (s : string) : strip (strip s) = strip s.
Proof. apply strip_fixed; [apply head_ok_strip | apply tail_ok_strip]. Qed.

Lemma tail_ok_app (a b : string) :
  tail_ok (a +:+ b) = match b with EmptyString => tail_ok a | _ => tail_ok b end.
Proof.
induction a as [|c a IH]; simpl.
- by destruct b.
- destruct a as [|d a]; simpl in *.
  + by destruct b.
  + exact IH.
Qed.

Lemma tail_ok_sdrop (n : nat) (s : string) :
  tail_ok s = true → tail_ok (sdrop n s) = true.
Proof.
revert s; induction n as [|n IH]; intros [|c s]; simpl; try done.
destruct s as [|d s]; [by destruct n | apply IH].
Qed.

End PyStrFacts.

(** ** Facts about the relay cleaner *)

Section UdptvFacts.
Import Udptv.

Lemma re_sub_go_skip (k : nat) (s : string) :
  re_sub_go k s = re_sub (sdrop k s).
Proof. revert k; induction s as [|c s IH]; intros [|k]; simpl; done. Qed.

Lemma group_match_head (c : ascii) (s : string) (n : nat) :
  group_match (String c s) = Some n → c = "g"%char.
Proof.
unfold group_match. simpl startswith.
destruct (Ascii.eqb "g" c) eqn:E; [|done].
by apply Ascii.eqb_eq in E.
Qed.

Lemma group_match_pos (s : string) (n : nat) :
  group_match s = Some n → (14 ≤ n)%nat.
Proof.
unfold group_match. destruct (startswith group_open s); [|done].
destruct (close_quote _); simpl; [|done].
intros [= <-]. lia.
Qed.

Lemma re_sub_hit (s : string) (n : nat) :
  group_match s = Some n → re_sub s = group_repl +:+ re_sub (sdrop n s).
Proof.
intros H. pose proof (group_match_pos _ _ H) as Hn.
destruct s as [|c s]; [done |].
unfold re_sub at 1. simpl re_sub_go. rewrite H, re_sub_go_skip.
destruct n as [|n]; [lia |]. simpl. by rewrite Nat.sub_0_r.
Qed.

Lemma re_sub_miss (c : ascii) (s : string) :
  group_match (String c s) = None → re_sub (String c s) = String c (re_sub s).
Proof. intros H. unfold re_sub. simpl re_sub_go. by rewrite H. Qed.

Lemma group_match_not_g (c : ascii) (s : string) :
  c ≠ "g"%char → group_match (String c s) = None.
Proof.
intros Hc. destruct (group_match (String c s)) eqn:E; [|done].
by apply group_match_head in E.
Qed.

(** A text without the letter g survives the substitution where it
    stands: every match begins with that letter. *)
Lemma re_sub_keeps_prefix (w s : string) :
  lacks "g" w = true → startswith w s = true →
  re_sub s = w +:+ re_sub (sdrop (String.length w) s).
Proof.
revert s; induction w as [|a w IH]; intros s Hw Hs; [done |].
destruct s as [|c s]; [done |]. simpl in Hw, Hs.
destruct (Ascii.eqb a c) eqn:E; [|done]. apply Ascii.eqb_eq in E as <-.
apply andb_true_iff in Hw as [Ha Hw].
rewrite re_sub_miss.
- simpl. by rewrite (IH s).
- apply group_match_not_g. intros ->. by rewrite Ascii.eqb_refl in Ha.
Qed.

Lemma re_sub_prefix_iff (w s : string) :
  lacks "g" w = true → startswith w (re_sub s) = startswith w s.
Proof.
revert s; induction w as [|a w IH]; intros s Hw; [done |].
simpl in Hw. apply andb_true_iff in Hw as [Ha Hw].
destruct s as [|c s]; [done |].
destruct (group_match (String c s)) eqn:E.
- pose proof (group_match_head _ _ _ E) as ->.
  rewrite (re_sub_hit _ _ E). simpl.
  destruct (Ascii.eqb a "g") eqn:Eg; done.
- rewrite (re_sub_miss _ _ E). simpl.
  destruct (Ascii.eqb a c); [by apply IH | done].
Qed.

Lemma group_open_close (r : string) :
  close_quote (group_open +:+ r) = Some 12%nat.
Proof. reflexivity. Qed.

(** No closing quote ahead: none after the substitution either. *)
Lemma close_quote_re_sub (t : string) :
  close_quote t = None → close_quote (re_sub t) = None.
Proof.
induction t as [|c t IH]; [done |].
intros H. destruct (group_match (String c t)) eqn:E.
- unfold group_match in E.
  destruct (startswith group_open (String c t)) eqn:Es; [|done].
  apply startswith_inv in Es. rewrite Es, group_open_close in H. done.
- rewrite (re_sub_miss _ _ E). simpl in *.
  destruct (Ascii.eqb c dq); [done |].
  destruct (Ascii.eqb c lf); [done |].
  destruct (close_quote t); [done |]. by rewrite IH.
Qed.

Lemma group_match_repl (x : string) :
  group_match (group_repl +:+ x) = Some (String.length group_repl).
Proof. reflexivity. Qed.

Lemma re_sub_repl (x : string) :
  re_sub (group_repl +:+ x) = group_repl +:+ re_sub x.
Proof.
rewrite (re_sub_hit _ _ (group_match_repl x)). by rewrite sdrop_app.
Qed.

(** The head of a text matches after the substitution exactly when it
    matched before. *)
Lemma group_match_re_sub_None (s : string) :
  group_match s = None → group_match (re_sub s) = None.
Proof.
intros H. unfold group_match in *.
change group_open with (String "g" (sdrop 1 group_open)) at 1.
destruct s as [|c s]; [done |].
assert (Hm : group_match (String c s) = None) by exact H.
rewrite (re_sub_miss _ _ Hm).
change (startswith (String "g" (sdrop 1 group_open)) (String c (re_sub s)))
  with (if Ascii.eqb "g" c then startswith (sdrop 1 group_open) (re_sub s) else false).
destruct (Ascii.eqb "g" c) eqn:Eg; [|done].
rewrite re_sub_prefix_iff by reflexivity.
destruct (startswith (sdrop 1 group_open) s) eqn:Es; [|done].
apply Ascii.eqb_eq in Eg as <-.
assert (Hs : startswith group_open (String "g" s) = true) by exact Es.
rewrite Hs in H.
rewrite (re_sub_keeps_prefix (sdrop 1 group_open) s eq_refl Es).
change (sdrop (String.length group_open)
          (String "g" (sdrop 1 group_open +:+ re_sub (sdrop (String.length (sdrop 1 group_open)) s))))
  with (sdrop (String.length (sdrop 1 group_open))
          (sdrop 1 group_open +:+ re_sub (sdrop (String.length (sdrop 1 group_open)) s))).
rewrite sdrop_app.
change (sdrop (String.length group_open) (String "g" s))
  with (sdrop (String.length (sdrop 1 group_open)) s) in H.
destruct (close_quote (sdrop _ s)) eqn:Ec; [done |].
by rewrite (close_quote_re_sub _ Ec).
Qed.

Theorem re_sub_idempotent (s : string) : re_sub (re_sub s) = re_sub s.
Proof.
remember (String.length s) as m eqn:Hm.
revert s Hm; induction m as [m IH] using lt_wf_ind; intros s ->.
destruct s as [|c s]; [done |].
destruct (group_match (String c s)) eqn:E.
- rewrite (re_sub_hit _ _ E), re_sub_repl. f_equal.
  apply (IH (String.length (sdrop n (String c s)))); [|done].
  pose proof (group_match_pos _ _ E). rewrite length_sdrop. simpl. lia.
- pose proof (group_match_re_sub_None _ E) as E'.
  rewrite (re_sub_miss _ _ E) in *.
  rewrite (re_sub_miss _ _ E'). f_equal.
  apply (IH (String.length s)); [simpl; lia | done].
Qed.

End UdptvFacts.

Section UdptvLabels.
Import Udptv.

Lemma group_labels_go_skip (k : nat) (s : string) :
  group_labels_go k s = group_labels (sdrop k s).
Proof. revert k; induction s as [|c s IH]; intros [|k]; simpl; done. Qed.

Lemma group_labels_hit (s : string) (n : nat) :
  group_match s = Some n →
  group_labels s =
    String.substring (String.length group_open) (n - String.length group_open - 1) s
    :: group_labels (sdrop n s).
Proof.
intros H. pose proof (group_match_pos _ _ H) as Hn.
destruct s as [|c s]; [done |].
unfold group_labels at 1. simpl group_labels_go. rewrite H, group_labels_go_skip.
destruct n as [|n]; [lia |]. simpl sdrop. by rewrite Nat.sub_0_r.
Qed.

Lemma group_labels_miss (c : ascii) (s : string) :
  group_match (String c s) = None → group_labels (String c s) = group_labels s.
Proof. intros H. unfold group_labels. simpl group_labels_go. by rewrite H. Qed.

Lemma group_labels_repl (x : string) :
  group_labels (group_repl +:+ x) = GROUP_TITLE :: group_labels x.
Proof.
rewrite (group_labels_hit _ _ (group_match_repl x)). by rewrite sdrop_app.
Qed.

(** After the substitution a line has as many quoted group labels as
    before, each the standard one. *)
Lemma group_labels_re_sub (s : string) :
  group_labels (re_sub s) = (λ _, GROUP_TITLE) <$> group_labels s.
Proof.
remember (String.length s) as m eqn:Hm.
revert s Hm; induction m as [m IH] using lt_wf_ind; intros s ->.
destruct s as [|c s]; [done |].
destruct (group_match (String c s)) eqn:E.
- rewrite (re_sub_hit _ _ E), group_labels_repl, (group_labels_hit _ _ E).
  rewrite fmap_cons. f_equal.
  apply (IH (String.length (sdrop n (String c s)))); [|done].
  pose proof (group_match_pos _ _ E). rewrite length_sdrop. simpl. lia.
- pose proof (group_match_re_sub_None _ E) as E'.
  rewrite (re_sub_miss _ _ E) in *.
  rewrite (group_labels_miss _ _ E'), (group_labels_miss _ _ E).
  apply (IH (String.length s)); [simpl; lia | done].
Qed.

Lemma group_match_attr (s : string) (n : nat) :
  group_match s = Some n → startswith "group-title=" s = true.
Proof.
unfold group_match. destruct (startswith group_open s) eqn:E; [|done].
intros _. by apply (startswith_trans _ group_open).
Qed.

Lemma contains_re_sub (s : string) :
  contains "group-title=" s = true → contains "group-title=" (re_sub s) = true.
Proof.
induction s as [|c s IH]; [done |]. intros H.
destruct (group_match (String c s)) eqn:E.
- by rewrite (re_sub_hit _ _ E).
- rewrite (re_sub_miss _ _ E).
  change (contains "group-title=" (String c s))
    with (startswith "group-title=" (String c s) || contains "group-title=" s) in H.
  change (contains "group-title=" (String c (re_sub s)))
    with (startswith "group-title=" (String c (re_sub s))
          || contains "group-title=" (re_sub s)).
  apply orb_true_iff in H as [H|H].
  + apply orb_true_iff; left.
    change (startswith "group-title=" (String c s))
      with (if Ascii.eqb "g" c then startswith "roup-title=" s else false) in H.
    change (startswith "group-title=" (String c (re_sub s)))
      with (if Ascii.eqb "g" c then startswith "roup-title=" (re_sub s) else false).
    destruct (Ascii.eqb "g" c); [|done].
    by rewrite re_sub_prefix_iff.
  + apply orb_true_iff; right. by apply IH.
Qed.

Lemma insert_label_hit (s : string) :
  startswith "#EXTINF:" s = true →
  insert_label s = extinf_ins +:+ insert_label (sdrop 8 s).
Proof. intros H. unfold insert_label. by rewrite replace_hit. Qed.

Lemma insert_label_miss (c : ascii) (s : string) :
  startswith "#EXTINF:" (String c s) = false →
  insert_label (String c s) = String c (insert_label s).
Proof. apply replace_miss. Qed.

Lemma startswith_hash (p : string) (c : ascii) (s : string) :
  startswith (String "#" p) (String c s) = true → c = "#"%char.
Proof.
simpl. destruct (Ascii.eqb "#" c) eqn:E; [|done].
by apply Ascii.eqb_eq in E.
Qed.

(** Inserting the label leaves the head of the line in place, as far as
    it has no [#]. *)
Lemma insert_label_prefix_iff (w s : string) :
  lacks "#" w = true → startswith w (insert_label s) = startswith w s.
Proof.
revert s; induction w as [|a w IH]; intros s Hw; [done |].
simpl in Hw. apply andb_true_iff in Hw as [Ha Hw].
destruct s as [|c s]; [done |].
destruct (startswith "#EXTINF:" (String c s)) eqn:E.
- pose proof (startswith_hash _ _ _ E) as ->.
  rewrite (insert_label_hit _ E). simpl.
  destruct (Ascii.eqb a "#") eqn:Eg; done.
- rewrite (insert_label_miss _ _ E). simpl.
  destruct (Ascii.eqb a c); [by apply IH | done].
Qed.

Lemma re_sub_ins (y : string) : re_sub (extinf_ins +:+ y) = extinf_ins +:+ re_sub y.
Proof.
change (extinf_ins +:+ y) with ("#EXTINF:-1 " +:+ (group_repl +:+ String "," y)).
rewrite (re_sub_keeps_prefix "#EXTINF:-1 ") by (reflexivity || apply startswith_app).
rewrite sdrop_app, re_sub_repl, re_sub_miss by reflexivity.
reflexivity.
Qed.

Lemma group_labels_ins (y : string) :
  group_labels (extinf_ins +:+ y) = GROUP_TITLE :: group_labels y.
Proof. reflexivity. Qed.

Lemma insert_label_no_match (s : string) :
  contains "group-title=" s = false → group_match (insert_label s) = None.
Proof.
intros H%contains_head.
destruct (group_match (insert_label s)) eqn:E; [|done].
apply group_match_attr in E.
rewrite insert_label_prefix_iff in E by reflexivity. congruence.
Qed.

Lemma re_sub_insert_label (s : string) :
  contains "group-title=" s = false → re_sub (insert_label s) = insert_label s.
Proof.
remember (String.length s) as m eqn:Hm.
revert s Hm; induction m as [m IH] using lt_wf_ind; intros s -> H.
destruct s as [|c s]; [done |].
destruct (startswith "#EXTINF:" (String c s)) eqn:E.
- rewrite (insert_label_hit _ E), re_sub_ins. f_equal.
  apply (IH (String.length (sdrop 8 (String c s)))); [| done | by apply contains_sdrop].
  rewrite length_sdrop. simpl. lia.
- pose proof (insert_label_no_match _ H) as Hm.
  rewrite (insert_label_miss _ _ E) in *.
  rewrite (re_sub_miss _ _ Hm). f_equal.
  apply (IH (String.length s)); [simpl; lia | done | by apply contains_tail in H].
Qed.

Lemma group_labels_insert_label (s : string) :
  contains "group-title=" s = false →
  Forall (eq GROUP_TITLE) (group_labels (insert_label s)).
Proof.
remember (String.length s) as m eqn:Hm.
revert s Hm; induction m as [m IH] using lt_wf_ind; intros s -> H.
destruct s as [|c s]; [by constructor |].
destruct (startswith "#EXTINF:" (String c s)) eqn:E.
- rewrite (insert_label_hit _ E), group_labels_ins. constructor; [done |].
  apply (IH (String.length (sdrop 8 (String c s)))); [| done | by apply contains_sdrop].
  rewrite length_sdrop. simpl. lia.
- pose proof (insert_label_no_match _ H) as Hm.
  rewrite (insert_label_miss _ _ E) in *.
  rewrite (group_labels_miss _ _ Hm).
  apply (IH (String.length s)); [simpl; lia | done | by apply contains_tail in H].
Qed.

Lemma insert_label_fixed_or_labelled (s : string) :
  insert_label s = s ∨ contains "group-title=" (insert_label s) = true.
Proof.
induction s as [|c s IH]; [by left |].
destruct (startswith "#EXTINF:" (String c s)) eqn:E.
- right. by rewrite (insert_label_hit _ E).
- rewrite (insert_label_miss _ _ E). destruct IH as [-> | IH]; [by left | right].
  change (contains "group-title=" (String c (insert_label s)))
    with (startswith "group-title=" (String c (insert_label s))
          || contains "group-title=" (insert_label s)).
  rewrite IH. apply orb_true_r.
Qed.

Lemma standardize_labelled (l : string) :
  contains "group-title=" l = true → standardize l = re_sub l.
Proof. unfold standardize. by intros ->. Qed.

Lemma standardize_unlabelled (l : string) :
  contains "group-title=" l = false → standardize l = insert_label l.
Proof. unfold standardize. by intros ->. Qed.

(** Rewriting a metadata line twice is rewriting it once. *)
Lemma standardize_idempotent (l : string) :
  standardize (standardize l) = standardize l.
Proof.
destruct (contains "group-title=" l) eqn:E.
- rewrite (standardize_labelled l E).
  rewrite standardize_labelled by by apply contains_re_sub.
  apply re_sub_idempotent.
- rewrite (standardize_unlabelled l E).
  destruct (insert_label_fixed_or_labelled l) as [Hl | Hl].
  + rewrite Hl, (standardize_unlabelled l E). exact Hl.
  + rewrite (standardize_labelled _ Hl). by apply re_sub_insert_label.
Qed.

(** Every quoted group label of a rewritten line is the standard one. *)
Lemma standardize_labels (l : string) :
  Forall (eq GROUP_TITLE) (group_labels (standardize l)).
Proof.
destruct (contains "group-title=" l) eqn:E.
- rewrite (standardize_labelled l E), group_labels_re_sub.
  apply Forall_fmap, Forall_true. done.
- rewrite (standardize_unlabelled l E). by apply group_labels_insert_label.
Qed.

End UdptvLabels.

Section UdptvPlaylist.
Import Udptv.

(** The five ways a line is treated, as equations of [clean_lines]. *)
Lemma clean_lines_pair (raw next : string) (rest : list string) :
  startswith "#EXTINF" (strip raw) = true → startswith "#" next = false →
  clean_lines (raw :: next :: rest) =
    (standardize (strip raw) :: strip next :: (clean_lines rest).1,
     S (clean_lines rest).2).
Proof. intros H1 H2. cbn [clean_lines]. by rewrite H1, H2. Qed.

Lemma clean_lines_alone (raw next : string) (rest : list string) :
  startswith "#EXTINF" (strip raw) = true → startswith "#" next = true →
  clean_lines (raw :: next :: rest) =
    (standardize (strip raw) :: (clean_lines (next :: rest)).1,
     (clean_lines (next :: rest)).2).
Proof. intros H1 H2. cbn [clean_lines]. by rewrite H1, H2. Qed.

Lemma clean_lines_last (raw : string) :
  startswith "#EXTINF" (strip raw) = true →
  clean_lines [raw] = ([standardize (strip raw)], O).
Proof. intros H1. cbn [clean_lines]. by rewrite H1. Qed.

Lemma clean_lines_keep (raw : string) (rest : list string) :
  startswith "#EXTINF" (strip raw) = false → is_dropped (strip raw) = false →
  clean_lines (raw :: rest) = (strip raw :: (clean_lines rest).1, (clean_lines rest).2).
Proof. intros H1 H2. cbn [clean_lines]. by rewrite H1, H2. Qed.

Lemma clean_lines_drop (raw : string) (rest : list string) :
  startswith "#EXTINF" (strip raw) = false → is_dropped (strip raw) = true →
  clean_lines (raw :: rest) = clean_lines rest.
Proof. intros H1 H2. cbn [clean_lines]. by rewrite H1, H2. Qed.

Local Ltac use_loop IH :=
  match goal with
  | |- context [clean_loop _ _ ?s] =>
      let H1 := fresh in let H2 := fresh in
      destruct (IH s) as [H1 H2];
      [cbn [idx]; lia | rewrite H1, H2; clear H1 H2; cbn [idx cleaned total_channels]]
  end.

(** The loop of [clean_playlist], entered at index [idx st], appends what
    the recursion on the remaining lines produces. *)
Lemma clean_loop_lines (fuel : nat) (lines : list string) (st : cleaner) :
  (length lines - idx st ≤ fuel)%nat →
  let r := clean_lines (drop (idx st) lines) in
  cleaned (clean_loop fuel lines st) = cleaned st ++ r.1 ∧
  total_channels (clean_loop fuel lines st) = (total_channels st + r.2)%nat.
Proof.
revert st; induction fuel as [|fuel IH]; intros st Hfuel; cbn [clean_loop].
- rewrite drop_ge by lia. cbn. by rewrite app_nil_r, Nat.add_0_r.
- destruct (Nat.ltb_spec (idx st) (length lines)) as [Hlt | Hge].
  2: { rewrite drop_ge by lia. cbn. by rewrite app_nil_r, Nat.add_0_r. }
  destruct (lookup_lt_is_Some_2 lines (idx st) Hlt) as [raw Hraw].
  rewrite (drop_S _ _ _ Hraw).
  unfold clean_step. rewrite Hraw. cbn [default from_option id].
  destruct (startswith "#EXTINF" (strip raw)) eqn:Ext.
  + destruct (lines !! S (idx st)) as [next|] eqn:Hnext.
    * rewrite (drop_S _ _ _ Hnext).
      destruct (startswith "#" next) eqn:Hhash; cbn [negb].
      -- rewrite (clean_lines_alone _ _ _ Ext Hhash). use_loop IH.
         rewrite (drop_S _ _ _ Hnext), <- app_assoc. done.
      -- rewrite (clean_lines_pair _ _ _ Ext Hhash). use_loop IH.
         rewrite <- !app_assoc. split; [done | cbn [snd]; lia].
    * apply lookup_ge_None in Hnext. rewrite (drop_ge _ (S _)) by lia.
      rewrite (clean_lines_last _ Ext). use_loop IH.
      rewrite drop_ge by lia. cbn. by rewrite app_nil_r.
  + destruct (is_dropped (strip raw)) eqn:Hd; cbn [negb].
    * rewrite (clean_lines_drop _ _ Ext Hd). by use_loop IH.
    * rewrite (clean_lines_keep _ _ Ext Hd). use_loop IH.
      by rewrite <- app_assoc.
Qed.

Lemma clean_playlist_lines (lines : list string) :
  clean_playlist lines = clean_lines lines.
Proof.
unfold clean_playlist.
destruct (clean_loop_lines (length lines) lines
            {| idx := 0; cleaned := []; total_channels := 0 |}) as [H1 H2];
  [cbn; lia |].
cbn in H1, H2. rewrite H1, H2, drop_0. by destruct (clean_lines lines).
Qed.

End UdptvPlaylist.

Section UdptvSecondPass.
Import Udptv.

Lemma re_sub_nonempty (s : string) : s ≠ EmptyString → re_sub s ≠ EmptyString.
Proof.
destruct s as [|c s]; [done |]. intros _.
destruct (group_match (String c s)) eqn:E.
- by rewrite (re_sub_hit _ _ E).
- by rewrite (re_sub_miss _ _ E).
Qed.

Lemma tail_ok_re_sub (s : string) : tail_ok s = true → tail_ok (re_sub s) = true.
Proof.
remember (String.length s) as m eqn:Hm.
revert s Hm; induction m as [m IH] using lt_wf_ind; intros s -> H.
destruct s as [|c s]; [done |].
destruct (group_match (String c s)) eqn:E.
- rewrite (re_sub_hit _ _ E), tail_ok_app.
  destruct (re_sub (sdrop n (String c s))) eqn:Er; [done |]. rewrite <- Er.
  apply (IH (String.length (sdrop n (String c s)))); [| done | by apply tail_ok_sdrop].
  pose proof (group_match_pos _ _ E). rewrite length_sdrop. simpl. lia.
- rewrite (re_sub_miss _ _ E).
  destruct s as [|d s]; [exact H |].
  pose proof (re_sub_nonempty (String d s)) as Hne.
  cbn [tail_ok] in H |- *.
  destruct (re_sub (String d s)) eqn:Er; [by destruct Hne |]. rewrite <- Er.
  apply (IH (String.length (String d s))); [simpl; lia | done | exact H].
Qed.

Lemma insert_label_nonempty (s : string) :
  s ≠ EmptyString → insert_label s ≠ EmptyString.
Proof.
destruct s as [|c s]; [done |]. intros _.
destruct (startswith "#EXTINF:" (String c s)) eqn:E.
- by rewrite (insert_label_hit _ E).
- by rewrite (insert_label_miss _ _ E).
Qed.

Lemma tail_ok_insert_label (s : string) :
  tail_ok s = true → tail_ok (insert_label s) = true.
Proof.
remember (String.length s) as m eqn:Hm.
revert s Hm; induction m as [m IH] using lt_wf_ind; intros s -> H.
destruct s as [|c s]; [done |].
destruct (startswith "#EXTINF:" (String c s)) eqn:E.
- rewrite (insert_label_hit _ E), tail_ok_app.
  destruct (insert_label (sdrop 8 (String c s))) eqn:Er; [done |]. rewrite <- Er.
  apply (IH (String.length (sdrop 8 (String c s)))); [| done | by apply tail_ok_sdrop].
  rewrite length_sdrop. simpl. lia.
- rewrite (insert_label_miss _ _ E).
  destruct s as [|d s]; [exact H |].
  pose proof (insert_label_nonempty (String d s)) as Hne.
  cbn [tail_ok] in H |- *.
  destruct (insert_label (String d s)) eqn:Er; [by destruct Hne |]. rewrite <- Er.
  apply (IH (String.length (String d s))); [simpl; lia | done | exact H].
Qed.

Lemma tail_ok_standardize (s : string) :
  tail_ok s = true → tail_ok (standardize s) = true.
Proof.
intros H. unfold standardize.
destruct (contains _ s); [by apply tail_ok_re_sub | by apply tail_ok_insert_label].
Qed.

(** A rewritten metadata line is still a metadata line. *)
Lemma standardize_extinf (s : string) :
  startswith "#EXTINF" s = true → startswith "#EXTINF" (standardize s) = true.
Proof.
intros H. unfold standardize. destruct (contains _ s).
- by rewrite re_sub_prefix_iff.
- destruct s as [|c s]; [done |].
  destruct (startswith "#EXTINF:" (String c s)) eqn:E.
  + by rewrite (insert_label_hit _ E).
  + rewrite (insert_label_miss _ _ E).
    change (startswith "#EXTINF" (String c s))
      with (if Ascii.eqb "#" c then startswith "EXTINF" s else false) in H.
    change (startswith "#EXTINF" (String c (insert_label s)))
      with (if Ascii.eqb "#" c then startswith "EXTINF" (insert_label s) else false).
    destruct (Ascii.eqb "#" c); [|done].
    by rewrite insert_label_prefix_iff.
Qed.

Lemma extinf_head_ok (s : string) : startswith "#EXTINF" s = true → head_ok s = true.
Proof.
destruct s as [|c s]; [done |].
change (startswith "#EXTINF" (String c s))
  with (if Ascii.eqb "#" c then startswith "EXTINF" s else false).
destruct (Ascii.eqb "#" c) eqn:E; [|done].
by apply Ascii.eqb_eq in E as <-.
Qed.

Lemma extinf_hash (s : string) : startswith "#EXTINF" s = true → startswith "#" s = true.
Proof. by apply startswith_trans. Qed.

Lemma kept_no_hash (s : string) : is_dropped s = false → startswith "#" s = false.
Proof.
unfold is_dropped. cbn [existsb]. intros H.
repeat (apply orb_false_iff in H as [? H]). done.
Qed.

Lemma no_hash_not_extinf (s : string) :
  startswith "#" s = false → startswith "#EXTINF" s = false.
Proof.
intros H. destruct (startswith "#EXTINF" s) eqn:E; [|done].
apply extinf_hash in E. congruence.
Qed.

Lemma standardize_stripped (s : string) :
  startswith "#EXTINF" s = true → tail_ok s = true →
  strip (standardize s) = standardize s.
Proof.
intros H1 H2. apply strip_fixed.
- by apply extinf_head_ok, standardize_extinf.
- by apply tail_ok_standardize.
Qed.

Lemma clean_lines_length (ls : list string) :
  (length (clean_lines ls).1 ≤ length ls)%nat.
Proof.
remember (length ls) as m eqn:Hm.
revert ls Hm; induction m as [m IH] using lt_wf_ind; intros ls ->.
destruct ls as [|raw rest]; [done |].
destruct (startswith "#EXTINF" (strip raw)) eqn:Ext.
- destruct rest as [|next rest].
  + by rewrite (clean_lines_last _ Ext).
  + destruct (startswith "#" next) eqn:Hh.
    * rewrite (clean_lines_alone _ _ _ Ext Hh). cbn [fst length].
      specialize (IH (length (next :: rest)) ltac:(simpl; lia) _ eq_refl).
      cbn [length] in IH. lia.
    * rewrite (clean_lines_pair _ _ _ Ext Hh). cbn [fst length].
      specialize (IH (length rest) ltac:(simpl; lia) _ eq_refl). lia.
- destruct (is_dropped (strip raw)) eqn:Hd.
  + rewrite (clean_lines_drop _ _ Ext Hd).
    specialize (IH (length rest) ltac:(simpl; lia) _ eq_refl). cbn [length]. lia.
  + rewrite (clean_lines_keep _ _ Ext Hd). cbn [fst length].
    specialize (IH (length rest) ltac:(simpl; lia) _ eq_refl). lia.
Qed.

(** Where each cleaned line comes from: it is the rewriting of a metadata
    line, or an input line copied with its white space stripped. *)
Lemma clean_lines_elem (ls : list string) (o : string) :
  o ∈ (clean_lines ls).1 →
  (∃ l, l ∈ ls ∧ startswith "#EXTINF" (strip l) = true ∧ o = standardize (strip l))
  ∨ (∃ l, l ∈ ls ∧ o = strip l).
Proof.
remember (length ls) as m eqn:Hm.
revert ls Hm; induction m as [m IH] using lt_wf_ind; intros ls ->.
assert (Hrec : ∀ ls' : list string, (length ls' < length ls)%nat →
  (∀ x, x ∈ ls' → x ∈ ls) → o ∈ (clean_lines ls').1 →
  (∃ l, l ∈ ls ∧ startswith "#EXTINF" (strip l) = true ∧ o = standardize (strip l))
  ∨ (∃ l, l ∈ ls ∧ o = strip l)).
{ intros ls' Hlt Hsub Ho.
  destruct (IH _ Hlt ls' eq_refl Ho) as [(l & ? & ? & ?) | (l & ? & ?)];
    [left | right]; exists l; auto. }
clear IH. destruct ls as [|raw rest]; [by intros ?%elem_of_nil |].
destruct (startswith "#EXTINF" (strip raw)) eqn:Ext.
- destruct rest as [|next rest].
  + rewrite (clean_lines_last _ Ext). intros ->%list_elem_of_singleton.
    left. exists raw. split; [left | done].
  + destruct (startswith "#" next) eqn:Hh.
    * rewrite (clean_lines_alone _ _ _ Ext Hh). cbn [fst].
      intros [-> | Ho]%elem_of_cons.
      -- left. exists raw. split; [left | done].
      -- apply (Hrec (next :: rest)); [simpl; lia | by right | done].
    * rewrite (clean_lines_pair _ _ _ Ext Hh). cbn [fst].
      intros [-> | [-> | Ho]%elem_of_cons]%elem_of_cons.
      -- left. exists raw. split; [left | done].
      -- right. exists next. split; [right; left | done].
      -- apply (Hrec rest); [simpl; lia | by intros; right; right | done].
- destruct (is_dropped (strip raw)) eqn:Hd.
  + rewrite (clean_lines_drop _ _ Ext Hd).
    apply (Hrec rest); [simpl; lia | by intros; right].
  + rewrite (clean_lines_keep _ _ Ext Hd). cbn [fst].
    intros [-> | Ho]%elem_of_cons.
    * right. exists raw. split; [left | done].
    * apply (Hrec rest); [simpl; lia | by intros; right | done].
Qed.

Lemma clean_lines_stripped (ls : list string) (o : string) :
  o ∈ (clean_lines ls).1 → strip o = o.
Proof.
intros [(l & _ & Hext & ->) | (l & _ & ->)]%clean_lines_elem.
- apply standardize_stripped; [done | apply tail_ok_strip].
- apply strip_idempotent.
Qed.

(** On a playlist whose comment lines start in the first column, a
    second pass returns the lines of the first unchanged. *)
Lemma clean_lines_twice (ls : list string) :
  Forall (λ l, no_hidden_hash l = true) ls →
  (clean_lines (clean_lines ls).1).1 = (clean_lines ls).1.
Proof.
remember (length ls) as m eqn:Hm.
revert ls Hm; induction m as [m IH] using lt_wf_ind; intros ls -> Hls.
destruct ls as [|raw rest]; [done |].
apply Forall_cons in Hls as [Hraw Hrest].
assert (Hmeta : startswith "#EXTINF" (strip raw) = true →
  startswith "#EXTINF" (strip (standardize (strip raw))) = true
  ∧ standardize (strip (standardize (strip raw))) = standardize (strip raw)).
{ intros Ext.
  rewrite (standardize_stripped _ Ext (tail_ok_strip raw)).
  split; [by apply standardize_extinf | apply standardize_idempotent]. }
destruct (startswith "#EXTINF" (strip raw)) eqn:Ext.
- destruct (Hmeta eq_refl) as [Ext' Hfix]. clear Hmeta.
  destruct rest as [|next rest].
  + rewrite (clean_lines_last _ Ext). cbn [fst].
    rewrite (clean_lines_last _ Ext'). cbn [fst]. by rewrite Hfix.
  + apply Forall_cons in Hrest as [Hnext Hrest].
    destruct (startswith "#" next) eqn:Hh.
    * rewrite (clean_lines_alone _ _ _ Ext Hh). cbn [fst].
      pose proof (IH (length (next :: rest)) ltac:(simpl; lia) _ eq_refl
                    (Forall_cons_2 _ _ _ Hnext Hrest)) as IHr.
      pose proof (clean_lines_stripped (next :: rest)) as Hst.
      destruct (clean_lines (next :: rest)).1 as [|h t] eqn:Eo.
      { rewrite (clean_lines_last _ Ext'). cbn [fst]. by rewrite Hfix. }
      destruct (startswith "#" h) eqn:Hhh.
      -- rewrite (clean_lines_alone _ _ _ Ext' Hhh). cbn [fst].
         by rewrite Hfix, IHr.
      -- rewrite (clean_lines_pair _ _ _ Ext' Hhh). cbn [fst].
         rewrite Hfix. f_equal.
         assert (Hh' : strip h = h) by (apply Hst; left).
         assert (Hne : startswith "#EXTINF" (strip h) = false)
           by (rewrite Hh'; by apply no_hash_not_extinf).
         destruct (is_dropped (strip h)) eqn:Hd.
         ++ rewrite (clean_lines_drop h t Hne Hd) in IHr.
            pose proof (clean_lines_length t) as Hlen.
            rewrite IHr in Hlen. cbn [length] in Hlen. lia.
         ++ rewrite (clean_lines_keep h t Hne Hd) in IHr. exact IHr.
    * rewrite (clean_lines_pair _ _ _ Ext Hh). cbn [fst].
      unfold no_hidden_hash in Hnext. rewrite Hh in Hnext.
      destruct (startswith "#" (strip next)) eqn:Hs; [done |].
      rewrite (clean_lines_pair _ _ _ Ext' Hs). cbn [fst].
      rewrite Hfix, strip_idempotent. do 2 f_equal.
      by apply (IH (length rest) ltac:(simpl; lia) _ eq_refl).
- clear Hmeta. destruct (is_dropped (strip raw)) eqn:Hd.
  + rewrite (clean_lines_drop _ _ Ext Hd).
    by apply (IH (length rest) ltac:(simpl; lia) _ eq_refl).
  + rewrite (clean_lines_keep _ _ Ext Hd). cbn [fst].
    rewrite <- (strip_idempotent raw) in Ext, Hd.
    rewrite (clean_lines_keep _ _ Ext Hd). cbn [fst].
    rewrite strip_idempotent. f_equal.
    by apply (IH (length rest) ltac:(simpl; lia) _ eq_refl).
Qed.

End UdptvSecondPass.

(** ** The reference library meets the interface *)

Section ReferenceLib.
Import UrlRef.

Lemma urlsplit_https (r dflt : string) (p : parts) :
  urlsplit ("https:" +:+ r) dflt = Ok p → scheme p = "https".
Proof.
unfold urlsplit.
change (remove_unsafe (lstrip_c0 ("https:" +:+ r)))
  with ("https:" +:+ remove_unsafe r).
change (cut ":" ("https:" +:+ remove_unsafe r))
  with (Some ("https", remove_unsafe r)).
cbv beta iota.
change (is_alpha "h" && all_chars scheme_char "https") with true.
cbv beta iota.
change (map_chars lower_char "https") with "https".
repeat case_match; try done; by intros [= <-].
Qed.

Lemma urlparse_https (r dflt : string) (p : parts) :
  urlparse ("https:" +:+ r) dflt = Ok p → scheme p = "https".
Proof.
unfold urlparse. destruct (urlsplit _ _) as [q|] eqn:E; [|done].
apply urlsplit_https in E. cbn.
repeat case_match; intros [= <-]; done.
Qed.

Lemma urlunparse_https (p : parts) :
  scheme p = "https" → startswith "https:" (urlunparse p) = true.
Proof. unfold urlunparse. by intros ->. Qed.

Lemma url_resolve_ref_https (base url r : string) :
  startswith "https:" base = true → url_resolve base url = Ok r →
  r = url ∨ startswith "https:" r = true.
Proof.
intros Hb%startswith_inv. rewrite Hb. unfold url_resolve.
destruct (urlparse ("https:" +:+ _) _) as [b|] eqn:Eb; [|done].
apply urlparse_https in Eb. cbn [mbind res_bind Py.bind].
destruct (urlparse url (scheme b)) as [u|] eqn:Eu; [|done].
cbn [mbind res_bind Py.bind].
destruct (String.eqb_spec (scheme u) (scheme b)) as [Hs | Hs]; cbn [negb orb].
2: { intros [= <-]. by left. }
rewrite Eb in Hs.
destruct (negb (mem (scheme u) uses_relative)).
{ intros [= <-]. by left. }
destruct (mem (scheme u) uses_netloc && nonempty (netloc u)).
{ intros [= <-]. right. by apply urlunparse_https. }
destruct (negb (nonempty (path u)) && negb (nonempty (params u)));
  intros [= <-]; right; by apply urlunparse_https.
Qed.

Lemma fromisoformat_ref_valid (s : string) (dt : datetime) :
  IsoRef.fromisoformat s = Some dt → valid dt = true.
Proof.
unfold IsoRef.fromisoformat. intros H.
repeat (simplify_option_eq || case_match); done.
Qed.

End ReferenceLib.

#[global] Instance reference_lib : PyLib := {|
  url_resolve := UrlRef.url_resolve;
  url_resolve_https := url_resolve_ref_https;
  fromisoformat := IsoRef.fromisoformat;
  fromisoformat_valid := fromisoformat_ref_valid;
  strftime_Y := pad4;
  strftime_Y_four := λ _ _, eq_refl
|}.

(** ** fetch_data *)

Section FetchFacts.
Import Lg.

Lemma fetch_loop_spec (net : network) (url : string) (retries : Z)
    (fuel : nat) (attempt : Z) (w : run) :
  attempt + Z.of_nat fuel = retries + 1 →
  let out := fetch_loop net url retries fuel attempt w in
  ∃ n : nat,
    (n ≤ fuel)%nat ∧ ((0 < fuel)%nat → (0 < n)%nat)
    ∧ requests out.2 = (requests w + n)%nat
    ∧ events out.2 = events w ++ attempts_from url attempt n
    ∧ (∀ i, (i < n - 1)%nat → net (requests w + i)%nat = RequestException)
    ∧ (out.1 = JNull ∨ (0 < n)%nat ∧ net (requests w + (n - 1))%nat = Response out.1)
    ∧ ((∀ i, (i < fuel)%nat → net (requests w + i)%nat = RequestException) →
       n = fuel ∧ out.1 = JNull).
Proof.
revert attempt w; induction fuel as [|fuel IH]; intros attempt w Hfuel; cbn zeta.
- exists O. cbn. rewrite Nat.add_0_r, app_nil_r.
  split_and!; try done; [lia | by left].
- cbn [fetch_loop]. destruct (net (requests w)) as [body|] eqn:Enet.
  + exists 1%nat. cbn. rewrite Nat.add_0_r.
    split_and!; try done; try lia.
    * right. split; [lia | done].
    * intros Hall. specialize (Hall O ltac:(lia)).
      rewrite Nat.add_0_r in Hall. congruence.
  + destruct (Z.eqb_spec attempt retries) as [-> | Hne].
    * assert (fuel = O) as -> by lia.
      exists 1%nat. cbn. rewrite Nat.add_0_r.
      split_and!; try done; try lia. by left.
    * destruct fuel as [|fuel]; [lia |].
      destruct (IH (attempt + 1) (sleep (RETRY_DELAY * (attempt + 1)) (request url w))
                  ltac:(lia)) as (n & Hn & Hpos & Hreq & Hev & Hfail & Hres & Hall).
      cbn zeta in *. cbn [requests events sleep request] in *.
      specialize (Hpos ltac:(lia)).
      exists (S n). split_and!.
      -- lia.
      -- lia.
      -- rewrite Hreq. lia.
      -- rewrite Hev. destruct n as [|n]; [lia |].
         rewrite <- !app_assoc. done.
      -- intros i Hi. destruct i as [|i]; [by rewrite Nat.add_0_r |].
         replace (requests w + S i)%nat with (S (requests w) + i)%nat by lia.
         apply Hfail. lia.
      -- destruct Hres as [Hres | [_ Hres]]; [by left | right].
         split; [lia |].
         replace (requests w + (S n - 1))%nat with (S (requests w) + (n - 1))%nat by lia.
         done.
      -- intros Hall'. destruct Hall as [-> ->]; [|done].
         intros i Hi.
         replace (S (requests w) + i)%nat with (requests w + S i)%nat by lia.
         apply Hall'. lia.
Qed.

End FetchFacts.

Section FetchClaim.
Import Lg.

Lemma attempts_from_get (url : string) (attempt : Z) (n k : nat) :
  (k < n)%nat → attempts_from url attempt n !! (2 * k)%nat = Some (HttpGet url).
Proof.
revert attempt k; induction n as [|n IH]; intros attempt k Hk; [lia |].
destruct k as [|k]; [done |].
destruct n as [|n]; [lia |].
replace (2 * S k)%nat with (S (S (2 * k))) by lia.
exact (IH (attempt + 1) k ltac:(lia)).
Qed.

Lemma attempts_from_sleep (url : string) (attempt : Z) (n k : nat) :
  (S k < n)%nat →
  attempts_from url attempt n !! (2 * k + 1)%nat
  = Some (Sleep (RETRY_DELAY * (attempt + Z.of_nat k + 1))).
Proof.
revert attempt k; induction n as [|n IH]; intros attempt k Hk; [lia |].
destruct n as [|n]; [lia |].
destruct k as [|k].
- cbn. do 3 f_equal. lia.
- replace (2 * S k + 1)%nat with (S (S (2 * k + 1))) by lia.
  pose proof (IH (attempt + 1) k ltac:(lia)) as IHk.
  replace (attempt + 1 + Z.of_nat k + 1) with (attempt + Z.of_nat (S k) + 1)
    in IHk by lia.
  exact IHk.
Qed.

(** C9. For every URL and every behaviour of the network, [fetch_data]
    makes at most [retries + 1] requests; its log is a request per
    attempt with, after the k-th failed attempt, a sleep of [RETRY_DELAY]
    times [k]. Every attempt but the last one made has failed, and the
    result is [None] or the body of the answer to the last attempt. When
    the [retries + 1] requests it may make all fail, it makes them all and
    returns [None], whatever the network would answer afterwards. Being a
    total function of the network, it has no other way out: a transport
    failure never reaches the caller. *)
Theorem fetch_data_bounded_retry (net : network) (url : string) (retries : Z)
    (w : run) :
  let out := fetch_data net url retries w in
  ∃ n : nat,
    (n ≤ Z.to_nat (retries + 1))%nat
    ∧ requests out.2 = (requests w + n)%nat
    ∧ events out.2 = events w ++ attempts_from url 0 n
    ∧ (∀ k, (k < n)%nat → attempts_from url 0 n !! (2 * k)%nat = Some (HttpGet url))
    ∧ (∀ k, (S k < n)%nat →
         attempts_from url 0 n !! (2 * k + 1)%nat
         = Some (Sleep (RETRY_DELAY * (Z.of_nat k + 1))))
    ∧ (∀ i, (i < n - 1)%nat → net (requests w + i)%nat = RequestException)
    ∧ (out.1 = JNull
       ∨ (0 < n)%nat ∧ net (requests w + (n - 1))%nat = Response out.1)
    ∧ ((∀ i, (i < Z.to_nat (retries + 1))%nat →
             net (requests w + i)%nat = RequestException) →
       n = Z.to_nat (retries + 1) ∧ out.1 = JNull).
Proof.
cbn zeta. unfold fetch_data.
destruct (Z.le_gt_cases 0 (retries + 1)) as [Hr | Hr].
- destruct (fetch_loop_spec net url retries (Z.to_nat (retries + 1)) 0 w
              ltac:(lia)) as (n & Hn & _ & Hreq & Hev & Hfail & Hres & Hall).
  exists n. split_and!; try done.
  + intros k Hk. by apply attempts_from_get.
  + intros k Hk. by rewrite attempts_from_sleep.
- replace (Z.to_nat (retries + 1)) with O by lia. exists O. cbn.
  rewrite Nat.add_0_r, app_nil_r. split_and!; try done; try lia. by left.
Qed.

(** A network that fails four times and would answer the fifth request:
    four requests, sleeps of 2, 4 and 6 seconds between them, and
    [None]. *)
Lemma fetch_data_bounded_retry_witness :
  let net := λ i : nat, if (i <? 4)%nat then RequestException
                        else Response (JStr "late") in
  let out := fetch_data net CHANNELS_ENDPOINT MAX_RETRIES start in
  out.1 = JNull ∧ requests out.2 = 4%nat
  ∧ events out.2 !! 5%nat = Some (Sleep 6).
Proof.
cbn zeta.
destruct (fetch_data_bounded_retry
            (λ i : nat, if (i <? 4)%nat then RequestException
                        else Response (JStr "late"))
            CHANNELS_ENDPOINT MAX_RETRIES start)
  as (n & _ & Hreq & Hev & _ & Hsleep & _ & _ & Hall).
destruct Hall as [-> Hnull].
{ intros i Hi. cbn [requests start Nat.add].
  change (Z.to_nat (MAX_RETRIES + 1)) with 4%nat in Hi.
  by destruct (Nat.ltb_spec i 4); [|lia]. }
split_and!; [exact Hnull | exact Hreq |].
rewrite Hev. exact (Hsleep 2%nat ltac:(vm_compute; lia)).
Defined.

End FetchClaim.

(** ** get_channels *)

Section ChannelFacts.
Context `{PyLib}.
Import Lg.

Lemma kept_channel_Some (channel : json) (info : channel_info) :
  kept_channel channel = Some info → channel_record channel = Ok (Some info).
Proof.
unfold kept_channel. destruct (channel_record channel) as [[i|]|]; try done.
by intros [= ->].
Qed.

Lemma add_channel_kept (channels : list channel_info) (channel : json) :
  add_channel channels channel = channels ++ option_list (kept_channel channel).
Proof.
unfold add_channel, kept_channel.
destruct (channel_record channel) as [[info|]|]; cbn; by rewrite ?app_nil_r.
Qed.

Lemma fold_add_channel (data : list json) (acc : list channel_info) :
  fold_left add_channel data acc = acc ++ omap kept_channel data.
Proof.
revert acc; induction data as [|c data IH]; intros acc; cbn [fold_left].
- by rewrite app_nil_r.
- rewrite IH, add_channel_kept, <- app_assoc. f_equal.
  cbn [omap list_omap]. by destruct (kept_channel c).
Qed.

Lemma normalize_channels_omap (data : list json) :
  normalize_channels data = omap kept_channel data.
Proof. unfold normalize_channels. by rewrite fold_add_channel. Qed.

Lemma channel_record_id (channel : json) (info : channel_info) :
  channel_record channel = Ok (Some info) →
  ∃ kv, channel = JObj kv ∧ id info = get "id" kv ∧ truthy (id info) = true.
Proof.
destruct channel as [| | | |l|kv]; try done. cbn [channel_record].
destruct (truthy (get "id" kv)) eqn:Hid; [|done]. cbn [negb].
destruct (resolve_stream _) as [s|]; [|done]. cbn.
destruct (resolve_logo _) as [l|]; [|done]. cbn.
intros [= <-]. by exists kv.
Qed.

(** The properties of the list, by induction on the records. *)
Lemma omap_kept_channel_sound (data : list json) :
  (length (omap kept_channel data) ≤ length data)%nat
  ∧ Forall (λ c, truthy (id c) = true) (omap kept_channel data)
  ∧ ∃ kept : list json,
      kept `sublist_of` data
      ∧ Forall2 (λ raw c, ∃ kv, raw = JObj kv ∧ id c = get "id" kv
                          ∧ channel_record raw = Ok (Some c)) kept
          (omap kept_channel data).
Proof.
induction data as [|raw data (IHlen & IHid & kept & Hsub & Hkept)]; cbn [omap list_omap].
- split_and!; [done | constructor |]. exists []. split; constructor.
- destruct (kept_channel raw) as [info|] eqn:Ek.
  + apply kept_channel_Some in Ek.
    destruct (channel_record_id _ _ Ek) as (kv & -> & Hid & Htrue).
    split_and!; [cbn; lia | by constructor |].
    exists (JObj kv :: kept). split; [by constructor |].
    constructor; [|done]. by exists kv.
  + split_and!; [cbn; lia | done |]. exists kept. split; [by constructor | done].
Qed.

(** C5. For every sequence of raw channel records the normalized list is
    no longer than the input, every record in it has a true (non-empty)
    identifier, and the list is, in order, what the records of a
    subsequence of the input (objects with an [id], each kept as its own
    record) were turned into. [get_channels] returns this list when the
    endpoint answers with these records. *)
Theorem normalize_channels_sound (data : list json) :
  let out := normalize_channels data in
  (length out ≤ length data)%nat
  ∧ Forall (λ c, truthy (id c) = true) out
  ∧ (∃ kept : list json,
      kept `sublist_of` data
      ∧ Forall2 (λ raw c, ∃ kv, raw = JObj kv ∧ id c = get "id" kv
                          ∧ channel_record raw = Ok (Some c)) kept out)
  ∧ (get_channels (λ _, Response (JList data)) start).1 = out.
Proof.
cbn zeta. rewrite normalize_channels_omap.
destruct (omap_kept_channel_sound data) as (Hlen & Hid & Hkept).
split_and!; try done.
destruct data as [|c l]; [done |].
rewrite <- normalize_channels_omap. reflexivity.
Qed.

(** What the first tests of [urljoin] make of a stream URL that is
    missing or empty. *)
Lemma resolve_stream_falsy (v : json) :
  truthy v = false → resolve_stream v = Ok (JStr BASE_URL).
Proof. intros Hv. unfold resolve_stream, urljoin. by rewrite Hv. Qed.

(** Every record that is kept and whose [streamUrl] is missing, empty or
    otherwise false carries the base URL as its stream URL, which is true:
    line 175 of the generator does not pass it over. *)
Lemma stream_less_record (kv : list (string * json)) (info : channel_info) :
  truthy (get_or "streamUrl" (JStr EmptyString) kv) = false →
  channel_record (JObj kv) = Ok (Some info) →
  stream_url info = JStr BASE_URL ∧ truthy (stream_url info) = true.
Proof.
intros Hs. cbn [channel_record].
destruct (truthy (get "id" kv)); [|done]. cbn [negb].
rewrite (resolve_stream_falsy _ Hs). cbn [mbind res_bind Py.bind].
destruct (resolve_logo _) as [l|]; [|done]. cbn [mbind res_bind Py.bind].
by intros [= <-].
Qed.

(** C1. The record [{"id": "ch1", "name": "One"}] has no [streamUrl].
    Normalization keeps it and gives it the base URL as stream URL, and
    the playlist generator then writes an entry for it: the header, the
    metadata line and the base URL on a line of its own. *)
Theorem stream_less_channel_is_emitted :
  let raw := JObj [("id", JStr "ch1"); ("name", JStr "One")] in
  let channels := (get_channels (λ _, Response (JList [raw])) start).1 in
  channels = normalize_channels [raw]
  ∧ stream_url <$> channels = [JStr BASE_URL]
  ∧ m3u_lines channels
    = Ok [JStr m3u_header;
          JStr ("#EXTINF:-1 tvg-id=" +:+ quoted "ch1" +:+ " tvg-name="
                +:+ quoted "One" +:+ " ,One");
          JStr BASE_URL]
  ∧ generate_m3u_playlist channels
    = Ok (m3u_header +:+ ch lf
          +:+ "#EXTINF:-1 tvg-id=" +:+ quoted "ch1" +:+ " tvg-name="
          +:+ quoted "One" +:+ " ,One" +:+ ch lf
          +:+ BASE_URL +:+ ch lf).
Proof. split_and!; reflexivity. Qed.

End ChannelFacts.

(** ** format_time *)

Section TimeFacts.
Context `{PyLib}.
Import Lg.

Lemma digit_is_digit (n : Z) : is_digit (digit n) = true.
Proof.
unfold digit.
assert (Hn : (Z.to_nat (n mod 10) < 10)%nat)
  by (pose proof (Z.mod_pos_bound n 10 ltac:(lia)); lia).
destruct (Z.to_nat (n mod 10)) as [|[|[|[|[|[|[|[|[|[|k]]]]]]]]]]; try done. lia.
Qed.

Lemma digits_then_pad2 (n : nat) (k : string → bool) (x : Z) (r : string) :
  digits_then (S (S n)) k (pad2 x +:+ r) = digits_then n k r.
Proof. unfold pad2. cbn. by rewrite !digit_is_digit. Qed.

Lemma digits_then_pad4 (n : nat) (k : string → bool) (x : Z) (r : string) :
  digits_then (S (S (S (S n)))) k (pad4 x +:+ r) = digits_then n k r.
Proof. unfold pad4. by rewrite app_assoc_s, !digits_then_pad2. Qed.

Lemma digits_then_pad6 (n : nat) (k : string → bool) (x : Z) (r : string) :
  digits_then (6 + n) k (pad6 x +:+ r) = digits_then n k r.
Proof.
unfold pad6. rewrite app_assoc_s. cbn [Nat.add].
by rewrite digits_then_pad2, digits_then_pad4.
Qed.

Lemma digits_then_0 (k : string → bool) (r : string) : digits_then 0 k r = k r.
Proof. reflexivity. Qed.

(** Whatever the offset, [%z] writes one of its four shapes. *)
Lemma strftime_z_shape (off : option Z) : z_offset (strftime_z off) = true.
Proof.
destruct off as [o|]; [|done]. unfold strftime_z. cbn zeta.
set (us := Z.abs o mod 1000000). set (secs := Z.abs o / 1000000).
assert (Hsign : ∀ r, z_offset ((if o <? 0 then "-" else "+") +:+ r)
                     = digits_then 4 after_hhmm r)
  by (intros r; by destruct (o <? 0)).
rewrite Hsign, !digits_then_pad2, digits_then_0. unfold after_hhmm.
destruct (us =? 0); cbn [negb].
- destruct (secs mod 60 =? 0); cbn [negb]; [done |].
  rewrite <- (app_empty_r (pad2 _)), digits_then_pad2. by rewrite orb_true_r.
- rewrite digits_then_pad2, digits_then_0.
  change (after_ss ("." +:+ pad6 us)) with (digits_then 6 is_empty (pad6 us)).
  rewrite <- (app_empty_r (pad6 _)), (digits_then_pad6 0). by rewrite orb_true_r.
Qed.

Lemma strftime_tail_shape (dt : datetime) :
  stamp 10 z_offset (strftime_mdHMS dt +:+ " " +:+ strftime_z (utcoffset dt)) = true.
Proof.
unfold stamp, strftime_mdHMS. rewrite !app_assoc_s, !digits_then_pad2.
cbn. apply strftime_z_shape.
Qed.

Lemma strftime_shape (dt : datetime) :
  1000 ≤ year dt ≤ 9999 → stamp 14 z_offset (strftime dt) = true.
Proof.
intros Hy. unfold strftime. rewrite (strftime_Y_four _ Hy).
unfold stamp. rewrite digits_then_pad4. apply strftime_tail_shape.
Qed.

Lemma valid_year (dt : datetime) : valid dt = true → 1 ≤ year dt ≤ 9999.
Proof. unfold valid. intros Hv. repeat (apply andb_true_iff in Hv as [Hv ?]). lia. Qed.

Lemma strftime_nonempty (dt : datetime) : strftime dt ≠ EmptyString.
Proof.
unfold strftime, strftime_mdHMS, pad2.
destruct (strftime_Y (year dt)); done.
Qed.

Lemma format_time_JStr (s : string) : format_time (JStr s) = Ok (format_time_str s).
Proof.
unfold format_time, format_time_str. cbn [truthy].
by destruct (String.eqb s EmptyString).
Qed.

(** C3, as the code has it. On a string, [format_time] returns the empty
    string, or what [strftime] writes for a valid instant: the year, ten
    digits for month, day, hour, minute and second, one space and the
    offset, which is empty for an instant without time zone and else
    [±HHMM], [±HHMMSS] or [±HHMMSS.ffffff]. From the year 1000 on the year
    has four digits, which makes fourteen digits before the space. *)
Theorem format_time_shape (s : string) :
  ∃ out : string,
    format_time (JStr s) = Ok out
    ∧ (out = EmptyString
       ∨ ∃ dt : datetime,
           fromisoformat (iso_text s) = Some dt ∧ valid dt = true
           ∧ out = strftime_Y (year dt)
                   +:+ (strftime_mdHMS dt +:+ " " +:+ strftime_z (utcoffset dt))
           ∧ stamp 10 z_offset
               (strftime_mdHMS dt +:+ " " +:+ strftime_z (utcoffset dt)) = true
           ∧ (1000 ≤ year dt → stamp 14 z_offset out = true)).
Proof.
exists (format_time_str s). split; [apply format_time_JStr |].
unfold format_time_str. destruct (String.eqb s EmptyString); [by left |].
destruct (fromisoformat (iso_text s)) as [dt|] eqn:Eparse; [right | by left].
pose proof (fromisoformat_valid _ _ Eparse) as Hv.
exists dt. split_and!; try done.
- apply strftime_tail_shape.
- intros Hy. apply strftime_shape. pose proof (valid_year _ Hv). lia.
Qed.

Lemma format_time_unparsed (s : string) :
  fromisoformat (iso_text s) = None → format_time (JStr s) = Ok EmptyString.
Proof.
intros Hs. rewrite format_time_JStr. unfold format_time_str.
rewrite Hs. by destruct (String.eqb s EmptyString).
Qed.

Lemma format_time_empty_iff (s : string) :
  format_time (JStr s) = Ok EmptyString
  ↔ s = EmptyString ∨ fromisoformat (iso_text s) = None.
Proof.
split.
- rewrite format_time_JStr. unfold format_time_str.
  destruct (String.eqb_spec s EmptyString) as [-> | Hs]; [by left |].
  destruct (fromisoformat (iso_text s)) as [dt|]; [|by right].
  intros [= Hout]. by destruct (strftime_nonempty dt).
- intros [-> | Hs]; [done | by apply format_time_unparsed].
Qed.

Lemma cut_dot_absent (s : string) : contains "." s = false → cut "." s = None.
Proof.
induction s as [|c s IH]; [done |].
cbn [contains cut startswith String.length sdrop].
destruct (Ascii.eqb "." c); [done |]. cbn [orb]. intros Hs. by rewrite (IH Hs).
Qed.

(** A string without [Z] and without a dot is handed to the parser as it
    is. *)
Lemma iso_text_plain (s : string) :
  contains "Z" s = false → contains "." s = false → iso_text s = s.
Proof. intros Hz Hd. unfold iso_text. by rewrite Hz, (cut_dot_absent _ Hd). Qed.

(** C4, as the code has it. [format_time] returns the empty string for
    every string whose text, after the two rewritings of lines 306-310,
    [fromisoformat] does not parse, and for no other string but the empty
    one; any other string gives what [strftime] writes for the parsed
    value, which is not empty. For a string without [Z] and without a dot
    the text parsed is the string itself, so that there the answer is
    empty exactly when the string is empty or does not parse. So
    ["not-a-date"], which does not parse, gives the empty string; and
    ["2024-01-01T00:00:00Z"], handed on as ["2024-01-01T00:00:00+00:00"] and
    parsed as midnight UTC, gives ["20240101000000 +0000"]. *)
Theorem format_time_unparseable :
  (∀ s, fromisoformat (iso_text s) = None → format_time (JStr s) = Ok EmptyString)
  ∧ (∀ s, format_time (JStr s) = Ok EmptyString
          ↔ s = EmptyString ∨ fromisoformat (iso_text s) = None)
  ∧ (∀ s dt, s ≠ EmptyString → fromisoformat (iso_text s) = Some dt →
             format_time (JStr s) = Ok (strftime dt) ∧ strftime dt ≠ EmptyString)
  ∧ (∀ s, contains "Z" s = false → contains "." s = false →
          iso_text s = s
          ∧ (format_time (JStr s) = Ok EmptyString
             ↔ s = EmptyString ∨ fromisoformat s = None))
  ∧ (fromisoformat "not-a-date" = None →
     format_time (JStr "not-a-date") = Ok EmptyString)
  ∧ (fromisoformat "2024-01-01T00:00:00+00:00"
     = Some {| year := 2024; month := 1; day := 1; hour := 0; minute := 0;
               second := 0; microsecond := 0; utcoffset := Some 0 |} →
     format_time (JStr "2024-01-01T00:00:00Z") = Ok "20240101000000 +0000").
Proof.
split_and!.
- apply format_time_unparsed.
- apply format_time_empty_iff.
- intros s dt Hs Hdt. rewrite format_time_JStr. unfold format_time_str.
  destruct (String.eqb_spec s EmptyString) as [-> | _]; [done |].
  rewrite Hdt. split; [done | apply strftime_nonempty].
- intros s Hz Hd. pose proof (iso_text_plain s Hz Hd) as Hplain.
  split; [done |]. rewrite format_time_empty_iff. by rewrite Hplain.
- intros Hp. by apply (format_time_unparsed "not-a-date").
- intros Hp. rewrite format_time_JStr. unfold format_time_str.
  change (iso_text "2024-01-01T00:00:00Z") with "2024-01-01T00:00:00+00:00".
  cbn [String.eqb Ascii.eqb]. rewrite Hp. unfold strftime. cbn [year utcoffset].
  by rewrite strftime_Y_four.
Qed.

End TimeFacts.

(** The two examples of C4 under the reference library. *)
Lemma format_time_unparseable_witness :
  fromisoformat (Lg.iso_text "not-a-date") = None
  ∧ Lg.format_time (JStr "not-a-date") = Ok EmptyString
  ∧ Lg.format_time (JStr "2024-01-01T00:00:00Z") = Ok "20240101000000 +0000".
Proof.
destruct (format_time_unparseable (H := reference_lib)) as (H1 & _ & _ & _ & _ & H4).
split_and!.
- reflexivity.
- apply (H1 "not-a-date"). reflexivity.
- apply H4. reflexivity.
Defined.

(** Two strings that [fromisoformat] does not parse, and that are no
    timestamps, for which [format_time] does not return the empty string:
    the first loses the colon after its dot, the second has its [Z]
    replaced, and what is left parses. *)
Lemma format_time_unparseable_counterexample :
  fromisoformat "2024-01-01T00:00:00.123:456" = None
  ∧ Lg.iso_text "2024-01-01T00:00:00.123:456" = "2024-01-01T00:00:00.123456"
  ∧ Lg.format_time (JStr "2024-01-01T00:00:00.123:456") = Ok "20240101000000 "
  ∧ fromisoformat "2024-01-01Z" = None
  ∧ Lg.iso_text "2024-01-01Z" = "2024-01-01+00:00"
  ∧ Lg.format_time (JStr "2024-01-01Z") = Ok "20240101000000 ".
Proof. split_and!; reflexivity. Qed.

(** The naive and the seconds-bearing offsets, under the reference
    library: neither output is empty, neither has the form
    [YYYYMMDDHHMMSS ±HHMM]. *)
Lemma format_time_shape_counterexample :
  Lg.format_time (JStr "2024-01-01T00:00:00") = Ok "20240101000000 "
  ∧ xmltv_shape "20240101000000 " = false
  ∧ Lg.format_time (JStr "2024-01-01T00:00:00+05:30:15") = Ok "20240101000000 +053015"
  ∧ xmltv_shape "20240101000000 +053015" = false.
Proof. split_and!; reflexivity. Qed.

Lemma format_time_shape_witness :
  ∃ out : string,
    Lg.format_time (JStr "2024-01-01T00:00:00Z") = Ok out
    ∧ stamp 14 z_offset out = true.
Proof.
destruct (format_time_shape (H := reference_lib) "2024-01-01T00:00:00Z")
  as (out & Hout & [Hempty | (dt & Hparse & _ & _ & _ & Hyear)]).
- rewrite Hempty in Hout. discriminate Hout.
- exists out. split; [exact Hout |]. apply Hyear.
  injection Hparse as <-. vm_compute. discriminate.
Defined.

(** ** generate_epg_xml *)

Section GuideFacts.
Context `{PyLib}.
Import Lg.

Lemma programme_elem_Some (channel_id program : json) (e : xml) :
  programme_elem channel_id program = Some e →
  ∃ kv start stop,
    program = JObj kv
    ∧ truthy (get "startTime" kv) = true ∧ truthy (get "endTime" kv) = true
    ∧ format_time (get "startTime" kv) = Ok start
    ∧ format_time (get "endTime" kv) = Ok stop
    ∧ e = Element "programme" (timed_attrib channel_id start stop) JNull
            ((if truthy (get "title" kv) then [text_node "title" (get "title" kv)] else [])
             ++ (if truthy (get "description" kv)
                 then [text_node "desc" (get "description" kv)] else [])
             ++ category_elems (get "genre" kv)
             ++ icon_elems (get "imageUrl" kv)).
Proof.
destruct program as [| | | | |kv]; try done. cbn [programme_elem].
destruct (truthy (get "startTime" kv)) eqn:Hs; [|done].
destruct (truthy (get "endTime" kv)) eqn:He; [|done]. cbn [negb orb].
destruct (format_time (get "startTime" kv)) as [start|] eqn:Fs; [|done].
destruct (format_time (get "endTime" kv)) as [stop|] eqn:Fe; [|done].
intros [= <-]. by exists kv, start, stop.
Qed.

Lemma channel_elem_tag (c : channel_info) (e : xml) :
  channel_elem c = Some e → tag_of e = "channel".
Proof. unfold channel_elem. destruct (truthy (id c)); [|done]. by intros [= <-]. Qed.

Lemma channel_programmes_origin (net : network) (c : channel_info) (w : run) (e : xml) :
  e ∈ (channel_programmes net c w).1 → ∃ p, programme_elem (id c) p = Some e.
Proof.
unfold channel_programmes. destruct (truthy (id c)); cbn [negb].
2: { by intros ?%elem_of_nil. }
destruct (get_epg_data net (id c) w) as [[programs|] w'].
2: { by intros ?%elem_of_nil. }
destruct (truthy programs); cbn [negb].
2: { by intros ?%elem_of_nil. }
destruct (iter programs) as [items|].
2: { by intros ?%elem_of_nil. }
cbn [fst]. intros (p & _ & Hp)%list_elem_of_omap. by exists p.
Qed.

Lemma programmes_origin (net : network) (channels : list channel_info) (w : run) (e : xml) :
  e ∈ (programmes net channels w).1 →
  ∃ c p, c ∈ channels ∧ programme_elem (id c) p = Some e.
Proof.
revert w; induction channels as [|c rest IH]; intros w; cbn [programmes].
- by intros ?%elem_of_nil.
- pose proof (channel_programmes_origin net c w e) as Hhere.
  destruct (channel_programmes net c w) as [here w1].
  specialize (IH w1). destruct (programmes net rest w1) as [later w2].
  cbn [fst] in *. intros [He | He]%elem_of_app.
  + destruct (Hhere He) as [p Hp]. exists c, p. split; [left | done].
  + destruct (IH He) as (c' & p & Hc & Hp). exists c', p. split; [by right | done].
Qed.

Lemma generate_epg_xml_Some (net : network) (channels : list channel_info)
    (w : run) (tv : xml) :
  (generate_epg_xml net channels w).1 = Some tv →
  tv = Element "tv" tv_attrs JNull
         (omap channel_elem channels ++ (programmes net channels w).1).
Proof.
unfold generate_epg_xml. destruct channels as [|c0 rest]; [done |].
destruct (programmes net (c0 :: rest) w) as [progs w'].
by intros [= <-].
Qed.


(** The second loop of [generate_epg_xml] over two lists of channels, one
    after the other. *)
Lemma programmes_app (net : network) (a b : list channel_info) (w : run) :
  programmes net (a ++ b) w
  = ((programmes net a w).1 ++ (programmes net b (programmes net a w).2).1,
     (programmes net b (programmes net a w).2).2).
Proof.
revert w; induction a as [|c a IH]; intros w.
- cbn [app programmes fst snd]. by destruct (programmes net b w).
- cbn [app programmes]. destruct (channel_programmes net c w) as [here w1].
  rewrite (IH w1). destruct (programmes net a w1) as [x w2]. cbn [fst snd].
  destruct (programmes net b w2) as [y w3]. cbn [fst snd]. by rewrite app_assoc.
Qed.

Lemma programmes_cons (net : network) (c : channel_info) (post : list channel_info)
    (w : run) :
  programmes net (c :: post) w
  = ((channel_programmes net c w).1
     ++ (programmes net post (channel_programmes net c w).2).1,
     (programmes net post (channel_programmes net c w).2).2).
Proof.
cbn [programmes]. destruct (channel_programmes net c w) as [here w1].
cbn [fst snd]. by destruct (programmes net post w1).
Qed.

(** What a channel adds when the answer to its guide request is an object
    with a list under [programs]: the elements of the items of the list,
    in their order. *)
Lemma channel_programmes_list (net : network) (c : channel_info) (w : run)
    (kv : list (string * json)) (items : list json) :
  truthy (id c) = true →
  (fetch_data net (EPG_ENDPOINT +:+ "/" +:+ str (id c)) MAX_RETRIES w).1 = JObj kv →
  lookup "programs" kv = Some (JList items) →
  (channel_programmes net c w).1 = omap (programme_elem (id c)) items.
Proof.
intros Hid Hdata Hp. unfold channel_programmes, get_epg_data. rewrite Hid. cbn [negb].
destruct (fetch_data _ _ _ _) as [data w']. cbn [fst] in Hdata. subst data.
assert (truthy (JObj kv) = true) as -> by (by destruct kv).
rewrite Hp. cbn [len mbind res_bind Py.bind].
by destruct items.
Qed.

(** Where the elements that a channel adds come from. *)
Lemma channel_programmes_response (net : network) (c : channel_info) (w : run)
    (e : xml) :
  e ∈ (channel_programmes net c w).1 →
  ∃ kv items pkv,
    truthy (id c) = true
    ∧ (fetch_data net (EPG_ENDPOINT +:+ "/" +:+ str (id c)) MAX_RETRIES w).1 = JObj kv
    ∧ lookup "programs" kv = Some (JList items)
    ∧ JObj pkv ∈ items
    ∧ programme_elem (id c) (JObj pkv) = Some e.
Proof.
unfold channel_programmes, get_epg_data.
destruct (truthy (id c)); cbn [negb]; [|by intros ?%elem_of_nil].
destruct (fetch_data _ _ _ _) as [data w']. cbn [fst].
destruct data as [| | | | |kv]; try by intros ?%elem_of_nil.
destruct (truthy (JObj kv)); [|by intros ?%elem_of_nil].
destruct (lookup "programs" kv) as [programs|] eqn:Ep; [|by intros ?%elem_of_nil].
destruct (len programs) as [n|]; cbn [mbind res_bind Py.bind];
  [|by intros ?%elem_of_nil].
destruct (truthy programs); cbn [negb]; [|by intros ?%elem_of_nil].
destruct (iter programs) as [items|] eqn:Ei; cbn [fst]; [|by intros ?%elem_of_nil].
intros (p & Hp & He)%list_elem_of_omap.
destruct (programme_elem_Some _ _ _ He) as (pkv & _ & _ & -> & _).
assert (Hstr : ∀ l : list json, Forall (λ x, is_str x = true) l → JObj pkv ∉ l).
{ intros l Hl Hin. by apply (proj1 (Forall_forall _ _) Hl) in Hin. }
destruct programs as [| | |s|l|kv']; cbn [iter] in Ei; try done; injection Ei as <-.
- exfalso. apply (Hstr (chars s)); [|done]. clear. induction s; by constructor.
- by exists kv, l, pkv.
- exfalso. apply (Hstr (map (λ p, JStr p.1) kv')); [|done].
  clear. induction kv'; by constructor.
Qed.

Lemma programmes_response (net : network) (channels : list channel_info) (w : run)
    (e : xml) :
  e ∈ (programmes net channels w).1 →
  ∃ pre c post kv items pkv,
    channels = pre ++ c :: post
    ∧ truthy (id c) = true
    ∧ (fetch_data net (EPG_ENDPOINT +:+ "/" +:+ str (id c)) MAX_RETRIES
         (programmes net pre w).2).1 = JObj kv
    ∧ lookup "programs" kv = Some (JList items)
    ∧ JObj pkv ∈ items
    ∧ programme_elem (id c) (JObj pkv) = Some e.
Proof.
revert w; induction channels as [|c rest IH]; intros w.
- by intros ?%elem_of_nil.
- rewrite programmes_cons. cbn [fst]. intros [He | He]%elem_of_app.
  + destruct (channel_programmes_response _ _ _ _ He)
      as (kv & items & pkv & Hid & Hd & Hp & Hin & Hel).
    by exists [], c, rest, kv, items, pkv.
  + destruct (IH _ He) as (pre & c' & post & kv & items & pkv & -> & Hid & Hd & Hp & Hin & Hel).
    exists (c :: pre), c', post, kv, items, pkv. split_and!; try done.
    by rewrite programmes_cons.
Qed.

(** The guide of a list of channels, seen from one of them. *)
Lemma guide_of_channel (net : network) (pre : list channel_info) (c : channel_info)
    (post : list channel_info) (w : run) (kv : list (string * json)) (items : list json) :
  truthy (id c) = true →
  (fetch_data net (EPG_ENDPOINT +:+ "/" +:+ str (id c)) MAX_RETRIES
     (programmes net pre w).2).1 = JObj kv →
  lookup "programs" kv = Some (JList items) →
  (generate_epg_xml net (pre ++ c :: post) w).1
  = Some (Element "tv" tv_attrs JNull
            (omap channel_elem (pre ++ c :: post)
             ++ (programmes net pre w).1
             ++ omap (programme_elem (id c)) items
             ++ (programmes net post
                   (channel_programmes net c (programmes net pre w).2).2).1)).
Proof.
intros Hid Hd Hp. unfold generate_epg_xml.
destruct (pre ++ c :: post) as [|c0 l] eqn:El; [by destruct pre |]. rewrite <- El.
rewrite programmes_app, programmes_cons. cbn [fst snd].
by rewrite (channel_programmes_list _ _ _ _ _ Hid Hd Hp).
Qed.

Lemma guide_contains (net : network) (pre : list channel_info) (c : channel_info)
    (post : list channel_info) (w : run) (kv : list (string * json))
    (items : list json) (p : json) (e : xml) :
  truthy (id c) = true →
  (fetch_data net (EPG_ENDPOINT +:+ "/" +:+ str (id c)) MAX_RETRIES
     (programmes net pre w).2).1 = JObj kv →
  lookup "programs" kv = Some (JList items) →
  p ∈ items → programme_elem (id c) p = Some e →
  ∃ tv, (generate_epg_xml net (pre ++ c :: post) w).1 = Some tv
        ∧ e ∈ children_of tv ∧ tag_of e = "programme".
Proof.
intros Hid Hd Hp Hin He. eexists.
split; [exact (guide_of_channel _ _ _ post _ _ _ Hid Hd Hp) |].
split.
- cbn [children_of]. rewrite !elem_of_app. right. right. left.
  apply list_elem_of_omap. by exists p.
- by destruct (programme_elem_Some _ _ _ He) as (? & ? & ? & _ & _ & _ & _ & _ & ->).
Qed.

Lemma truthy_text (a : string) : a ≠ EmptyString → truthy (JStr a) = true.
Proof. intros Ha. cbn. by destruct (String.eqb_spec a EmptyString). Qed.

Lemma format_time_text (s out : string) :
  format_time (JStr s) = Ok out → s ≠ EmptyString →
  (out = EmptyString ↔ fromisoformat (iso_text s) = None).
Proof.
intros Hout Hs. pose proof (format_time_empty_iff s) as Hiff. rewrite Hout in Hiff.
split.
- intros ->. by destruct Hiff as [[-> | Hn] _].
- intros Hn. destruct Hiff as [_ Hiff]. specialize (Hiff (or_intror Hn)). congruence.
Qed.

(** C2, as the code has it.
    - Every [programme] element of the guide is the element of a program
      object, an item of the list under [programs] in the answer to the
      guide request of one of the channels; the [startTime] and the
      [endTime] of that object are both present and true, and the [start]
      and [stop] attributes of the element are what [format_time] returns
      for them. For a timestamp that is a string the attribute is empty
      exactly when the timestamp does not parse.
    - The [programme] elements that the guide holds for a channel are the
      elements of the items of that list, in their order, and no other.
    - A program object whose [startTime] or [endTime] is absent or false
      has no element: it is dropped.
    - A program object whose two timestamps are non-empty strings has an
      element, whether they parse or not; the attribute of one that does
      not parse is the empty string.
    - So, in the document: an item of the list whose two timestamps are
      non-empty strings has its element among the children of the root;
      and when every item of the list lacks a timestamp, the document
      holds no element for the channel. *)
Theorem programme_timestamps :
  (∀ net channels w tv e,
     (generate_epg_xml net channels w).1 = Some tv →
     e ∈ children_of tv → tag_of e = "programme" →
     ∃ pre c post kv items pkv start stop,
       channels = pre ++ c :: post
       ∧ (fetch_data net (EPG_ENDPOINT +:+ "/" +:+ str (id c)) MAX_RETRIES
            (programmes net pre w).2).1 = JObj kv
       ∧ lookup "programs" kv = Some (JList items)
       ∧ JObj pkv ∈ items
       ∧ programme_elem (id c) (JObj pkv) = Some e
       ∧ truthy (get "startTime" pkv) = true ∧ truthy (get "endTime" pkv) = true
       ∧ format_time (get "startTime" pkv) = Ok start
       ∧ format_time (get "endTime" pkv) = Ok stop
       ∧ attrib_of e = timed_attrib (id c) start stop
       ∧ (∀ s, get "startTime" pkv = JStr s →
               (start = EmptyString ↔ fromisoformat (iso_text s) = None))
       ∧ (∀ s, get "endTime" pkv = JStr s →
               (stop = EmptyString ↔ fromisoformat (iso_text s) = None)))
  ∧ (∀ net pre c post w kv items,
       truthy (id c) = true →
       (fetch_data net (EPG_ENDPOINT +:+ "/" +:+ str (id c)) MAX_RETRIES
          (programmes net pre w).2).1 = JObj kv →
       lookup "programs" kv = Some (JList items) →
       (generate_epg_xml net (pre ++ c :: post) w).1
       = Some (Element "tv" tv_attrs JNull
                 (omap channel_elem (pre ++ c :: post)
                  ++ (programmes net pre w).1
                  ++ omap (programme_elem (id c)) items
                  ++ (programmes net post
                        (channel_programmes net c (programmes net pre w).2).2).1)))
  ∧ (∀ channel_id kv,
       truthy (get "startTime" kv) = false ∨ truthy (get "endTime" kv) = false →
       programme_elem channel_id (JObj kv) = None)
  ∧ (∀ channel_id kv s t,
       get "startTime" kv = JStr s → s ≠ EmptyString →
       get "endTime" kv = JStr t → t ≠ EmptyString →
       ∃ e, programme_elem channel_id (JObj kv) = Some e
            ∧ attrib_of e = timed_attrib channel_id (format_time_str s) (format_time_str t)
            ∧ (format_time_str s = EmptyString ↔ fromisoformat (iso_text s) = None)
            ∧ (format_time_str t = EmptyString ↔ fromisoformat (iso_text t) = None))
  ∧ (∀ net pre c post w kv items pkv s t,
       truthy (id c) = true →
       (fetch_data net (EPG_ENDPOINT +:+ "/" +:+ str (id c)) MAX_RETRIES
          (programmes net pre w).2).1 = JObj kv →
       lookup "programs" kv = Some (JList items) →
       JObj pkv ∈ items →
       get "startTime" pkv = JStr s → s ≠ EmptyString →
       get "endTime" pkv = JStr t → t ≠ EmptyString →
       ∃ tv e,
         (generate_epg_xml net (pre ++ c :: post) w).1 = Some tv
         ∧ e ∈ children_of tv ∧ tag_of e = "programme"
         ∧ programme_elem (id c) (JObj pkv) = Some e
         ∧ attrib_of e = timed_attrib (id c) (format_time_str s) (format_time_str t))
  ∧ (∀ net pre c post w kv items,
       truthy (id c) = true →
       (fetch_data net (EPG_ENDPOINT +:+ "/" +:+ str (id c)) MAX_RETRIES
          (programmes net pre w).2).1 = JObj kv →
       lookup "programs" kv = Some (JList items) →
       Forall (λ p, ∀ pkv, p = JObj pkv →
                 truthy (get "startTime" pkv) = false
                 ∨ truthy (get "endTime" pkv) = false) items →
       (generate_epg_xml net (pre ++ c :: post) w).1
       = Some (Element "tv" tv_attrs JNull
                 (omap channel_elem (pre ++ c :: post)
                  ++ (programmes net pre w).1
                  ++ (programmes net post
                        (channel_programmes net c (programmes net pre w).2).2).1))).
Proof.
assert (Hdrop : ∀ channel_id kv,
  truthy (get "startTime" kv) = false ∨ truthy (get "endTime" kv) = false →
  programme_elem channel_id (JObj kv) = None).
{ intros channel_id kv Hmiss. cbn [programme_elem].
  by destruct Hmiss as [-> | ->]; [|rewrite orb_true_r]. }
assert (Hkeep : ∀ channel_id kv s t,
  get "startTime" kv = JStr s → s ≠ EmptyString →
  get "endTime" kv = JStr t → t ≠ EmptyString →
  ∃ e, programme_elem channel_id (JObj kv) = Some e
       ∧ attrib_of e = timed_attrib channel_id (format_time_str s) (format_time_str t)).
{ intros channel_id kv s t Hs Hsne Ht Htne. cbn [programme_elem].
  rewrite Hs, Ht, !format_time_JStr, !truthy_text by done. cbn [negb orb].
  by eexists. }
split_and!.
- intros net channels w tv e ->%generate_epg_xml_Some. cbn [children_of].
  intros [(c & _ & Hc)%list_elem_of_omap | He]%elem_of_app Htag.
  { apply channel_elem_tag in Hc. congruence. }
  destruct (programmes_response _ _ _ _ He)
    as (pre & c & post & kv & items & pkv & -> & Hid & Hd & Hp & Hin & Hel).
  destruct (programme_elem_Some _ _ _ Hel)
    as (pkv' & start & stop & [= <-] & Hs & Ht & Fs & Ft & ->).
  exists pre, c, post, kv, items, pkv, start, stop. split_and!; try done.
  + intros s Es. rewrite Es in Fs, Hs. apply (format_time_text _ _ Fs).
    by intros ->.
  + intros s Es. rewrite Es in Ft, Ht. apply (format_time_text _ _ Ft).
    by intros ->.
- intros net pre c post w kv items. apply guide_of_channel.
- exact Hdrop.
- intros channel_id kv s t Hs Hsne Ht Htne.
  destruct (Hkeep channel_id kv s t Hs Hsne Ht Htne) as (e & He & Hattr).
  exists e. split_and!; [done | done | |].
  + apply (format_time_text s); [apply format_time_JStr | done].
  + apply (format_time_text t); [apply format_time_JStr | done].
- intros net pre c post w kv items pkv s t Hid Hd Hp Hin Hs Hsne Ht Htne.
  destruct (Hkeep (id c) pkv s t Hs Hsne Ht Htne) as (e & He & Hattr).
  destruct (guide_contains net pre c post w kv items _ e Hid Hd Hp Hin He)
    as (tv & Htv & Hin' & Htag).
  by exists tv, e.
- intros net pre c post w kv items Hid Hd Hp Hall.
  rewrite (guide_of_channel _ _ _ post _ _ _ Hid Hd Hp). do 4 f_equal.
  assert (Hnone : omap (programme_elem (id c)) items = []).
  { clear Hp Hd. induction Hall as [|p ps Hp' _ IH]; [done |]. cbn [omap list_omap].
    destruct (programme_elem (id c) p) as [e|] eqn:He; [|exact IH].
    destruct (programme_elem_Some _ _ _ He) as (pkv & _ & _ & -> & _).
    by rewrite (Hdrop _ _ (Hp' pkv eq_refl)) in He. }
  by rewrite Hnone.
Qed.

End GuideFacts.

(** Under the reference library, a program whose [startTime] is
    ["not-a-date"] is written into the guide, with an empty [start]. *)
Lemma programme_timestamps_counterexample :
  (Lg.generate_epg_xml Sample.net [Sample.channel] Lg.start).1 = Some Sample.guide
  ∧ Sample.programme ∈ Lg.children_of Sample.guide
  ∧ Lg.attrib_of Sample.programme
    = [("channel", JStr "ch1"); ("start", JStr EmptyString);
       ("stop", JStr "20240101010000 +0000")].
Proof. split_and!; [reflexivity | apply list_elem_of_In; right; left | ]; reflexivity. Qed.

(** The sample guide, from the answer to the one guide request. *)
Lemma programme_timestamps_witness :
  (Lg.generate_epg_xml Sample.net ([] ++ Sample.channel :: []) Lg.start).1
  = Some (Lg.Element "tv" Lg.tv_attrs JNull
            (omap Lg.channel_elem ([] ++ Sample.channel :: [])
             ++ (Lg.programmes Sample.net [] Lg.start).1
             ++ omap (Lg.programme_elem (Lg.id Sample.channel)) [Sample.program]
             ++ (Lg.programmes Sample.net []
                   (Lg.channel_programmes Sample.net Sample.channel
                      (Lg.programmes Sample.net [] Lg.start).2).2).1))
  ∧ ∃ e, Lg.programme_elem (JStr "ch1") Sample.program = Some e
         ∧ Lg.attrib_of e
           = Lg.timed_attrib (JStr "ch1") (Lg.format_time_str "not-a-date")
               (Lg.format_time_str "2024-01-01T01:00:00Z")
         ∧ (Lg.format_time_str "not-a-date" = EmptyString
            ↔ fromisoformat (Lg.iso_text "not-a-date") = None)
         ∧ (Lg.format_time_str "2024-01-01T01:00:00Z" = EmptyString
            ↔ fromisoformat (Lg.iso_text "2024-01-01T01:00:00Z") = None).
Proof.
destruct (programme_timestamps (H := reference_lib)) as (_ & Hdoc & _ & Hkeep & _).
split.
- apply (Hdoc Sample.net [] Sample.channel [] Lg.start
           [("programs", JList [Sample.program])] [Sample.program]); reflexivity.
- apply (Hkeep (JStr "ch1")
           [("startTime", JStr "not-a-date");
            ("endTime", JStr "2024-01-01T01:00:00Z");
            ("title", JStr "News")]
           "not-a-date" "2024-01-01T01:00:00Z"); [reflexivity | discriminate
                                                  | reflexivity | discriminate].
Defined.

Section GenreFacts.
Context `{PyLib}.
Import Lg.




Lemma truthy_JStr (a : string) : a ≠ EmptyString → truthy (JStr a) = true.
Proof. intros Ha. cbn. by destruct (String.eqb_spec a EmptyString). Qed.


End GenreFacts.


(** ** URL resolution *)

Section ResolveFacts.
Context `{PyLib}.
Import Lg.

Lemma https_is_http (s : string) :
  startswith "https:" s = true → startswith "http" s = true.
Proof. by apply startswith_trans. Qed.

Lemma https_truthy (s : string) : startswith "https:" s = true → truthy (JStr s) = true.
Proof. by destruct s. Qed.

Lemma join_unless_http_spec (v r : json) :
  truthy v = true → join_unless_http v = Ok r →
  (∀ s, v = JStr s → startswith "http" s = true → r = v)
  ∧ (r = v ∨ ∃ s, r = JStr s ∧ startswith "https:" s = true)
  ∧ truthy r = true ∧ join_unless_http r = Ok r.
Proof.
intros Hv. unfold join_unless_http.
destruct v as [| | |s| |]; try done. cbn [startswith_any mbind res_bind Py.bind].
destruct (startswith "http" s) eqn:Hs; cbn [negb].
- intros [= <-]. split_and!; try done; [by left |].
  cbn [startswith_any mbind res_bind Py.bind]. by rewrite Hs.
- unfold urljoin. rewrite Hv. change (truthy (JStr BASE_URL)) with true. cbn [negb].
  destruct (url_resolve _ s) as [r'|] eqn:Er; [|done]. intros [= <-].
  destruct (url_resolve_https BASE_URL s r' eq_refl Er) as [-> | Hr'].
  + split_and!; try done; [by left |].
    cbn [startswith_any mbind res_bind Py.bind]. rewrite Hs. cbn [negb].
    rewrite Hv. cbn [negb]. by rewrite Er.
  + split_and!; [intros s0 [= <-] Hs0; congruence | right; by exists r'
               | by apply https_truthy |].
    cbn [startswith_any mbind res_bind Py.bind]. by rewrite https_is_http.
Qed.

Lemma resolve_stream_truthy (v : json) :
  truthy v = true → resolve_stream v = join_unless_http v.
Proof. intros Hv. unfold resolve_stream. by rewrite Hv. Qed.

Lemma resolve_logo_truthy (v : json) :
  truthy v = true → resolve_logo v = join_unless_http v.
Proof. intros Hv. unfold resolve_logo. by rewrite Hv. Qed.

Lemma channel_record_resolved (kv : list (string * json)) (c : channel_info) :
  channel_record (JObj kv) = Ok (Some c) →
  resolve_stream (get_or "streamUrl" (JStr EmptyString) kv) = Ok (stream_url c)
  ∧ resolve_logo (get_or "logoUrl" (JStr EmptyString) kv) = Ok (logo c).
Proof.
unfold channel_record. destruct (truthy (get "id" kv)); cbn [negb]; [|done].
destruct (resolve_stream _) as [u|]; [|done].
destruct (resolve_logo _) as [l|]; [|done].
cbn [mbind res_bind Py.bind]. by intros [= <-].
Qed.

Lemma resolve_stream_spec (v r : json) :
  resolve_stream v = Ok r →
  (∀ s, v = JStr s → startswith "http" s = true → r = v)
  ∧ (r = v ∨ ∃ s, r = JStr s ∧ startswith "https:" s = true)
  ∧ resolve_stream r = Ok r.
Proof.
destruct (truthy v) eqn:Hv.
- rewrite (resolve_stream_truthy v Hv). intros Hr.
  destruct (join_unless_http_spec v r Hv Hr) as (H1 & H2 & H3 & H4).
  split_and!; [done | done |]. by rewrite (resolve_stream_truthy r H3).
- rewrite (resolve_stream_falsy v Hv). intros [= <-]. split_and!.
  + intros s -> Hs. by destruct s.
  + right. by exists BASE_URL.
  + reflexivity.
Qed.

Lemma resolve_logo_spec (v r : json) :
  resolve_logo v = Ok r →
  (∀ s, v = JStr s → startswith "http" s = true → r = v)
  ∧ (r = v ∨ ∃ s, r = JStr s ∧ startswith "https:" s = true)
  ∧ resolve_logo r = Ok r.
Proof.
destruct (truthy v) eqn:Hv.
- rewrite (resolve_logo_truthy v Hv). intros Hr.
  destruct (join_unless_http_spec v r Hv Hr) as (H1 & H2 & H3 & H4).
  split_and!; [done | done |]. by rewrite (resolve_logo_truthy r H3).
- unfold resolve_logo at 1. rewrite Hv. intros [= <-]. split_and!.
  + done.
  + by left.
  + unfold resolve_logo. by rewrite Hv.
Qed.

(** C6, as the code has it.
    - Where the resolution of a stream URL or of a logo URL succeeds, a
      string that starts with [http] is left unchanged; the result is the
      value it was given or a URL under [https:]; and resolving the result
      again returns it unchanged.
    - A string that starts with [http] is its own resolution. Any other
      non-empty string is replaced by what [urljoin] makes of it against
      [BASE_URL], and the resolution fails when [urljoin] does.
    - In the normalized list: every record comes from an object of the
      input; its stream URL and its logo are the resolutions of the
      [streamUrl] and of the [logoUrl] of that object, and resolving them
      again changes nothing. An object with a true id whose two URLs
      resolve is kept, with the resolved URLs. *)
Theorem resolve_url_idempotent :
  (∀ v r, resolve_stream v = Ok r →
     (∀ s, v = JStr s → startswith "http" s = true → r = v)
     ∧ (r = v ∨ ∃ s, r = JStr s ∧ startswith "https:" s = true)
     ∧ resolve_stream r = Ok r)
  ∧ (∀ v r, resolve_logo v = Ok r →
     (∀ s, v = JStr s → startswith "http" s = true → r = v)
     ∧ (r = v ∨ ∃ s, r = JStr s ∧ startswith "https:" s = true)
     ∧ resolve_logo r = Ok r)
  ∧ (∀ s, startswith "http" s = true →
          resolve_stream (JStr s) = Ok (JStr s) ∧ resolve_logo (JStr s) = Ok (JStr s))
  ∧ (∀ s, s ≠ EmptyString → startswith "http" s = false →
          resolve_stream (JStr s)
          = match url_resolve BASE_URL s with
            | Ok r => Ok (JStr r)
            | Raise e => Raise e
            end
          ∧ resolve_logo (JStr s)
            = match url_resolve BASE_URL s with
              | Ok r => Ok (JStr r)
              | Raise e => Raise e
              end)
  ∧ (∀ data c, c ∈ normalize_channels data →
       ∃ kv, JObj kv ∈ data
             ∧ resolve_stream (get_or "streamUrl" (JStr EmptyString) kv)
               = Ok (stream_url c)
             ∧ resolve_logo (get_or "logoUrl" (JStr EmptyString) kv) = Ok (logo c)
             ∧ resolve_stream (stream_url c) = Ok (stream_url c)
             ∧ resolve_logo (logo c) = Ok (logo c))
  ∧ (∀ kv u l, truthy (get "id" kv) = true →
       resolve_stream (get_or "streamUrl" (JStr EmptyString) kv) = Ok u →
       resolve_logo (get_or "logoUrl" (JStr EmptyString) kv) = Ok l →
       ∃ c, normalize_channels [JObj kv] = [c] ∧ stream_url c = u ∧ logo c = l).
Proof.
split_and!.
- apply resolve_stream_spec.
- apply resolve_logo_spec.
- intros s Hs. assert (Ht : truthy (JStr s) = true) by by destruct s.
  unfold resolve_stream, resolve_logo. rewrite Ht. cbn [negb].
  cbn [startswith_any mbind res_bind Py.bind]. by rewrite Hs.
- intros s Hne Hs. pose proof (truthy_text s Hne) as Ht.
  unfold resolve_stream, resolve_logo. rewrite Ht. cbn [negb].
  cbn [startswith_any mbind res_bind Py.bind]. rewrite Hs. cbn [negb].
  unfold urljoin. rewrite Ht. change (truthy (JStr BASE_URL)) with true. by cbn [negb].
- intros data c. rewrite normalize_channels_omap.
  intros (raw & Hraw & Hkept)%list_elem_of_omap.
  apply kept_channel_Some in Hkept.
  destruct (channel_record_id _ _ Hkept) as (kv & -> & _).
  destruct (channel_record_resolved _ _ Hkept) as [Hu Hl].
  exists kv. split_and!; try done.
  + by destruct (resolve_stream_spec _ _ Hu) as (_ & _ & ?).
  + by destruct (resolve_logo_spec _ _ Hl) as (_ & _ & ?).
- intros kv u l Hid Hu Hl. rewrite normalize_channels_omap. cbn [omap list_omap].
  unfold kept_channel, channel_record. rewrite Hid, Hu, Hl.
  cbn [negb mbind res_bind Py.bind]. by eexists.
Qed.

End ResolveFacts.

(** Under the reference library: a relative path that starts with [http]
    stays relative in the record, and an absolute URL whose scheme is
    written in capitals is changed. *)
Lemma resolve_url_idempotent_counterexample :
  Lg.channel_record
    (JObj [("id", JStr "ch1"); ("streamUrl", JStr "http-live/one.m3u8");
           ("logoUrl", JStr "httpd/logo.png")])
  = Ok (Some {| Lg.id := JStr "ch1"; Lg.name := JStr "Channel ch1";
                Lg.number := JStr "0"; Lg.logo := JStr "httpd/logo.png";
                Lg.stream_url := JStr "http-live/one.m3u8";
                Lg.description := JStr EmptyString; Lg.categories := JList [] |})
  ∧ Lg.is_absolute "http-live/one.m3u8" = false
  ∧ Lg.is_absolute "httpd/logo.png" = false
  ∧ Lg.is_absolute "HTTPS://Example.com/a" = true
  ∧ Lg.resolve_stream (JStr "HTTPS://Example.com/a") = Ok (JStr "https://Example.com/a").
Proof. split_and!; reflexivity. Qed.

Lemma resolve_url_idempotent_witness :
  Lg.resolve_logo (JStr "logos/a.png")
  = Ok (JStr "https://channel-lineup.lgchannels.com/logos/a.png")
  ∧ Lg.resolve_logo (JStr "https://channel-lineup.lgchannels.com/logos/a.png")
    = Ok (JStr "https://channel-lineup.lgchannels.com/logos/a.png")
  ∧ Lg.resolve_stream (JStr "https://cdn.example.com/one.m3u8")
    = Ok (JStr "https://cdn.example.com/one.m3u8")
  ∧ ∃ c, Lg.normalize_channels
           [JObj [("id", JStr "ch1"); ("streamUrl", JStr "live/one.m3u8");
                  ("logoUrl", JStr "logos/a.png")]] = [c]
         ∧ Lg.stream_url c = JStr "https://channel-lineup.lgchannels.com/live/one.m3u8"
         ∧ Lg.logo c = JStr "https://channel-lineup.lgchannels.com/logos/a.png".
Proof.
destruct (resolve_url_idempotent (H := reference_lib))
  as (_ & Hlogo & Hhttp & Hjoin & _ & Hkeep).
split_and!.
- destruct (Hjoin "logos/a.png" ltac:(discriminate) eq_refl) as [_ Hl].
  rewrite Hl. reflexivity.
- destruct (Hlogo (JStr "logos/a.png")
              (JStr "https://channel-lineup.lgchannels.com/logos/a.png") eq_refl)
    as (_ & _ & Hagain). exact Hagain.
- exact (proj1 (Hhttp "https://cdn.example.com/one.m3u8" eq_refl)).
- apply (Hkeep [("id", JStr "ch1"); ("streamUrl", JStr "live/one.m3u8");
                ("logoUrl", JStr "logos/a.png")]); reflexivity.
Defined.

(** ** The relay cleaner: the claims *)

Section RelayClaims.
Import Udptv.

Lemma group_labels_contains (s : string) :
  group_labels s ≠ [] → contains "group-title=" s = true.
Proof.
induction s as [|c s IH]; [done |]. intros Hl.
change (contains "group-title=" (String c s))
  with (startswith "group-title=" (String c s) || contains "group-title=" s).
destruct (group_match (String c s)) eqn:E.
- by rewrite (group_match_attr _ _ E).
- rewrite (group_labels_miss _ _ E) in Hl. rewrite (IH Hl). apply orb_true_r.
Qed.

Lemma standardize_keeps_labels (line : string) :
  group_labels line ≠ [] → group_labels (standardize line) ≠ [].
Proof.
intros Hl. rewrite (standardize_labelled _ (group_labels_contains _ Hl)).
rewrite group_labels_re_sub. by destruct (group_labels line).
Qed.

Lemma standardize_inserts_label (line : string) :
  contains "group-title=" line = false → startswith "#EXTINF:" line = true →
  group_labels (standardize line) ≠ [].
Proof.
intros Hc Hs. rewrite (standardize_unlabelled _ Hc), (insert_label_hit _ Hs).
by rewrite group_labels_ins.
Qed.



End RelayClaims.



(** * Further properties of the code *)

(** ** udptv.py: reading, cleaning and writing a playlist *)

Section SplitFacts.
Import Udptv.

Lemma all_chars_app (p : ascii → bool) (a b : string) :
  all_chars p (a +:+ b) = all_chars p a && all_chars p b.
Proof.
induction a as [|c a IH]; [done |]. cbn [String.append all_chars].
by rewrite IH, andb_assoc.
Qed.

Lemma all_chars_sdrop (p : ascii → bool) (n : nat) (s : string) :
  all_chars p s = true → all_chars p (sdrop n s) = true.
Proof.
revert s; induction n as [|n IH]; intros [|c s]; cbn [sdrop all_chars]; try done.
intros [_ Hs]%andb_true_iff. by apply IH.
Qed.

Lemma all_chars_lstrip (p : ascii → bool) (s : string) :
  all_chars p s = true → all_chars p (lstrip s) = true.
Proof.
induction s as [|c s IH]; [done |]. cbn [lstrip].
destruct (isspace c); [|done]. cbn [all_chars]. intros [_ Hs]%andb_true_iff. auto.
Qed.

Lemma all_chars_rstrip (p : ascii → bool) (s : string) :
  all_chars p s = true → all_chars p (rstrip s) = true.
Proof.
induction s as [|c s IH]; [done |]. cbn [rstrip all_chars].
intros [Hc Hs]%andb_true_iff. specialize (IH Hs).
destruct (rstrip s) as [|d r].
- destruct (isspace c); [done |]. cbn [ch all_chars]. by rewrite Hc.
- cbn [all_chars] in *. by rewrite Hc, IH.
Qed.

Lemma all_chars_strip (p : ascii → bool) (s : string) :
  all_chars p s = true → all_chars p (strip s) = true.
Proof. intros Hs. by apply all_chars_rstrip, all_chars_lstrip. Qed.

(** A line and the line feed that ends it. *)
Lemma splitlines_line (l rest : string) :
  no_break l = true →
  splitlines (l +:+ String lf rest) = l :: splitlines rest.
Proof.
unfold splitlines, no_break. induction l as [|c l IH]; intros Hl.
- reflexivity.
- cbn [all_chars] in Hl. apply andb_true_iff in Hl as [Hc Hl].
  cbn [String.append splitlines_go andb].
  apply negb_true_iff in Hc. rewrite Hc. by rewrite (IH Hl).
Qed.

(** The last line, which the end of the text ends. *)
Lemma splitlines_last (l : string) :
  no_break l = true → l ≠ EmptyString → splitlines l = [l].
Proof.
unfold splitlines, no_break. induction l as [|c l IH]; intros Hl Hne; [done |].
cbn [all_chars] in Hl. apply andb_true_iff in Hl as [Hc Hl].
cbn [splitlines_go andb]. apply negb_true_iff in Hc. rewrite Hc.
destruct l as [|d l]; [done |]. by rewrite (IH Hl).
Qed.

Lemma splitlines_join (ls : list string) :
  Forall (λ l, no_break l = true) ls → last ls ≠ Some EmptyString →
  splitlines (join (ch lf) ls) = ls.
Proof.
induction ls as [|x ls IH]; intros Hall Hlast; [done |].
apply Forall_cons in Hall as [Hx Hls].
destruct ls as [|y ls].
- cbn [join]. apply splitlines_last; [done |]. intros ->. by apply Hlast.
- change (join (ch lf) (x :: y :: ls)) with (x +:+ String lf (join (ch lf) (y :: ls))).
  rewrite (splitlines_line _ _ Hx). f_equal. apply IH; [done |].
  by rewrite last_cons_cons in Hlast.
Qed.

(** No line that [splitlines] returns has a line end in it. *)
Lemma splitlines_go_no_break (b : bool) (s : string) :
  Forall (λ l, no_break l = true) (splitlines_go b s).
Proof.
revert b; induction s as [|c s IH]; intros b; [constructor |].
cbn [splitlines_go]. destruct (b && Ascii.eqb c lf); [apply IH |].
destruct (is_linebreak c) eqn:Hc.
- constructor; [done | apply IH].
- specialize (IH false). destruct (splitlines_go false s) as [|l ls].
  + constructor; [|constructor]. unfold no_break. cbn [ch all_chars]. by rewrite Hc.
  + apply Forall_cons in IH as [Hl Hls]. constructor; [|done].
    unfold no_break in *. cbn [all_chars]. by rewrite Hc, Hl.
Qed.

End SplitFacts.

Section RelayLines.
Import Udptv.

Lemma all_chars_re_sub_go (p : ascii → bool) (k : nat) (s : string) :
  all_chars p group_repl = true → all_chars p s = true →
  all_chars p (re_sub_go k s) = true.
Proof.
intros Hr. revert k; induction s as [|c s IH]; intros k Hs; [done |].
cbn [all_chars] in Hs. apply andb_true_iff in Hs as [Hc Hs].
cbn [re_sub_go]. destruct k as [|k]; [|by apply IH].
destruct (group_match (String c s)).
- rewrite all_chars_app, Hr. by apply IH.
- cbn [all_chars]. rewrite Hc. by apply IH.
Qed.

Lemma all_chars_replace_go (p : ascii → bool) (old new : string) (k : nat) (s : string) :
  all_chars p new = true → all_chars p s = true →
  all_chars p (replace_go old new k s) = true.
Proof.
intros Hr. revert k; induction s as [|c s IH]; intros k Hs; [done |].
cbn [all_chars] in Hs. apply andb_true_iff in Hs as [Hc Hs].
cbn [replace_go]. destruct k as [|k]; [|by apply IH].
destruct (startswith old (String c s)).
- rewrite all_chars_app, Hr. by apply IH.
- cbn [all_chars]. rewrite Hc. by apply IH.
Qed.

(** The rewriting of a metadata line brings no line end into it. *)
Lemma no_break_standardize (s : string) :
  no_break s = true → no_break (standardize s) = true.
Proof.
unfold no_break, standardize. intros Hs.
destruct (contains "group-title=" s).
- by apply all_chars_re_sub_go.
- by apply all_chars_replace_go.
Qed.

Lemma no_break_clean_lines (ls : list string) :
  Forall (λ l, no_break l = true) ls →
  Forall (λ l, no_break l = true) (clean_lines ls).1.
Proof.
intros Hls. apply Forall_forall. intros o Ho.
destruct (clean_lines_elem _ _ Ho) as [(l & Hl & _ & ->) | (l & Hl & ->)];
  pose proof (proj1 (Forall_forall _ _) Hls l Hl) as Hb; cbn beta in Hb.
- by apply no_break_standardize, all_chars_strip.
- by apply all_chars_strip.
Qed.

Section WithLib.
Context `{PyLib}.

Lemma no_break_pad2 (n : Z) : no_break (pad2 n) = true.
Proof.
assert (Hd : ∀ c, is_digit c = true → is_linebreak c = false).
{ intros c. unfold is_digit, is_linebreak. cbn zeta.
  destruct (Nat.leb_spec 48 (nat_of_ascii c)), (Nat.leb_spec (nat_of_ascii c) 57);
    cbn [andb]; try done. intros _.
  repeat match goal with
         | |- context [(?a <=? ?b)%nat] => destruct (Nat.leb_spec a b); try lia
         | |- context [(?a =? ?b)%nat] => destruct (Nat.eqb_spec a b); try lia
         end; done. }
unfold no_break, pad2. cbn [all_chars ch].
by rewrite !(Hd _ (digit_is_digit _)).
Qed.

Lemma no_break_strftime_now (now : datetime) :
  1000 ≤ year now ≤ 9999 → no_break (strftime_now now) = true.
Proof.
intros Hy. unfold strftime_now. rewrite (strftime_Y_four _ Hy).
unfold no_break, pad4. rewrite !all_chars_app.
fold (no_break (pad2 (year now / 100))) (no_break (pad2 (year now)))
  (no_break (pad2 (month now))) (no_break (pad2 (day now)))
  (no_break (pad2 (hour now))) (no_break (pad2 (minute now)))
  (no_break (pad2 (second now))).
by rewrite !no_break_pad2.
Qed.

(** What a reader of the written file gets: the two lines of the header,
    then the lines that were saved. *)
Lemma splitlines_save_playlist (now : datetime) (content : list string) :
  1000 ≤ year now ≤ 9999 →
  Forall (λ l, no_break l = true) content → last content ≠ Some EmptyString →
  splitlines (save_playlist now content)
  = header_tvg :: header_updated now :: content.
Proof.
intros Hy Hc Hl. unfold save_playlist.
rewrite !app_assoc_s.
change (ch lf +:+ ?x) with (String lf x).
rewrite splitlines_line by reflexivity.
change (ch lf +:+ ?x) with (String lf x).
rewrite splitlines_line.
- by rewrite splitlines_join.
- unfold header_updated, no_break. rewrite all_chars_app.
  fold (no_break (strftime_now now)). by rewrite no_break_strftime_now.
Qed.

(** The two lines of the header are comment lines for the cleaner. *)
Lemma clean_lines_header (now : datetime) (content : list string) :
  clean_lines (header_tvg :: header_updated now :: content) = clean_lines content.
Proof.
assert (H1 : strip header_tvg = header_tvg) by reflexivity.
assert (H2 : strip (header_updated now) = header_updated now).
{ apply strip_fixed; [reflexivity |].
  unfold header_updated, strftime_now. rewrite <- !app_assoc_s.
  by rewrite tail_ok_app. }
rewrite clean_lines_drop; [| by rewrite H1 | by rewrite H1].
rewrite clean_lines_drop; [done | by rewrite H2 | by rewrite H2].
Qed.

End WithLib.

End RelayLines.

Section RelayFile.
Import Udptv.

Lemma clean_lines_counts (ls : list string) :
  (2 * (clean_lines ls).2 ≤ length (clean_lines ls).1)%nat
  ∧ ((clean_lines ls).2
     ≤ length (filter (λ l, startswith "#EXTINF" (strip l) = true) ls))%nat.
Proof.
remember (length ls) as m eqn:Hm.
revert ls Hm; induction m as [m IH] using lt_wf_ind; intros ls ->.
destruct ls as [|raw rest]; [split; cbn; lia |].
destruct (startswith "#EXTINF" (strip raw)) eqn:Ext.
- rewrite filter_cons_True by exact Ext. cbn [length].
  destruct rest as [|next rest].
  + rewrite (clean_lines_last _ Ext). cbn. lia.
  + destruct (startswith "#" next) eqn:Hh.
    * rewrite (clean_lines_alone _ _ _ Ext Hh). cbn [fst snd length].
      destruct (IH (length (next :: rest)) ltac:(simpl; lia) _ eq_refl). lia.
    * rewrite (clean_lines_pair _ _ _ Ext Hh). cbn [fst snd length].
      destruct (IH (length rest) ltac:(simpl; lia) _ eq_refl) as [H1 H2].
      split; [lia |].
      destruct (decide (startswith "#EXTINF" (strip next) = true)) as [E | E].
      -- rewrite filter_cons_True by exact E. cbn [length]. lia.
      -- rewrite filter_cons_False by exact E. lia.
- assert (Ext' : ¬ startswith "#EXTINF" (strip raw) = true) by congruence.
  rewrite filter_cons_False by exact Ext'.
  destruct (IH (length rest) ltac:(simpl; lia) _ eq_refl) as [H1 H2].
  destruct (is_dropped (strip raw)) eqn:Hd.
  + by rewrite (clean_lines_drop _ _ Ext Hd).
  + rewrite (clean_lines_keep _ _ Ext Hd). cbn [fst snd length]. lia.
Qed.

Lemma clean_lines_hash (ls : list string) :
  Forall (λ l, no_hidden_hash l = true) ls →
  filter (λ o, startswith "#" o = true) (clean_lines ls).1
  = (λ l, standardize (strip l))
      <$> filter (λ l, startswith "#EXTINF" (strip l) = true) ls.
Proof.
remember (length ls) as m eqn:Hm.
revert ls Hm; induction m as [m IH] using lt_wf_ind; intros ls -> Hls.
destruct ls as [|raw rest]; [done |].
apply Forall_cons in Hls as [Hraw Hrest].
destruct (startswith "#EXTINF" (strip raw)) eqn:Ext.
- rewrite filter_cons_True by exact Ext. cbn [fmap list_fmap].
  assert (Hstd : startswith "#" (standardize (strip raw)) = true)
    by (by apply extinf_hash, standardize_extinf).
  destruct rest as [|next rest].
  + rewrite (clean_lines_last _ Ext). cbn [fst].
    by rewrite filter_cons_True by exact Hstd.
  + destruct (startswith "#" next) eqn:Hh.
    * rewrite (clean_lines_alone _ _ _ Ext Hh). cbn [fst].
      rewrite filter_cons_True by exact Hstd. f_equal.
      by apply (IH (length (next :: rest)) ltac:(simpl; lia) _ eq_refl).
    * rewrite (clean_lines_pair _ _ _ Ext Hh). cbn [fst].
      apply Forall_cons in Hrest as [Hnext Hrest].
      unfold no_hidden_hash in Hnext. rewrite Hh in Hnext.
      destruct (startswith "#" (strip next)) eqn:Hs; [done |].
      rewrite filter_cons_True by exact Hstd.
      rewrite filter_cons_False by congruence.
      rewrite filter_cons_False
        by (rewrite (no_hash_not_extinf _ Hs); congruence).
      f_equal. by apply (IH (length rest) ltac:(simpl; lia) _ eq_refl).
- rewrite filter_cons_False by congruence.
  specialize (IH (length rest) ltac:(simpl; lia) _ eq_refl Hrest).
  destruct (is_dropped (strip raw)) eqn:Hd.
  + by rewrite (clean_lines_drop _ _ Ext Hd).
  + rewrite (clean_lines_keep _ _ Ext Hd). cbn [fst].
    rewrite filter_cons_False; [done |]. rewrite (kept_no_hash _ Hd). congruence.
Qed.

End RelayFile.

(** ** The relay cleaner: group labels *)

Section RelayLabels.
Import Udptv.

Lemma hash_strip (l : string) :
  startswith "#" l = true → startswith "#" (strip l) = true.
Proof.
destruct l as [|c r]; [done |]. intros Hc.
assert (c = "#"%char) as ->.
{ cbn in Hc. destruct (Ascii.eqb "#" c) eqn:E; [|done]. by apply Ascii.eqb_eq in E. }
unfold strip. cbn [lstrip]. change (isspace "#") with false. cbn [rstrip].
by destruct (rstrip r).
Qed.

(** Where each cleaned line comes from: it is the rewriting of a metadata
    line, or the copy, with its white space stripped, of a line that does
    not start with [#]. *)
Lemma clean_lines_origin (ls : list string) (o : string) :
  o ∈ (clean_lines ls).1 →
  (∃ l, l ∈ ls ∧ startswith "#EXTINF" (strip l) = true ∧ o = standardize (strip l))
  ∨ (∃ l, l ∈ ls ∧ startswith "#" l = false ∧ o = strip l).
Proof.
remember (length ls) as m eqn:Hm.
revert ls Hm; induction m as [m IH] using lt_wf_ind; intros ls ->.
assert (Hrec : ∀ ls' : list string, (length ls' < length ls)%nat →
  (∀ x, x ∈ ls' → x ∈ ls) → o ∈ (clean_lines ls').1 →
  (∃ l, l ∈ ls ∧ startswith "#EXTINF" (strip l) = true ∧ o = standardize (strip l))
  ∨ (∃ l, l ∈ ls ∧ startswith "#" l = false ∧ o = strip l)).
{ intros ls' Hlt Hsub Ho.
  destruct (IH _ Hlt ls' eq_refl Ho) as [(l & ? & ? & ?) | (l & ? & ? & ?)];
    [left | right]; exists l; auto. }
clear IH. destruct ls as [|raw rest]; [by intros ?%elem_of_nil |].
destruct (startswith "#EXTINF" (strip raw)) eqn:Ext.
- destruct rest as [|next rest].
  + rewrite (clean_lines_last _ Ext). intros ->%list_elem_of_singleton.
    left. exists raw. split; [left | done].
  + destruct (startswith "#" next) eqn:Hh.
    * rewrite (clean_lines_alone _ _ _ Ext Hh). cbn [fst].
      intros [-> | Ho]%elem_of_cons.
      -- left. exists raw. split; [left | done].
      -- apply (Hrec (next :: rest)); [simpl; lia | by right | done].
    * rewrite (clean_lines_pair _ _ _ Ext Hh). cbn [fst].
      intros [-> | [-> | Ho]%elem_of_cons]%elem_of_cons.
      -- left. exists raw. split; [left | done].
      -- right. exists next. split; [right; left | done].
      -- apply (Hrec rest); [simpl; lia | by intros; right; right | done].
- destruct (is_dropped (strip raw)) eqn:Hd.
  + rewrite (clean_lines_drop _ _ Ext Hd).
    apply (Hrec rest); [simpl; lia | by intros; right].
  + rewrite (clean_lines_keep _ _ Ext Hd). cbn [fst].
    intros [-> | Ho]%elem_of_cons.
    * right. exists raw. split_and!; [left | | done].
      destruct (startswith "#" raw) eqn:Hr; [|done].
      apply hash_strip in Hr. by rewrite (kept_no_hash _ Hd) in Hr.
    * apply (Hrec rest); [simpl; lia | by intros; right | done].
Qed.

(** The metadata lines of the result, on a playlist whose comment lines
    start in the first column: the rewritten metadata lines of the
    input. *)
Lemma clean_lines_extinf (ls : list string) :
  Forall (λ l, no_hidden_hash l = true) ls →
  filter (λ o, startswith "#EXTINF" o = true) (clean_lines ls).1
  = (λ l, standardize (strip l))
      <$> filter (λ l, startswith "#EXTINF" (strip l) = true) ls.
Proof.
remember (length ls) as m eqn:Hm.
revert ls Hm; induction m as [m IH] using lt_wf_ind; intros ls -> Hls.
destruct ls as [|raw rest]; [done |].
apply Forall_cons in Hls as [Hraw Hrest].
destruct (startswith "#EXTINF" (strip raw)) eqn:Ext.
- rewrite filter_cons_True by exact Ext. cbn [fmap list_fmap].
  pose proof (standardize_extinf _ Ext) as Hstd.
  destruct rest as [|next rest].
  + rewrite (clean_lines_last _ Ext). cbn [fst].
    by rewrite filter_cons_True by exact Hstd.
  + destruct (startswith "#" next) eqn:Hh.
    * rewrite (clean_lines_alone _ _ _ Ext Hh). cbn [fst].
      rewrite filter_cons_True by exact Hstd. f_equal.
      by apply (IH (length (next :: rest)) ltac:(simpl; lia) _ eq_refl).
    * rewrite (clean_lines_pair _ _ _ Ext Hh). cbn [fst].
      apply Forall_cons in Hrest as [Hnext Hrest].
      unfold no_hidden_hash in Hnext. rewrite Hh in Hnext.
      destruct (startswith "#" (strip next)) eqn:Hs; [done |].
      pose proof (no_hash_not_extinf _ Hs) as Hne.
      rewrite filter_cons_True by exact Hstd.
      rewrite filter_cons_False by congruence.
      rewrite filter_cons_False by congruence.
      f_equal. by apply (IH (length rest) ltac:(simpl; lia) _ eq_refl).
- rewrite filter_cons_False by congruence.
  specialize (IH (length rest) ltac:(simpl; lia) _ eq_refl Hrest).
  destruct (is_dropped (strip raw)) eqn:Hd.
  + by rewrite (clean_lines_drop _ _ Ext Hd).
  + rewrite (clean_lines_keep _ _ Ext Hd). cbn [fst].
    rewrite filter_cons_False; [done |]. congruence.
Qed.

(** C7, as the code has it.
    - In a rewritten metadata line every group label in double quotes is
      the standard one; the line has such a label if it had one before,
      or if it had no [group-title=] and starts with [#EXTINF:]; and
      rewriting it again changes nothing.
    - Every line the cleaner returns is such a rewritten metadata line of
      the input, or the copy, with its white space stripped, of an input
      line that does not start with [#].
    - On a playlist whose comment lines start in the first column, the
      [#EXTINF] lines of the result are the rewritten metadata lines of the
      input, all of them and in their order; so in each of them every
      group label in double quotes is the standard one, and rewriting it
      again changes nothing; and a second pass of the cleaner returns the
      lines of the first unchanged. *)
Theorem relay_group_labels :
  (∀ line,
     Forall (eq GROUP_TITLE) (group_labels (standardize line))
     ∧ (group_labels line ≠ [] → group_labels (standardize line) ≠ [])
     ∧ (contains "group-title=" line = false → startswith "#EXTINF:" line = true →
        group_labels (standardize line) ≠ [])
     ∧ standardize (standardize line) = standardize line)
  ∧ (∀ lines o, o ∈ (clean_playlist lines).1 →
       (∃ l, l ∈ lines ∧ startswith "#EXTINF" (strip l) = true
             ∧ o = standardize (strip l))
       ∨ (∃ l, l ∈ lines ∧ startswith "#" l = false ∧ o = strip l))
  ∧ (∀ lines, Forall (λ l, no_hidden_hash l = true) lines →
       filter (λ o, startswith "#EXTINF" o = true) (clean_playlist lines).1
       = (λ l, standardize (strip l))
           <$> filter (λ l, startswith "#EXTINF" (strip l) = true) lines
       ∧ (∀ o, o ∈ (clean_playlist lines).1 → startswith "#EXTINF" o = true →
            Forall (eq GROUP_TITLE) (group_labels o) ∧ standardize o = o)
       ∧ (clean_playlist (clean_playlist lines).1).1 = (clean_playlist lines).1).
Proof.
split_and!.
- intros line. split_and!.
  + apply standardize_labels.
  + apply standardize_keeps_labels.
  + apply standardize_inserts_label.
  + apply standardize_idempotent.
- intros lines o. rewrite clean_playlist_lines. apply clean_lines_origin.
- intros lines Hl. rewrite !clean_playlist_lines.
  pose proof (clean_lines_extinf lines Hl) as Hext. split_and!.
  + exact Hext.
  + intros o Ho Hstart.
    assert (Hin : o ∈ filter (λ o, startswith "#EXTINF" o = true) (clean_lines lines).1)
      by by apply list_elem_of_filter.
    rewrite Hext in Hin. apply list_elem_of_fmap in Hin as (l & -> & _).
    split; [apply standardize_labels | apply standardize_idempotent].
  + by apply clean_lines_twice.
Qed.

End RelayLabels.

(** An unquoted group label is left as it is; and a metadata line hidden
    behind a space, taken for a URL by the first pass, is rewritten by the
    second. *)
Lemma relay_group_labels_counterexample :
  (Udptv.clean_playlist ["#EXTINF:-1 group-title=News,One"; "http://example.com/one"]).1
  = ["#EXTINF:-1 group-title=News,One"; "http://example.com/one"]
  ∧ contains Udptv.group_repl "#EXTINF:-1 group-title=News,One" = false
  ∧ Udptv.group_labels "#EXTINF:-1 group-title=News,One" = []
  ∧ Udptv.group_labels
      <$> (Udptv.clean_playlist
             ["#EXTINF:-1,One"; " #EXTINF:-1 group-title=" +:+ quoted "X" +:+ ",Two"]).1
    = [[Udptv.GROUP_TITLE]; ["X"]]
  ∧ Udptv.group_labels
      <$> (Udptv.clean_playlist
             (Udptv.clean_playlist
                ["#EXTINF:-1,One";
                 " #EXTINF:-1 group-title=" +:+ quoted "X" +:+ ",Two"]).1).1
    = [[Udptv.GROUP_TITLE]; [Udptv.GROUP_TITLE]].
Proof. split_and!; reflexivity. Qed.

Lemma relay_group_labels_witness :
  let lines := ["#EXTM3U"; "#EXTINF:-1 group-title=" +:+ quoted "News" +:+ ",One";
                "http://example.com/one"; "#EXTINF:-1,Two"; "http://example.com/two"] in
  (Udptv.clean_playlist (Udptv.clean_playlist lines).1).1 = (Udptv.clean_playlist lines).1
  ∧ filter (λ o, startswith "#EXTINF" o = true) (Udptv.clean_playlist lines).1
    = [Udptv.standardize ("#EXTINF:-1 group-title=" +:+ quoted "News" +:+ ",One");
       Udptv.standardize "#EXTINF:-1,Two"]
  ∧ Udptv.group_labels
      (Udptv.standardize ("#EXTINF:-1 group-title=" +:+ quoted "News" +:+ ",One")) ≠ []
  ∧ Udptv.group_labels (Udptv.standardize "#EXTINF:-1,Two") ≠ [].
Proof.
cbn zeta. destruct relay_group_labels as (Hline & _ & Hclean).
destruct (Hclean ["#EXTM3U"; "#EXTINF:-1 group-title=" +:+ quoted "News" +:+ ",One";
                  "http://example.com/one"; "#EXTINF:-1,Two"; "http://example.com/two"])
  as (Hext & _ & Htwice); [repeat constructor |].
split_and!.
- exact Htwice.
- rewrite Hext. reflexivity.
- destruct (Hline ("#EXTINF:-1 group-title=" +:+ quoted "News" +:+ ",One"))
    as (_ & Hkeep & _). apply Hkeep. discriminate.
- destruct (Hline "#EXTINF:-1,Two") as (_ & _ & Hins & _).
  apply Hins; reflexivity.
Defined.

Section RelayProperties.
Import Udptv.
Context `{PyLib}.

(** X1. Reading back the file that the relay writes ([main] of udptv.py:
    [download_playlist], [clean_playlist], [save_playlist]) gives the two
    header lines and then exactly the cleaned lines, when the clock shows
    a year of four digits and the last cleaned line is not empty. (An
    empty last line would be lost: the text would end with the line feed
    that [join] puts before it.) *)
Theorem relay_file_reads_back (body : string) (now : datetime) :
  1000 ≤ year now ≤ 9999 →
  last (clean_playlist (splitlines body)).1 ≠ Some EmptyString →
  splitlines <$> main (Some body) now
  = Some (header_tvg :: header_updated now :: (clean_playlist (splitlines body)).1).
Proof.
intros Hy Hl. unfold main, download_playlist. cbn [fmap option_fmap option_map mbind option_bind].
f_equal. apply splitlines_save_playlist; [done | | done].
rewrite clean_playlist_lines. apply no_break_clean_lines, splitlines_go_no_break.
Qed.

(** X2. Running the relay on the file it wrote gives the same file again
    (with the header of the second run), when every comment line of the
    source starts in the first column, the clock of the first run shows a
    year of four digits and the last cleaned line is not empty. *)
Theorem relay_rerun_same_file (body : string) (now later : datetime) :
  1000 ≤ year now ≤ 9999 →
  Forall (λ l, no_hidden_hash l = true) (splitlines body) →
  last (clean_playlist (splitlines body)).1 ≠ Some EmptyString →
  main (main (Some body) now) later = main (Some body) later.
Proof.
intros Hy Hh Hl. unfold main, download_playlist.
cbn [fmap option_fmap option_map mbind option_bind]. f_equal. f_equal.
rewrite !clean_playlist_lines in *.
rewrite splitlines_save_playlist; [| done | | done].
- rewrite clean_lines_header. by apply clean_lines_twice.
- apply no_break_clean_lines, splitlines_go_no_break.
Qed.

(** X3. [clean_playlist] returns at most one line for each line it
    reads; every channel it counts stands for two lines of what it
    returns; and it counts at most one channel for each metadata line of
    the input. *)
Theorem relay_counts (lines : list string) :
  let out := clean_playlist lines in
  (length out.1 ≤ length lines)%nat
  ∧ (2 * out.2 ≤ length out.1)%nat
  ∧ (out.2 ≤ length (filter (λ l, startswith "#EXTINF" (strip l) = true) lines))%nat.
Proof.
cbn zeta. rewrite clean_playlist_lines.
destruct (clean_lines_counts lines) as [H1 H2].
split_and!; [apply clean_lines_length | exact H1 | exact H2].
Qed.

(** X4. On a playlist whose comment lines start in the first column, the
    lines of the result that start with [#] are the rewritten metadata
    lines of the input, all of them and in their order: no metadata line
    is lost, and no other comment or header line is kept. *)
Theorem relay_hash_lines (lines : list string) :
  Forall (λ l, no_hidden_hash l = true) lines →
  filter (λ o, startswith "#" o = true) (clean_playlist lines).1
  = (λ l, standardize (strip l))
      <$> filter (λ l, startswith "#EXTINF" (strip l) = true) lines.
Proof. intros Hl. rewrite clean_playlist_lines. by apply clean_lines_hash. Qed.

(** X5. Every line that the relay keeps from a downloaded text is free of
    white space at both ends and has no line end in it, so that each is
    one line of the file written. *)
Theorem relay_lines_clean (body o : string) :
  o ∈ (clean_playlist (splitlines body)).1 →
  strip o = o ∧ no_break o = true.
Proof.
rewrite clean_playlist_lines. intros Ho. split.
- by apply (clean_lines_stripped (splitlines body)).
- pose proof (no_break_clean_lines _ (splitlines_go_no_break false body)) as Hb.
  by apply (proj1 (Forall_forall _ _) Hb).
Qed.

End RelayProperties.

Lemma relay_file_reads_back_witness :
  let body := "#EXTM3U" +:+ ch lf +:+ "#EXTINF:-1,One" +:+ ch lf
              +:+ " http://example.com/one " +:+ ch lf in
  let now := {| year := 2024; month := 1; day := 2; hour := 3; minute := 4;
                second := 5; microsecond := 0; utcoffset := None |} in
  Udptv.splitlines <$> Udptv.main (Some body) now
  = Some [Udptv.header_tvg; "# Last Updated: 2024-01-02 03:04:05 UTC";
          Udptv.standardize "#EXTINF:-1,One"; "http://example.com/one"].
Proof.
cbn zeta. rewrite relay_file_reads_back; [reflexivity | cbn; lia | vm_compute; discriminate].
Defined.

Lemma relay_rerun_same_file_witness :
  let body := "#EXTM3U" +:+ ch lf +:+ "#EXTINF:-1,One" +:+ ch lf
              +:+ " http://example.com/one " +:+ ch lf in
  let now := {| year := 2024; month := 1; day := 2; hour := 3; minute := 4;
                second := 5; microsecond := 0; utcoffset := None |} in
  let later := {| year := 2024; month := 1; day := 3; hour := 3; minute := 4;
                  second := 5; microsecond := 0; utcoffset := None |} in
  Udptv.main (Udptv.main (Some body) now) later = Udptv.main (Some body) later.
Proof.
cbn zeta. apply relay_rerun_same_file.
- cbn; lia.
- vm_compute. repeat constructor.
- vm_compute. discriminate.
Defined.

Lemma relay_hash_lines_witness :
  filter (λ o, startswith "#" o = true)
    (Udptv.clean_playlist
       ["#EXTM3U"; "# a comment"; "#EXTINF:-1,One "; "http://example.com/one"]).1
  = [Udptv.standardize "#EXTINF:-1,One"].
Proof.
rewrite relay_hash_lines; [reflexivity |].
repeat constructor.
Defined.

Lemma relay_lines_clean_witness :
  strip "http://example.com/one" = "http://example.com/one"
  ∧ Udptv.no_break "http://example.com/one" = true.
Proof.
apply (relay_lines_clean
         ("#EXTINF:-1,One" +:+ ch lf +:+ " http://example.com/one " +:+ ch lf)).
vm_compute. right. left.
Defined.

(** ** lg.py: fetching *)

Section FetchWaits.
Import Lg.

Lemma slept_app (a b : list event) : slept (a ++ b) = slept a + slept b.
Proof.
induction a as [|[url | seconds] a IH]; cbn [app slept]; [done | done |].
rewrite IH. lia.
Qed.

(** The sleeps between [n] attempts add up to [RETRY_DELAY] times the sum
    of the numbers of the attempts that failed. *)
Lemma slept_attempts_from (url : string) (attempt : Z) (k : nat) :
  2 * slept (attempts_from url attempt (S k))
  = RETRY_DELAY * (Z.of_nat k * (2 * attempt + Z.of_nat k + 1)).
Proof.
revert attempt; induction k as [|k IH]; intros attempt.
- cbn. lia.
- change (attempts_from url attempt (S (S k)))
    with (HttpGet url :: Sleep (RETRY_DELAY * (attempt + 1))
          :: attempts_from url (attempt + 1) (S k)).
  cbn [slept]. specialize (IH (attempt + 1)). nia.
Qed.

Lemma fetch_loop_first_success (net : network) (url : string) (retries : Z)
    (fuel : nat) (attempt : Z) (w : run) (k : nat) (body : json) :
  attempt + Z.of_nat fuel = retries + 1 → (k < fuel)%nat →
  (∀ i, (i < k)%nat → net (requests w + i)%nat = RequestException) →
  net (requests w + k)%nat = Response body →
  fetch_loop net url retries fuel attempt w
  = (body, {| requests := requests w + S k;
              events := events w ++ attempts_from url attempt (S k) |}).
Proof.
revert fuel attempt w; induction k as [|k IH]; intros fuel attempt w Hfuel Hk Hfail Hok.
- destruct fuel as [|fuel]; [lia |]. cbn [fetch_loop].
  rewrite Nat.add_0_r in Hok. rewrite Hok. unfold request. do 2 f_equal. lia.
- destruct fuel as [|fuel]; [lia |]. cbn [fetch_loop].
  pose proof (Hfail O ltac:(lia)) as H0. rewrite Nat.add_0_r in H0. rewrite H0.
  destruct (Z.eqb_spec attempt retries) as [-> | Hne]; [lia |].
  rewrite (IH fuel (attempt + 1)); [| lia | lia | |].
  + cbn [requests events sleep request]. do 2 f_equal; [lia |].
    by rewrite <- !app_assoc.
  + intros i Hi. cbn [requests sleep request].
    replace (S (requests w) + i)%nat with (requests w + S i)%nat by lia.
    apply Hfail. lia.
  + cbn [requests sleep request].
    by replace (S (requests w) + k)%nat with (requests w + S k)%nat by lia.
Qed.

(** X6. When the first [k] requests of a fetch fail and the next one is
    answered, with [k] at most [retries], [fetch_data] returns the body of
    that answer after [k + 1] requests to the URL, and has slept
    [RETRY_DELAY * (1 + ... + k)] seconds in between. *)
Theorem fetch_data_first_success (net : network) (url : string) (retries : Z)
    (w : run) (k : nat) (body : json) :
  Z.of_nat k ≤ retries →
  (∀ i, (i < k)%nat → net (requests w + i)%nat = RequestException) →
  net (requests w + k)%nat = Response body →
  let out := fetch_data net url retries w in
  out.1 = body
  ∧ requests out.2 = (requests w + k + 1)%nat
  ∧ events out.2 = events w ++ attempts_from url 0 (S k)
  ∧ 2 * slept (events out.2)
    = 2 * slept (events w) + RETRY_DELAY * (Z.of_nat k * (Z.of_nat k + 1)).
Proof.
intros Hk Hfail Hok. cbn zeta. unfold fetch_data.
rewrite (fetch_loop_first_success net url retries _ 0 w k body); [| lia | lia | done | done].
cbn [fst snd requests events]. split_and!; [done | lia | done |].
rewrite slept_app, Z.mul_add_distr_l, slept_attempts_from. lia.
Qed.

(** X7. However the network answers, one call of [fetch_data] makes at
    most [retries + 1] requests and sleeps at most
    [RETRY_DELAY * (1 + ... + retries)] seconds; with a negative [retries]
    it makes no request at all and returns [None]. *)
Theorem fetch_data_budget (net : network) (url : string) (retries : Z) (w : run) :
  let out := fetch_data net url retries w in
  (0 ≤ retries →
   (requests out.2 ≤ requests w + Z.to_nat (retries + 1))%nat
   ∧ 2 * slept (events out.2)
     ≤ 2 * slept (events w) + RETRY_DELAY * (retries * (retries + 1)))
  ∧ (retries < 0 → out = (JNull, w)).
Proof.
cbn zeta. split.
- intros Hr. unfold fetch_data.
  destruct (fetch_loop_spec net url retries (Z.to_nat (retries + 1)) 0 w ltac:(lia))
    as (n & Hn & Hpos & Hreq & Hev & _).
  cbn zeta in *. rewrite Hreq, Hev, slept_app. split; [lia |].
  destruct n as [|n]; [cbn; unfold RETRY_DELAY; nia |].
  pose proof (slept_attempts_from url 0 n) as Hs. unfold RETRY_DELAY in *. nia.
- intros Hr. unfold fetch_data. by replace (Z.to_nat (retries + 1)) with O by lia.
Qed.

End FetchWaits.

Lemma fetch_data_first_success_witness :
  let net := λ n : nat, match n with
                        | 2%nat => Lg.Response (JList [JStr "ok"])
                        | _ => Lg.RequestException
                        end in
  let out := Lg.fetch_data net Lg.CHANNELS_ENDPOINT Lg.MAX_RETRIES Lg.start in
  out.1 = JList [JStr "ok"] ∧ Lg.requests out.2 = 3%nat
  ∧ Lg.slept (Lg.events out.2) = 6.
Proof.
cbn zeta.
destruct (fetch_data_first_success
            (λ n : nat, match n with
                        | 2%nat => Lg.Response (JList [JStr "ok"])
                        | _ => Lg.RequestException
                        end)
            Lg.CHANNELS_ENDPOINT Lg.MAX_RETRIES Lg.start 2 (JList [JStr "ok"]))
  as (H1 & H2 & _ & H4).
- unfold Lg.MAX_RETRIES. lia.
- intros [|[|i]] Hi; [reflexivity | reflexivity | lia].
- reflexivity.
- cbn zeta in *. split_and!; [exact H1 | exact H2 |].
  cbn [Lg.start Lg.events Lg.slept] in H4. unfold Lg.RETRY_DELAY in H4. lia.
Defined.

Lemma fetch_data_budget_witness :
  let out := Lg.fetch_data (λ _, Lg.RequestException) Lg.CHANNELS_ENDPOINT
               Lg.MAX_RETRIES Lg.start in
  (Lg.requests out.2 ≤ 4)%nat ∧ 2 * Lg.slept (Lg.events out.2) ≤ 24.
Proof.
cbn zeta.
destruct (fetch_data_budget (λ _, Lg.RequestException) Lg.CHANNELS_ENDPOINT
            Lg.MAX_RETRIES Lg.start) as [Hb _].
destruct (Hb ltac:(unfold Lg.MAX_RETRIES; lia)) as [H1 H2].
split; [exact H1 | exact H2].
Defined.

(** ** lg.py: the channel list and the playlist *)

Section PlaylistFacts.
Context `{PyLib}.
Import Lg.

Lemma join_unless_http_text (v r : json) :
  truthy v = true → join_unless_http v = Ok r →
  ∃ s, r = JStr s ∧ s ≠ EmptyString.
Proof.
intros Hv Hr. destruct (join_unless_http_spec v r Hv Hr) as (_ & _ & Ht & Hagain).
destruct r as [| | |s| |]; try done. exists s. split; [done |]. by intros ->.
Qed.

Lemma channel_record_urls (raw : json) (c : channel_info) :
  channel_record raw = Ok (Some c) →
  (∃ s, stream_url c = JStr s ∧ s ≠ EmptyString)
  ∧ (truthy (logo c) = true → ∃ s, logo c = JStr s ∧ s ≠ EmptyString).
Proof.
unfold channel_record. destruct raw as [| | | | |kv]; try done.
destruct (truthy (get "id" kv)); cbn [negb]; [|done].
destruct (resolve_stream _) as [u|] eqn:Eu; [|done].
destruct (resolve_logo _) as [l|] eqn:El; [|done].
cbn [mbind res_bind Py.bind]. intros [= <-]. cbn [stream_url logo]. split.
- destruct (truthy (get_or "streamUrl" (JStr EmptyString) kv)) eqn:Hv.
  + rewrite (resolve_stream_truthy _ Hv) in Eu. by apply (join_unless_http_text _ _ Hv).
  + rewrite (resolve_stream_falsy _ Hv) in Eu. injection Eu as <-. by exists BASE_URL.
- intros Hl. destruct (truthy (get_or "logoUrl" (JStr EmptyString) kv)) eqn:Hv.
  + rewrite (resolve_logo_truthy _ Hv) in El. by apply (join_unless_http_text _ _ Hv).
  + unfold resolve_logo in El. rewrite Hv in El. injection El as <-. congruence.
Qed.

Lemma get_channels_normalized (net : network) (w : run) (c : channel_info) :
  c ∈ (get_channels net w).1 → ∃ raw, channel_record raw = Ok (Some c).
Proof.
unfold get_channels. destruct (fetch_data _ _ _ _) as [data w'].
assert (Hn : ∀ l, c ∈ normalize_channels l → ∃ raw, channel_record raw = Ok (Some c)).
{ intros l. rewrite normalize_channels_omap.
  intros (raw & _ & Hraw)%list_elem_of_omap. exists raw. by apply kept_channel_Some. }
destruct data as [| | | |[|x l]|]; cbn [fst]; try by intros ?%elem_of_nil.
apply Hn.
Qed.

(** [strings] succeeds on the lists of strings and on no other list. *)
Lemma strings_Ok (l : list json) (ss : list string) :
  strings l = Ok ss ↔ l = JStr <$> ss.
Proof.
revert ss; induction l as [|x l IH]; intros ss.
- cbn. split; [intros [= <-]; done | by destruct ss].
- destruct x as [| | |s| |]; cbn [strings];
    try (split; [done | by destruct ss]).
  destruct (strings l) as [r|e] eqn:Er.
  + split.
    * intros [= <-]. cbn. f_equal. by apply IH.
    * destruct ss as [|s' ss]; [done |]. cbn. intros [= -> Hl].
      apply IH in Hl. by injection Hl as ->.
  + split; [done |]. destruct ss as [|s' ss]; [done |]. cbn. intros [= -> Hl].
    apply IH in Hl. done.
Qed.

Lemma strings_raises (l : list json) (e : exn) : strings l = Raise e → e = TypeError.
Proof.
induction l as [|x l IH]; [done |].
destruct x as [| | |s| |]; cbn [strings]; try by intros [= <-].
destruct (strings l); [done |]. intros [= <-]. by apply IH.
Qed.

(** What the loop over the channels appends: two lines for each channel
    that has a true stream URL. *)
Lemma m3u_entries_spec (acc : list json) (channels : list channel_info) (ls : list json) :
  m3u_entries acc channels = Ok ls →
  ∃ exts : list string,
    Forall2 (λ c e, extinf_line c = Ok e)
      (filter (λ c, truthy (stream_url c) = true) channels) exts
    ∧ ls = acc ++ concat (zip_with (λ c e, [JStr e; stream_url c])
                            (filter (λ c, truthy (stream_url c) = true) channels) exts).
Proof.
revert acc; induction channels as [|c rest IH]; intros acc.
- cbn. intros [= <-]. exists []. split; [constructor | by rewrite app_nil_r].
- cbn [m3u_entries]. destruct (truthy (stream_url c)) eqn:Hs; cbn [negb].
  + destruct (extinf_line c) as [e|] eqn:Ee; [|done].
    cbn [mbind res_bind Py.bind]. intros (exts & Hall & ->)%IH.
    exists (e :: exts). rewrite filter_cons_True by done. split.
    * by constructor.
    * cbn [zip_with concat]. by rewrite <- app_assoc.
  + intros (exts & Hall & ->)%IH. exists exts.
    rewrite filter_cons_False by congruence. done.
Qed.

Lemma m3u_entries_raises (acc : list json) (channels : list channel_info) (e : exn) :
  m3u_entries acc channels = Raise e →
  ∃ c, c ∈ channels ∧ truthy (stream_url c) = true
       ∧ group_title (categories c) = Raise e.
Proof.
revert acc; induction channels as [|c rest IH]; intros acc; [done |].
cbn [m3u_entries]. destruct (truthy (stream_url c)) eqn:Hs; cbn [negb].
- destruct (extinf_line c) as [x|e0] eqn:Ee; cbn [mbind res_bind Py.bind].
  + intros (c' & Hc & ?)%IH. exists c'. split; [by right | done].
  + intros [= ->]. exists c. unfold extinf_line in Ee.
    destruct (group_title (categories c)) as [g|e'] eqn:Eg; [done |].
    cbn [mbind res_bind Py.bind] in Ee. injection Ee as ->.
    split_and!; try done. by left.
- intros (c' & Hc & ?)%IH. exists c'. split; [by right | done].
Qed.

Lemma group_title_raises (cats : json) (e : exn) :
  group_title cats = Raise e → e = TypeError.
Proof.
unfold group_title. destruct (truthy cats); [|done].
destruct (iter cats) as [items|e0] eqn:Ei; cbn [mbind res_bind Py.bind].
- destruct (filter _ items) as [|x kept]; [done |].
  destruct (strings (x :: kept)) as [ss|e0] eqn:Es; [done |].
  intros [= <-]. by apply (strings_raises _ _ Es).
- intros [= <-]. destruct cats; cbn in Ei; congruence.
Qed.

Lemma generate_m3u_playlist_raises (channels : list channel_info) (e : exn) :
  generate_m3u_playlist channels = Raise e → e = TypeError.
Proof.
unfold generate_m3u_playlist, m3u_lines. destruct channels as [|c rest]; [done |].
destruct (m3u_entries _ _) as [ls|e0] eqn:El; cbn [mbind res_bind Py.bind].
- destruct (strings ls) as [ss|e0] eqn:Es; [done |].
  intros [= <-]. by apply (strings_raises _ _ Es).
- intros [= <-]. destruct (m3u_entries_raises _ _ _ El) as (c' & _ & _ & Hg).
  by apply (group_title_raises _ _ Hg).
Qed.

(** The lines joined by line feeds, with a line feed after the last. *)
Lemma join_lines (x : string) (l : list string) :
  join (ch lf) (x :: l) +:+ ch lf
  = x +:+ ch lf +:+ foldr (λ s t, s +:+ ch lf +:+ t) EmptyString l.
Proof.
revert x; induction l as [|y l IH]; intros x.
- cbn [join foldr]. by rewrite app_empty_r.
- change (join (ch lf) (x :: y :: l)) with (x +:+ ch lf +:+ join (ch lf) (y :: l)).
  rewrite !app_assoc_s, IH. done.
Qed.

Lemma entry_lines (cs : list channel_info) (exts ss : list string) :
  Forall2 (λ c e, extinf_line c = Ok e) cs exts →
  JStr <$> ss = concat (zip_with (λ c e, [JStr e; stream_url c]) cs exts) →
  ∃ entries : list (string * string),
    Forall2 (λ c e, extinf_line c = Ok e.1 ∧ stream_url c = JStr e.2) cs entries
    ∧ ss = concat ((λ e, [e.1; e.2]) <$> entries).
Proof.
intros Hall. revert ss; induction Hall as [|c e cs exts He Hall IH]; intros ss.
- destruct ss; [|done]. intros _. exists []. split; [constructor | done].
- cbn [zip_with concat app]. destruct ss as [|s1 [|s2 ss]]; try done.
  cbn [fmap list_fmap]. intros [= <- Hu Hrest].
  destruct (IH ss Hrest) as (entries & Hent & ->).
  exists ((s1, s2) :: entries). split; [by constructor | done].
Qed.

Lemma m3u_entries_ok (acc : list string) (channels : list channel_info) :
  Forall (λ c, (∃ e, extinf_line c = Ok e) ∧ ∃ u, stream_url c = JStr u) channels →
  ∃ ss, m3u_entries (JStr <$> acc) channels = Ok (JStr <$> ss).
Proof.
revert acc; induction channels as [|c rest IH]; intros acc Hall.
- by exists acc.
- apply Forall_cons in Hall as [[[e He] [u Hu]] Hrest]. cbn [m3u_entries].
  destruct (truthy (stream_url c)); cbn [negb]; [|by apply IH].
  rewrite He, Hu. cbn [mbind res_bind Py.bind].
  replace ((JStr <$> acc) ++ [JStr e; JStr u]) with (JStr <$> (acc ++ [e; u]))
    by by rewrite fmap_app.
  by apply IH.
Qed.

Lemma filter_truthy_strings (l : list string) :
  filter (λ c, truthy c = true) (JStr <$> l) = JStr <$> filter (λ s, s ≠ EmptyString) l.
Proof.
induction l as [|s l IH]; [done |]. rewrite fmap_cons.
destruct (decide (s = EmptyString)) as [-> | Hs].
- rewrite filter_cons_False by done. rewrite filter_cons_False by (intros Hn; by apply Hn).
  exact IH.
- rewrite filter_cons_True by by apply truthy_JStr.
  rewrite (filter_cons_True (λ s, s ≠ EmptyString)) by done.
  by rewrite fmap_cons, IH.
Qed.

Lemma group_title_strings (l : list string) :
  group_title (JList (JStr <$> l))
  = Ok match filter (λ s, s ≠ EmptyString) l with
       | [] => EmptyString
       | kept => "group-title=" +:+ quoted (join "," kept) +:+ " "
       end.
Proof.
unfold group_title. destruct l as [|s l]; [done |].
change (truthy (JList (JStr <$> s :: l))) with true.
cbn [iter mbind res_bind Py.bind]. rewrite filter_truthy_strings.
destruct (filter _ (s :: l)) as [|k kept] eqn:Ek; [done |].
rewrite fmap_cons, <- (fmap_cons JStr).
by rewrite (proj2 (strings_Ok _ (k :: kept)) eq_refl).
Qed.

Lemma generate_ok_extinf (channels : list channel_info) (text : string) :
  generate_m3u_playlist channels = Ok text →
  ∀ c, c ∈ channels → truthy (stream_url c) = true → ∃ e, extinf_line c = Ok e.
Proof.
intros Htext c Hc Hs. unfold generate_m3u_playlist, m3u_lines in Htext.
destruct channels as [|c0 rest]; [by apply elem_of_nil in Hc |].
destruct (m3u_entries _ _) as [ls|] eqn:El; [|done].
apply m3u_entries_spec in El as (exts & Hexts & _).
assert (Hin : c ∈ filter (λ c, truthy (stream_url c) = true) (c0 :: rest))
  by by apply list_elem_of_filter.
apply list_elem_of_lookup in Hin as [i Hi].
destruct (Forall2_lookup_l _ _ _ _ _ Hexts Hi) as (e & _ & He). by exists e.
Qed.

(** The generator raises nothing on what [get_channels] returns when the
    categories of every record are a list of strings. *)
Lemma generate_m3u_playlist_ok (net : network) (w : run) :
  Forall (λ c, ∃ l : list string, categories c = JList (JStr <$> l))
    (get_channels net w).1 →
  ∃ text, generate_m3u_playlist (get_channels net w).1 = Ok text.
Proof.
intros Hcats. set (channels := (get_channels net w).1) in *.
assert (Hgood : Forall (λ c, (∃ e, extinf_line c = Ok e) ∧ ∃ u, stream_url c = JStr u)
                  channels).
{ apply Forall_forall. intros c Hc. split.
  - destruct (proj1 (Forall_forall _ _) Hcats c Hc) as [l Hl].
    unfold extinf_line. rewrite Hl, group_title_strings.
    cbn [mbind res_bind Py.bind]. by eexists.
  - apply get_channels_normalized in Hc as [raw Hraw].
    destruct (channel_record_urls _ _ Hraw) as [(s & Hs & _) _]. by exists s. }
unfold generate_m3u_playlist, m3u_lines.
destruct channels as [|c0 rest]; [by eexists |].
destruct (m3u_entries_ok [m3u_header] _ Hgood) as [ss Hss].
cbn [fmap list_fmap] in Hss. rewrite Hss. cbn [mbind res_bind Py.bind].
rewrite (proj2 (strings_Ok _ ss) eq_refl). by eexists.
Qed.



End PlaylistFacts.

Section PlaylistProperties.
Context `{PyLib}.
Import Lg.

(** X8. Every record that [get_channels] returns has a stream URL that
    is a non-empty string, and a logo that is a non-empty string whenever
    it is true. So the playlist generator passes over none of them: its
    lines are the header and two lines for each channel. *)
Theorem normalized_channels_have_urls (net : network) (w : run) :
  let channels := (get_channels net w).1 in
  Forall (λ c, (∃ s, stream_url c = JStr s ∧ s ≠ EmptyString)
               ∧ (truthy (logo c) = true → ∃ s, logo c = JStr s ∧ s ≠ EmptyString))
    channels
  ∧ filter (λ c, truthy (stream_url c) = true) channels = channels
  ∧ (∀ ls, m3u_lines channels = Ok ls → length ls = (1 + 2 * length channels)%nat).
Proof.
cbn zeta.
assert (Hall : Forall (λ c, (∃ s, stream_url c = JStr s ∧ s ≠ EmptyString)
               ∧ (truthy (logo c) = true → ∃ s, logo c = JStr s ∧ s ≠ EmptyString))
    (get_channels net w).1).
{ apply Forall_forall. intros c [raw Hraw]%get_channels_normalized.
  by apply (channel_record_urls raw). }
assert (Hfil : filter (λ c, truthy (stream_url c) = true) (get_channels net w).1
               = (get_channels net w).1).
{ induction Hall as [|c cs [(s & Hs & Hne) _] _ IH]; [done |].
  rewrite filter_cons_True by (rewrite Hs; by apply truthy_JStr). by rewrite IH. }
split_and!; [done | done |].
intros ls (exts & Hexts & ->)%m3u_entries_spec. rewrite Hfil in *.
apply Forall2_length in Hexts. cbn [length app]. f_equal.
revert Hexts. generalize (get_channels net w).1. clear.
intros cs; revert exts; induction cs as [|c cs IH]; intros [|e exts]; cbn; try done.
intros [= Hl]. rewrite (IH _ Hl). lia.
Qed.

(** X9. The text of the playlist: the header line, then for each channel
    with a true stream URL, in the order of the list, its [#EXTINF] line
    and its URL, every line ended by a line feed. For the empty list it is
    the bare [#EXTM3U], without a line feed. *)
Theorem playlist_text (channels : list channel_info) (text : string) :
  generate_m3u_playlist channels = Ok text →
  (channels = [] → text = "#EXTM3U")
  ∧ (channels ≠ [] →
     ∃ entries : list (string * string),
       Forall2 (λ c e, extinf_line c = Ok e.1 ∧ stream_url c = JStr e.2)
         (filter (λ c, truthy (stream_url c) = true) channels) entries
       ∧ text = m3u_header +:+ ch lf
                +:+ foldr (λ e t, e.1 +:+ ch lf +:+ e.2 +:+ ch lf +:+ t)
                      EmptyString entries).
Proof.
intros Htext. split.
- intros ->. by injection Htext as <-.
- intros Hne. unfold generate_m3u_playlist, m3u_lines in Htext.
  destruct channels as [|c0 rest]; [done |]. clear Hne.
  destruct (m3u_entries _ _) as [ls|] eqn:El; [|done].
  cbn [mbind res_bind Py.bind] in Htext.
  destruct (strings ls) as [ss|] eqn:Es; [|done].
  cbn [mbind res_bind Py.bind] in Htext. injection Htext as <-.
  apply m3u_entries_spec in El as (exts & Hexts & ->).
  apply strings_Ok in Es. destruct ss as [|hd ss]; [done |].
  cbn [app fmap list_fmap] in Es. injection Es as <- Hss.
  destruct (entry_lines _ _ _ Hexts (eq_sym Hss)) as (entries & Hent & ->).
  exists entries. split; [done |]. rewrite join_lines. do 2 f_equal.
  clear. induction entries as [|e entries IH]; [done |].
  cbn [fmap list_fmap concat app foldr]. by rewrite IH.
Qed.

(** X10. The group label of a channel whose categories are a list of
    strings: the non-empty ones joined by commas, in double quotes after
    [group-title=]; nothing at all when none is non-empty. A value that is
    a string itself is read character by character. *)
Theorem group_title_of_strings :
  (∀ l : list string,
     group_title (JList (JStr <$> l))
     = Ok match filter (λ s, s ≠ EmptyString) l with
          | [] => EmptyString
          | kept => "group-title=" +:+ quoted (join "," kept) +:+ " "
          end)
  ∧ (∀ s : string, s ≠ EmptyString →
       group_title (JStr s)
       = Ok ("group-title=" +:+ quoted (join "," (ch <$> list_ascii_of_string s)) +:+ " ")).
Proof.
split; [apply group_title_strings |].
intros s Hs. unfold group_title. rewrite (truthy_JStr _ Hs).
cbn [iter mbind res_bind Py.bind].
assert (Hc : chars s = JStr <$> (ch <$> list_ascii_of_string s)).
{ clear. induction s as [|c s IH]; [done |]. cbn. by rewrite IH. }
rewrite Hc, filter_truthy_strings.
assert (Hf : filter (λ x, x ≠ EmptyString) (ch <$> list_ascii_of_string s)
             = ch <$> list_ascii_of_string s).
{ clear. induction (list_ascii_of_string s) as [|c l IH]; [done |].
  rewrite fmap_cons, filter_cons_True by done. by rewrite IH. }
rewrite Hf. destruct s as [|c s]; [done |].
cbn [list_ascii_of_string fmap list_fmap].
change (JStr (ch c) :: (JStr <$> (ch <$> list_ascii_of_string s)))
  with (JStr <$> (ch c :: (ch <$> list_ascii_of_string s))).
by rewrite (proj2 (strings_Ok _ _) eq_refl).
Qed.

(** X11. The playlist generator raises no exception but [TypeError]. It
    raises it whenever a channel with a true stream URL has a number
    other than zero for its categories; and it raises nothing on what
    [get_channels] returns when the categories of every record are a list
    of strings. *)
Theorem playlist_type_errors :
  (∀ channels e, generate_m3u_playlist channels = Raise e → e = TypeError)
  ∧ (∀ channels c n,
       c ∈ channels → truthy (stream_url c) = true → categories c = JInt n → n ≠ 0 →
       generate_m3u_playlist channels = Raise TypeError)
  ∧ (∀ net w,
       Forall (λ c, ∃ l : list string, categories c = JList (JStr <$> l))
         (get_channels net w).1 →
       ∃ text, generate_m3u_playlist (get_channels net w).1 = Ok text).
Proof.
split_and!.
- apply generate_m3u_playlist_raises.
- intros channels c n Hc Hs Hcat Hn.
  destruct (generate_m3u_playlist channels) as [text|e] eqn:Eg.
  + exfalso. destruct (generate_ok_extinf channels text Eg c Hc Hs) as [e He].
    unfold extinf_line in He. rewrite Hcat in He. unfold group_title in He.
    cbn [truthy] in He. destruct (Z.eqb_spec n 0); [done |]. done.
  + by rewrite (generate_m3u_playlist_raises _ _ Eg).
- apply generate_m3u_playlist_ok.
Qed.

End PlaylistProperties.

Lemma normalized_channels_have_urls_witness :
  let channels :=
    (Lg.get_channels
       (λ _, Lg.Response (JList [JObj [("id", JStr "ch1"); ("name", JStr "One");
                                       ("streamUrl", JStr "live/one.m3u8")]]))
       Lg.start).1 in
  filter (λ c, truthy (Lg.stream_url c) = true) channels = channels.
Proof.
cbn zeta.
exact (proj1 (proj2 (normalized_channels_have_urls (H := reference_lib)
         (λ _, Lg.Response (JList [JObj [("id", JStr "ch1"); ("name", JStr "One");
                                         ("streamUrl", JStr "live/one.m3u8")]]))
         Lg.start))).
Defined.

Lemma playlist_text_witness :
  ∃ entries : list (string * string),
    Forall2 (λ c e, Lg.extinf_line c = Ok e.1 ∧ Lg.stream_url c = JStr e.2)
      (filter (λ c, truthy (Lg.stream_url c) = true) [Sample.channel]) entries
    ∧ Lg.m3u_header +:+ ch lf
      +:+ "#EXTINF:-1 tvg-id=" +:+ quoted "ch1" +:+ " tvg-name=" +:+ quoted "One"
      +:+ " ,One" +:+ ch lf +:+ "https://cdn.example.com/one.m3u8" +:+ ch lf
      = Lg.m3u_header +:+ ch lf
        +:+ foldr (λ e t, e.1 +:+ ch lf +:+ e.2 +:+ ch lf +:+ t) EmptyString entries.
Proof.
destruct (playlist_text [Sample.channel]
            (Lg.m3u_header +:+ ch lf
             +:+ "#EXTINF:-1 tvg-id=" +:+ quoted "ch1" +:+ " tvg-name=" +:+ quoted "One"
             +:+ " ,One" +:+ ch lf +:+ "https://cdn.example.com/one.m3u8" +:+ ch lf)
            eq_refl) as [_ Hne].
apply Hne. discriminate.
Defined.

Lemma group_title_of_strings_witness :
  Lg.group_title (JList [JStr "News"; JStr EmptyString; JStr "Sports"])
  = Ok ("group-title=" +:+ quoted "News,Sports" +:+ " ")
  ∧ Lg.group_title (JStr "TV")
    = Ok ("group-title=" +:+ quoted "T,V" +:+ " ").
Proof.
destruct group_title_of_strings as [Hl Hs]. split.
- exact (Hl ["News"; EmptyString; "Sports"]).
- apply (Hs "TV"). discriminate.
Defined.

Lemma playlist_type_errors_witness :
  Lg.generate_m3u_playlist
    [{| Lg.id := JStr "ch1"; Lg.name := JStr "One"; Lg.number := JStr "0";
        Lg.logo := JStr EmptyString; Lg.stream_url := JStr "https://cdn.example.com/one.m3u8";
        Lg.description := JStr EmptyString; Lg.categories := JInt 7 |}]
  = Raise TypeError
  ∧ ∃ text,
      Lg.generate_m3u_playlist
        (Lg.get_channels
           (λ _, Lg.Response (JList [JObj [("id", JStr "ch1");
                                           ("categories", JList [JStr "News"])]]))
           Lg.start).1
      = Ok text.
Proof.
destruct (playlist_type_errors (H := reference_lib)) as (_ & Hnum & Hok). split.
- eapply (Hnum _ _ 7); [left | reflexivity | reflexivity | lia].
- apply Hok. repeat constructor. by exists ["News"].
Defined.

(** ** lg.py: the guide *)

Section GuideStructure.
Context `{PyLib}.
Import Lg.

Lemma programme_elem_tag (channel_id program : json) (e : xml) :
  programme_elem channel_id program = Some e → tag_of e = "programme".
Proof. by intros (kv & start & stop & _ & _ & _ & _ & _ & ->)%programme_elem_Some. Qed.

Lemma programmes_tags (net : network) (channels : list channel_info) (w : run) :
  Forall (λ e, tag_of e = "programme") (programmes net channels w).1.
Proof.
apply Forall_forall. intros e (c & p & _ & Hp)%programmes_origin.
by apply (programme_elem_tag _ _ _ Hp).
Qed.

Lemma channel_elems_spec (channels : list channel_info) :
  Forall2 (λ c e, tag_of e = "channel" ∧ attrib_of e = [("id", JStr (str (id c)))]
                  ∧ ∃ more, children_of e = text_node "display-name" (name c) :: more)
    (filter (λ c, truthy (id c) = true) channels) (omap channel_elem channels).
Proof.
induction channels as [|c rest IH]; [constructor |].
cbn [omap list_omap]. unfold channel_elem at 1.
destruct (truthy (id c)) eqn:Hid; cbn [negb].
- rewrite filter_cons_True by done. constructor; [|exact IH].
  split_and!; [done | done |]. by eexists.
- rewrite filter_cons_False by congruence. exact IH.
Qed.

(** The requests of one guide fetch. *)
Lemma get_epg_data_requests (net : network) (channel_id : json) (w : run) :
  (requests w ≤ requests (get_epg_data net channel_id w).2 ≤ requests w + 4)%nat.
Proof.
unfold get_epg_data. destruct (truthy channel_id); cbn [negb]; [|cbn; lia].
destruct (fetch_loop_spec net (EPG_ENDPOINT +:+ "/" +:+ str channel_id) MAX_RETRIES
            (Z.to_nat (MAX_RETRIES + 1)) 0 w eq_refl) as (n & Hn & _ & Hreq & _).
cbn zeta in Hreq. fold (fetch_data net (EPG_ENDPOINT +:+ "/" +:+ str channel_id)
                          MAX_RETRIES w) in Hreq.
destruct (fetch_data _ _ _ _) as [data w']. cbn [snd] in Hreq.
change (Z.to_nat (MAX_RETRIES + 1)) with 4%nat in Hn.
assert (requests w ≤ requests w' ≤ requests w + 4)%nat by lia.
destruct data as [| | | | |kv]; cbn [snd]; try done.
destruct (truthy (JObj kv)); [|done]. by destruct (lookup "programs" kv).
Qed.

Lemma channel_programmes_requests (net : network) (c : channel_info) (w : run) :
  (requests w ≤ requests (channel_programmes net c w).2 ≤ requests w + 4)%nat.
Proof.
unfold channel_programmes. destruct (truthy (id c)); cbn [negb]; [|cbn; lia].
pose proof (get_epg_data_requests net (id c) w) as Hr.
destruct (get_epg_data net (id c) w) as [[programs|e] w']; cbn [snd] in *; [|done].
destruct (truthy programs); cbn [negb]; [|done]. by destruct (iter programs).
Qed.

Lemma programmes_requests (net : network) (channels : list channel_info) (w : run) :
  (requests w ≤ requests (programmes net channels w).2
   ≤ requests w + 4 * length channels)%nat.
Proof.
revert w; induction channels as [|c rest IH]; intros w; [cbn; lia |].
cbn [programmes]. pose proof (channel_programmes_requests net c w) as Hc.
destruct (channel_programmes net c w) as [here w1]. cbn [snd] in Hc.
specialize (IH w1). destruct (programmes net rest w1) as [later w2].
cbn [snd length] in *. lia.
Qed.

(** With every request failing, a channel adds no programme. *)
Lemma channel_programmes_offline (net : network) (c : channel_info) (w : run) :
  (∀ i, net i = RequestException) → (channel_programmes net c w).1 = [].
Proof.
intros Hoff. unfold channel_programmes, get_epg_data.
destruct (truthy (id c)); cbn [negb]; [|done].
destruct (fetch_loop_spec net (EPG_ENDPOINT +:+ "/" +:+ str (id c)) MAX_RETRIES
            (Z.to_nat (MAX_RETRIES + 1)) 0 w eq_refl) as (n & _ & _ & _ & _ & _ & _ & Hall).
destruct (Hall (λ i _, Hoff _)) as [_ Hnull]. cbn zeta in Hnull.
fold (fetch_data net (EPG_ENDPOINT +:+ "/" +:+ str (id c)) MAX_RETRIES w) in Hnull.
destruct (fetch_data _ _ _ _) as [data w']. cbn [fst] in Hnull. by subst data.
Qed.

Lemma programmes_offline (net : network) (channels : list channel_info) (w : run) :
  (∀ i, net i = RequestException) → (programmes net channels w).1 = [].
Proof.
intros Hoff. revert w; induction channels as [|c rest IH]; intros w; [done |].
cbn [programmes]. pose proof (channel_programmes_offline net c w Hoff) as Hc.
destruct (channel_programmes net c w) as [here w1]. cbn [fst] in Hc. subst here.
specialize (IH w1). destruct (programmes net rest w1) as [later w2].
cbn [fst] in *. by subst later.
Qed.

Lemma generate_epg_xml_requests (net : network) (channels : list channel_info) (w : run) :
  (requests w ≤ requests (generate_epg_xml net channels w).2
   ≤ requests w + 4 * length channels)%nat.
Proof.
unfold generate_epg_xml. destruct channels as [|c rest]; [cbn; lia |].
pose proof (programmes_requests net (c :: rest) w) as Hp.
by destruct (programmes net (c :: rest) w).
Qed.

(** X12. The guide document. For an empty list there is none. For any
    other list the root is a [tv] element whose children are first the
    [channel] elements, one for each channel with a true id, in the order
    of the list, each with the id as its attribute and the display name
    as its first child, and after them only [programme] elements. *)
Theorem guide_structure (net : network) (channels : list channel_info) (w : run) :
  (channels = [] → generate_epg_xml net channels w = (None, w))
  ∧ (channels ≠ [] →
     ∃ chans progs : list xml,
       (generate_epg_xml net channels w).1
       = Some (Element "tv" tv_attrs JNull (chans ++ progs))
       ∧ Forall2 (λ c e, tag_of e = "channel"
                         ∧ attrib_of e = [("id", JStr (str (id c)))]
                         ∧ ∃ more, children_of e
                                   = text_node "display-name" (name c) :: more)
           (filter (λ c, truthy (id c) = true) channels) chans
       ∧ Forall (λ e, tag_of e = "programme") progs).
Proof.
split; [by intros -> |]. intros Hne.
exists (omap channel_elem channels), (programmes net channels w).1. split_and!.
- unfold generate_epg_xml. destruct channels as [|c rest]; [done |].
  by destruct (programmes net (c :: rest) w).
- apply channel_elems_spec.
- apply programmes_tags.
Qed.

(** X13. Building the guide costs at most four requests for each
    channel. When every request fails the guide is still built: it holds
    the [channel] elements and no programme. *)
Theorem guide_requests (net : network) (channels : list channel_info) (w : run) :
  (requests w ≤ requests (generate_epg_xml net channels w).2
   ≤ requests w + 4 * length channels)%nat
  ∧ ((∀ i, net i = RequestException) → channels ≠ [] →
     (generate_epg_xml net channels w).1
     = Some (Element "tv" tv_attrs JNull (omap channel_elem channels))).
Proof.
split; [apply generate_epg_xml_requests |].
- intros Hoff Hne. unfold generate_epg_xml. destruct channels as [|c rest]; [done |].
  pose proof (programmes_offline net (c :: rest) w Hoff) as Hp.
  destruct (programmes net (c :: rest) w) as [progs w']. cbn [fst] in *. subst progs.
  by rewrite app_nil_r.
Qed.

(** X14. Every [programme] element that a channel adds to the guide is
    made from an object in the list found under [programs] in the object
    that the request to the guide endpoint of that channel returned. *)
Theorem programme_from_response (net : network) (c : channel_info) (w : run) (e : xml) :
  e ∈ (channel_programmes net c w).1 →
  ∃ kv items pkv,
    (fetch_data net (EPG_ENDPOINT +:+ "/" +:+ str (id c)) MAX_RETRIES w).1 = JObj kv
    ∧ lookup "programs" kv = Some (JList items)
    ∧ JObj pkv ∈ items
    ∧ programme_elem (id c) (JObj pkv) = Some e.
Proof.
unfold channel_programmes, get_epg_data.
destruct (truthy (id c)); cbn [negb]; [|by intros ?%elem_of_nil].
destruct (fetch_data _ _ _ _) as [data w']. cbn [fst].
destruct data as [| | | | |kv]; try by intros ?%elem_of_nil.
destruct (truthy (JObj kv)); [|by intros ?%elem_of_nil].
destruct (lookup "programs" kv) as [programs|] eqn:Ep; [|by intros ?%elem_of_nil].
destruct (len programs) as [n|]; cbn [mbind res_bind Py.bind];
  [|by intros ?%elem_of_nil].
destruct (truthy programs); cbn [negb]; [|by intros ?%elem_of_nil].
destruct (iter programs) as [items|] eqn:Ei; cbn [fst]; [|by intros ?%elem_of_nil].
intros (p & Hp & He)%list_elem_of_omap.
destruct (programme_elem_Some _ _ _ He) as (pkv & _ & _ & -> & _).
assert (Hstr : ∀ l : list json, Forall (λ x, is_str x = true) l → JObj pkv ∉ l).
{ intros l Hl Hin. by apply (proj1 (Forall_forall _ _) Hl) in Hin. }
destruct programs as [| | |s|l|kv']; cbn [iter] in Ei; try done; injection Ei as <-.
- exfalso. apply (Hstr (chars s)); [|done]. clear. induction s; by constructor.
- by exists kv, l, pkv.
- exfalso. apply (Hstr (map (λ p, JStr p.1) kv')); [|done].
  clear. induction kv'; by constructor.
Qed.

End GuideStructure.

Lemma guide_structure_witness :
  ∃ chans progs : list Lg.xml,
    (Lg.generate_epg_xml Sample.net [Sample.channel] Lg.start).1
    = Some (Lg.Element "tv" Lg.tv_attrs JNull (chans ++ progs))
    ∧ Forall2 (λ c e, Lg.tag_of e = "channel"
                      ∧ Lg.attrib_of e = [("id", JStr (str (Lg.id c)))]
                      ∧ ∃ more, Lg.children_of e
                                = Lg.text_node "display-name" (Lg.name c) :: more)
        (filter (λ c, truthy (Lg.id c) = true) [Sample.channel]) chans
    ∧ Forall (λ e, Lg.tag_of e = "programme") progs.
Proof.
destruct (guide_structure (H := reference_lib) Sample.net [Sample.channel] Lg.start)
  as [_ Hne].
apply Hne. discriminate.
Defined.

Lemma guide_requests_witness :
  (Lg.generate_epg_xml (λ _, Lg.RequestException) [Sample.channel] Lg.start).1
  = Some (Lg.Element "tv" Lg.tv_attrs JNull
            [Lg.Element "channel" [("id", JStr "ch1")] JNull
               [Lg.text_node "display-name" (JStr "One")]]).
Proof.
destruct (guide_requests (H := reference_lib) (λ _, Lg.RequestException)
            [Sample.channel] Lg.start) as [_ Hoff].
rewrite Hoff; [reflexivity | done | discriminate].
Defined.

Lemma programme_from_response_witness :
  ∃ kv items pkv,
    (Lg.fetch_data Sample.net (Lg.EPG_ENDPOINT +:+ "/" +:+ str (Lg.id Sample.channel))
       Lg.MAX_RETRIES Lg.start).1 = JObj kv
    ∧ lookup "programs" kv = Some (JList items)
    ∧ JObj pkv ∈ items
    ∧ Lg.programme_elem (Lg.id Sample.channel) (JObj pkv) = Some Sample.programme.
Proof.
apply (programme_from_response (H := reference_lib) Sample.net Sample.channel Lg.start).
vm_compute. left.
Defined.

(** ** lg.py: the text handed to the parser of timestamps *)

Section IsoText.
Context `{PyLib}.
Import Lg.

Lemma lacks_app (c : ascii) (a b : string) :
  lacks c (a +:+ b) = lacks c a && lacks c b.
Proof.
induction a as [|d a IH]; [done |]. cbn [String.append lacks].
by rewrite IH, andb_assoc.
Qed.

Lemma lacks_replace_go (c : ascii) (old new : string) (k : nat) (s : string) :
  lacks c new = true → lacks c s = true → lacks c (replace_go old new k s) = true.
Proof.
intros Hn. revert k; induction s as [|d s IH]; intros k Hs; [done |].
cbn [lacks] in Hs. apply andb_true_iff in Hs as [Hd Hs].
cbn [replace_go]. destruct k as [|k]; [|by apply IH].
destruct (startswith old (String d s)).
- rewrite lacks_app, Hn. by apply IH.
- cbn [lacks]. rewrite Hd. by apply IH.
Qed.

(** Replacing a character leaves none of it, when the new text has none. *)
Lemma lacks_replace_char (c : ascii) (new s : string) :
  lacks c new = true → lacks c (replace (ch c) new s) = true.
Proof.
intros Hn. unfold replace. induction s as [|d s IH]; [done |].
cbn [replace_go ch startswith String.length Nat.sub].
destruct (Ascii.eqb c d) eqn:E.
- destruct s; cbn [startswith]; by rewrite lacks_app, Hn, IH.
- cbn [lacks]. rewrite Ascii.eqb_sym, E. by rewrite IH.
Qed.

Lemma replace_lacks (c : ascii) (new s : string) :
  lacks c s = true → replace (ch c) new s = s.
Proof.
unfold replace. induction s as [|d s IH]; [done |]. cbn [lacks].
intros [Hd Hs]%andb_true_iff. cbn [replace_go ch startswith].
apply negb_true_iff in Hd. rewrite Ascii.eqb_sym, Hd. by rewrite IH.
Qed.

Lemma contains_lacks (c : ascii) (s : string) :
  lacks c s = true → contains (ch c) s = false.
Proof.
induction s as [|d s IH]; [done |]. cbn [lacks].
intros [Hd Hs]%andb_true_iff. cbn [contains ch startswith].
apply negb_true_iff in Hd. rewrite Ascii.eqb_sym, Hd. by rewrite IH.
Qed.

Lemma contains_false_lacks (c : ascii) (s : string) :
  contains (ch c) s = false → lacks c s = true.
Proof.
induction s as [|d s IH]; [done |]. cbn [contains ch startswith lacks].
destruct (Ascii.eqb c d) eqn:E.
- by destruct s.
- cbn [orb]. intros Hs. by rewrite Ascii.eqb_sym, E, IH.
Qed.

(** [cut], for a separator of one character. *)
Lemma cut_char_Some (c : ascii) (s a b : string) :
  cut (ch c) s = Some (a, b) → s = a +:+ String c b ∧ lacks c a = true.
Proof.
revert a; induction s as [|d s IH]; intros a; [done |].
cbn [cut ch startswith String.length sdrop].
destruct (Ascii.eqb c d) eqn:E.
- intros [= <- <-]. apply Ascii.eqb_eq in E as ->. done.
- destruct (cut (ch c) s) as [[a' b']|] eqn:Ec; [|done]. intros [= <- <-].
  destruct (IH a' eq_refl) as [-> Ha]. cbn [String.append lacks].
  by rewrite Ascii.eqb_sym, E, Ha.
Qed.

Lemma cut_char_None (c : ascii) (s : string) :
  cut (ch c) s = None → lacks c s = true.
Proof.
induction s as [|d s IH]; [done |].
cbn [cut ch startswith String.length sdrop lacks].
destruct (Ascii.eqb c d) eqn:E.
- by destruct s.
- destruct (cut (ch c) s) as [[a' b']|]; [done |]. intros _.
  by rewrite Ascii.eqb_sym, E, IH.
Qed.

Lemma cut_char_app (c : ascii) (a b : string) :
  lacks c a = true → cut (ch c) (a +:+ String c b) = Some (a, b).
Proof.
induction a as [|d a IH].
- intros _. cbn [String.append cut ch startswith String.length sdrop].
  rewrite Ascii.eqb_refl. by destruct b.
- cbn [lacks]. intros [Hd Ha]%andb_true_iff. apply negb_true_iff in Hd.
  cbn [String.append cut ch startswith]. rewrite Ascii.eqb_sym, Hd.
  by rewrite (IH Ha).
Qed.

(** X15. The text that [format_time] hands to the parser has no [Z] in
    it, and no colon after its first dot: an offset written after
    fractional seconds reaches the parser without its colon. Preparing a
    prepared text again changes nothing. *)
Theorem iso_text_normal (s : string) :
  lacks "Z" (iso_text s) = true
  ∧ (∀ a b, cut "." (iso_text s) = Some (a, b) →
            lacks "." a = true ∧ lacks ":" b = true
            ∧ ∃ b', cut "." (if contains "Z" s then replace "Z" "+00:00" s else s)
                    = Some (a, b')
                    ∧ b = replace ":" EmptyString b')
  ∧ iso_text (iso_text s) = iso_text s.
Proof.
set (t := if contains "Z" s then replace "Z" "+00:00" s else s).
assert (Es : iso_text s
             = match cut "." t with
               | Some (before, after) =>
                   before +:+ replace ":" EmptyString ("." +:+ after)
               | None => t
               end) by reflexivity.
assert (Ht : lacks "Z" t = true).
{ subst t. destruct (contains "Z" s) eqn:Ez.
  - by apply (lacks_replace_char "Z").
  - by apply (contains_false_lacks "Z"). }
destruct (cut "." t) as [[before after]|] eqn:Ec.
- destruct (cut_char_Some "." _ _ _ Ec) as [Et Hb].
  assert (Hr : replace ":" EmptyString ("." +:+ after)
               = String "." (replace ":" EmptyString after)) by by apply replace_miss.
  rewrite Hr in Es. rewrite !Es. clear Es.
  assert (Hz : lacks "Z" (before +:+ String "." (replace ":" EmptyString after)) = true).
  { rewrite Et, lacks_app in Ht. apply andb_true_iff in Ht as [Hzb Hza].
    cbn [lacks] in Hza. rewrite lacks_app, Hzb. cbn [lacks andb].
    change (negb (Ascii.eqb "." "Z")) with true. cbn [andb].
    apply andb_true_iff in Hza as [_ Hza]. by apply lacks_replace_go. }
  pose proof (lacks_replace_char ":" EmptyString after eq_refl) as Hcolon.
  split_and!.
  + exact Hz.
  + intros a b. rewrite (cut_char_app "." _ _ Hb). intros [= <- <-].
    split_and!; [done | done |]. by exists after.
  + pose proof (contains_lacks "Z" _ Hz) as Hno.
    pose proof (cut_char_app "." _ (replace ":" EmptyString after) Hb) as Hcut.
    pose proof (replace_lacks ":" EmptyString _ Hcolon) as Hid.
    unfold ch in Hno, Hcut, Hid. unfold iso_text. rewrite Hno, Hcut.
    change ("." +:+ replace ":" EmptyString after)
      with (String "." (replace ":" EmptyString after)).
    rewrite (replace_miss ":" EmptyString "." _ eq_refl). by rewrite Hid.
- rewrite !Es. clear Es. split_and!.
  + exact Ht.
  + intros a b. by rewrite Ec.
  + pose proof (contains_lacks "Z" _ Ht) as Hno. unfold ch in Hno.
    unfold iso_text. rewrite Hno. by rewrite Ec.
Qed.

End IsoText.

Lemma iso_text_normal_witness :
  Lg.iso_text "2024-01-01T00:00:00.000Z" = "2024-01-01T00:00:00.000+0000"
  ∧ lacks ":" "000+0000" = true.
Proof.
destruct (iso_text_normal "2024-01-01T00:00:00.000Z") as (_ & Hcut & _).
destruct (Hcut "2024-01-01T00:00:00" "000+0000" eq_refl) as (_ & Hc & _).
split; [reflexivity | exact Hc].
Defined.

(** ** lg.py: the script *)

Section Script.
Context `{PyLib}.
Import Lg.



End Script.



(** ** Ids across the playlist and the guide *)

Section Ids.
Context `{PyLib}.
Import Lg.







End Ids.

(** ** udptv.py: lines that are blank or comments *)

Section RelayEdges.
Import Udptv.

(** X19. What [clean_playlist] does with lines that carry no channel. A
    playlist of comment and header lines only (no [#EXTINF] line) comes
    out empty. Blank lines are not dropped: a playlist of blank lines only
    comes out as that many empty lines. No channel is counted in either
    case. *)
Theorem relay_comment_and_blank_lines (lines : list string) :
  (Forall (λ l, startswith "#" (strip l) = true
                ∧ startswith "#EXTINF" (strip l) = false) lines →
   clean_playlist lines = ([], O))
  ∧ (Forall (λ l, strip l = EmptyString) lines →
     clean_playlist lines = (replicate (length lines) EmptyString, O)).
Proof.
rewrite clean_playlist_lines. split.
- induction 1 as [|raw rest [Hh Hext] _ IH]; [done |].
  rewrite clean_lines_drop; [done | done |].
  unfold is_dropped. cbn [existsb]. rewrite Hh. by rewrite !orb_true_r.
- induction 1 as [|raw rest Hb _ IH]; [done |].
  rewrite clean_lines_keep; [| by rewrite Hb | by rewrite Hb].
  rewrite IH, Hb. done.
Qed.

End RelayEdges.

Lemma relay_comment_and_blank_lines_witness :
  Udptv.clean_playlist ["#EXTM3U"; " # a comment"; "#EXTGRP:News"] = ([], O)
  ∧ Udptv.clean_playlist [EmptyString; "   "] = ([EmptyString; EmptyString], O).
Proof.
split.
- apply (relay_comment_and_blank_lines ["#EXTM3U"; " # a comment"; "#EXTGRP:News"]).
  repeat constructor.
- apply (relay_comment_and_blank_lines [EmptyString; "   "]).
  repeat constructor.
Defined.

(** ** lg.py: what is dropped *)

Section Dropped.
Context `{PyLib}.
Import Lg.

Lemma format_time_raises (v : json) (e : exn) :
  format_time v = Raise e → e = TypeError ∧ truthy v = true ∧ is_str v = false.
Proof.
unfold format_time. destruct (truthy v) eqn:Hv; cbn [negb]; [|done].
destruct v as [| | |s|l|kv]; try (by intros [= <-]).
- by destruct (holds "Z" (JList l) || holds "." (JList l)); intros [= <-].
- by destruct (holds "Z" (JObj kv) || holds "." (JObj kv)); intros [= <-].
Qed.

(** X20. A program adds no element to the guide in exactly these cases:
    it is not an object, one of its two timestamps is false, or
    [format_time] raises on one of them. [format_time] raises nothing but
    [TypeError], and only on a true value that is not a string. *)
Theorem programme_dropped (channel_id program : json) :
  (programme_elem channel_id program = None
   ↔ match program with
     | JObj kv =>
         truthy (get "startTime" kv) = false ∨ truthy (get "endTime" kv) = false
         ∨ format_time (get "startTime" kv) = Raise TypeError
         ∨ format_time (get "endTime" kv) = Raise TypeError
     | _ => True
     end)
  ∧ (∀ v e, format_time v = Raise e →
            e = TypeError ∧ truthy v = true ∧ is_str v = false).
Proof.
split; [|apply format_time_raises].
destruct program as [| | | | |kv]; try done. cbn [programme_elem].
destruct (truthy (get "startTime" kv)) eqn:Hs; cbn [negb orb];
  [|split; [by left | done]].
destruct (truthy (get "endTime" kv)) eqn:He; cbn [negb];
  [|split; [right; by left | done]].
destruct (format_time (get "startTime" kv)) as [start|e1] eqn:E1.
- destruct (format_time (get "endTime" kv)) as [stop|e2] eqn:E2.
  + split; [done |]. intros [? | [? | [? | ?]]]; done.
  + destruct (format_time_raises _ _ E2) as [-> _]. split; [|done].
    intros _. by do 3 right.
- destruct (format_time_raises _ _ E1) as [-> _]. split; [|done].
  intros _. right. right. by left.
Qed.

Lemma startswith_any_text (p : string) (v : json) :
  is_str v = false → ∃ e, startswith_any p v = Raise e.
Proof. destruct v; try done; by eexists. Qed.

(** X21. In the normalization of the channel list each record is judged
    by itself: the result for two lists put together is the two results
    put together. A record is dropped when it is not an object, when its
    id is false, and when its [streamUrl] or its [logoUrl] is a true value
    that is not a string. It is kept as it is when its id is true, its
    stream URL is a string that starts with [http] and its logo URL is
    false. *)
Theorem record_kept_or_dropped :
  (∀ a b, normalize_channels (a ++ b) = normalize_channels a ++ normalize_channels b)
  ∧ (∀ raw, (∀ kv, raw ≠ JObj kv) → normalize_channels [raw] = [])
  ∧ (∀ kv, truthy (get "id" kv) = false → normalize_channels [JObj kv] = [])
  ∧ (∀ kv, truthy (get_or "streamUrl" (JStr EmptyString) kv) = true →
           is_str (get_or "streamUrl" (JStr EmptyString) kv) = false →
           normalize_channels [JObj kv] = [])
  ∧ (∀ kv, truthy (get_or "logoUrl" (JStr EmptyString) kv) = true →
           is_str (get_or "logoUrl" (JStr EmptyString) kv) = false →
           normalize_channels [JObj kv] = [])
  ∧ (∀ kv s, truthy (get "id" kv) = true →
             get_or "streamUrl" (JStr EmptyString) kv = JStr s →
             startswith "http" s = true →
             truthy (get_or "logoUrl" (JStr EmptyString) kv) = false →
             ∃ c, normalize_channels [JObj kv] = [c]
                  ∧ id c = get "id" kv ∧ stream_url c = JStr s
                  ∧ logo c = get_or "logoUrl" (JStr EmptyString) kv).
Proof.
split_and!.
- intros a b. rewrite !normalize_channels_omap. apply omap_app.
- intros raw Hraw. rewrite normalize_channels_omap. cbn [omap list_omap].
  unfold kept_channel, channel_record.
  destruct raw as [| | | | |kv]; try done. by destruct (Hraw kv).
- intros kv Hid. rewrite normalize_channels_omap. cbn [omap list_omap].
  unfold kept_channel, channel_record. by rewrite Hid.
- intros kv Hv Hs. rewrite normalize_channels_omap. cbn [omap list_omap].
  unfold kept_channel, channel_record. destruct (truthy (get "id" kv)); [|done].
  cbn [negb]. unfold resolve_stream. rewrite Hv. cbn [negb].
  by destruct (startswith_any_text "http" _ Hs) as [e ->].
- intros kv Hv Hs. rewrite normalize_channels_omap. cbn [omap list_omap].
  unfold kept_channel, channel_record. destruct (truthy (get "id" kv)); [|done].
  cbn [negb]. destruct (resolve_stream _) as [u|]; [|done].
  cbn [mbind res_bind Py.bind]. unfold resolve_logo. rewrite Hv.
  by destruct (startswith_any_text "http" _ Hs) as [e ->].
- intros kv s Hid Hs Hhttp Hlogo. rewrite normalize_channels_omap.
  cbn [omap list_omap]. unfold kept_channel, channel_record. rewrite Hid. cbn [negb].
  assert (Ht : truthy (JStr s) = true) by by destruct s.
  unfold resolve_stream, resolve_logo. rewrite Hs, Ht, Hlogo. cbn [negb].
  cbn [startswith_any mbind res_bind Py.bind]. rewrite Hhttp. cbn [negb].
  by eexists.
Qed.

End Dropped.

Lemma programme_dropped_witness :
  Lg.programme_elem (JStr "ch1")
    (JObj [("startTime", JInt 1704067200); ("endTime", JStr "2024-01-01T01:00:00Z")])
  = None.
Proof.
apply (programme_dropped (H := reference_lib)). right. right. left. reflexivity.
Defined.

Lemma record_kept_or_dropped_witness :
  Lg.normalize_channels [JObj [("id", JStr "ch1"); ("streamUrl", JInt 5)]] = []
  ∧ ∃ c, Lg.normalize_channels
           [JObj [("id", JStr "ch2"); ("streamUrl", JStr "https://cdn.example.com/two.m3u8")]]
         = [c]
         ∧ Lg.id c = JStr "ch2"
         ∧ Lg.stream_url c = JStr "https://cdn.example.com/two.m3u8"
         ∧ Lg.logo c = JStr EmptyString.
Proof.
destruct (record_kept_or_dropped (H := reference_lib)) as (_ & _ & _ & Hs & _ & Hk).
split.
- apply Hs; reflexivity.
- apply (Hk [("id", JStr "ch2"); ("streamUrl", JStr "https://cdn.example.com/two.m3u8")]
           "https://cdn.example.com/two.m3u8"); reflexivity.
Defined.
